(** * Querido Diario: the ro_ji_parana spider and the item pipelines

    A shallow embedding of
      - [gazette/spiders/ro/ro_ji_parana.py]: the listing parser and the
        page-scoped record aggregator, and
      - [gazette/pipelines.py]: the date filter, the SQL sink and the
        storage path computation of the files pipeline,
    followed by the properties the specification states about them.

    Python [str] values are lists of Unicode code points and [bytes] values
    are lists of octets, both as [list N]; Python [int]s are [Z]. *)

From Stdlib Require Import ZArith NArith Lia Ascii String.
From stdpp Require Import base option list gmap sets sorting.

Local Open Scope N_scope.

(* ===================================================================== *)
(** ** Strings *)
(* ===================================================================== *)

Abbreviation pystr := (list N) (only parsing).
Abbreviation bytes := (list N) (only parsing).

(** An ASCII literal as a list of code points. *)
Definition u (s : string) : pystr := N_of_ascii <$> list_ascii_of_string s.

(** [str.isspace] on one code point; the same set is the regex class [\s]
    of a [str] pattern. *)
Definition is_space (c : N) : bool :=
  ((9 <=? c) && (c <=? 13)) || ((28 <=? c) && (c <=? 32))
  || (c =? 133) || (c =? 160) || (c =? 5760)
  || ((8192 <=? c) && (c <=? 8202))
  || (c =? 8232) || (c =? 8233) || (c =? 8239) || (c =? 8287) || (c =? 12288).

Definition is_digit (c : N) : bool := (48 <=? c) && (c <=? 57).

Fixpoint lstrip (s : pystr) : pystr :=
  match s with
  | c :: s' => if is_space c then lstrip s' else s
  | [] => []
  end.

(** [s.strip()] *)
Definition strip (s : pystr) : pystr := reverse (lstrip (reverse (lstrip s))).

Fixpoint startswith (s p : pystr) : bool :=
  match p, s with
  | [], _ => true
  | c :: p', d :: s' => (c =? d) && startswith s' p'
  | _ :: _, [] => false
  end.

(** [s.endswith(p)] *)
Definition endswith (s p : pystr) : bool := startswith (reverse s) (reverse p).

(** [needle in s], also XPath's [contains(s, needle)]. *)
Fixpoint contains (s needle : pystr) : bool :=
  startswith s needle ||
  match s with
  | _ :: s' => contains s' needle
  | [] => false
  end.

(** [s.replace(old, new)] for a non-empty [old]: occurrences are replaced
    from the left and do not overlap; [skip] counts the characters of the
    occurrence just replaced that are still to be dropped. *)
Fixpoint replace_from (old new : pystr) (skip : nat) (s : pystr) : pystr :=
  match s with
  | [] => []
  | c :: s' =>
      match skip with
      | S n => replace_from old new n s'
      | O => if startswith s old
             then new ++ replace_from old new (Nat.pred (length old)) s'
             else c :: replace_from old new O s'
      end
  end.

Definition replace (s old new : pystr) : pystr := replace_from old new O s.

(** [sep.join(parts)] *)
Fixpoint join (sep : pystr) (parts : list pystr) : pystr :=
  match parts with
  | [] => []
  | [p] => p
  | p :: ps => p ++ sep ++ join sep ps
  end.

(** [s.split(sep)] for a one-character separator. *)
Fixpoint split (sep : N) (s : pystr) : list pystr :=
  match s with
  | [] => [[]]
  | c :: s' =>
      if c =? sep then [] :: split sep s'
      else match split sep s' with
           | p :: ps => (c :: p) :: ps
           | [] => [[c]]
           end
  end.

(** [s.rfind(c)] for one character, as the index of its last occurrence. *)
Fixpoint rfind (c : N) (s : pystr) : option nat :=
  match s with
  | [] => None
  | d :: s' =>
      match rfind c s' with
      | Some i => Some (S i)
      | None => if d =? c then Some O else None
      end
  end.

(** Decimal digits of a natural number, [str(n)] for [n >= 0]. *)
Fixpoint digits_of_uint (d : Decimal.uint) : pystr :=
  match d with
  | Decimal.Nil => []
  | Decimal.D0 d => 48 :: digits_of_uint d
  | Decimal.D1 d => 49 :: digits_of_uint d
  | Decimal.D2 d => 50 :: digits_of_uint d
  | Decimal.D3 d => 51 :: digits_of_uint d
  | Decimal.D4 d => 52 :: digits_of_uint d
  | Decimal.D5 d => 53 :: digits_of_uint d
  | Decimal.D6 d => 54 :: digits_of_uint d
  | Decimal.D7 d => 55 :: digits_of_uint d
  | Decimal.D8 d => 56 :: digits_of_uint d
  | Decimal.D9 d => 57 :: digits_of_uint d
  end.

Definition str_of_N (n : N) : pystr := digits_of_uint (N.to_uint n).

(** [str(z)] for an [int]. *)
Definition str_of_int (z : Z) : pystr :=
  if (z <? 0)%Z then 45 :: str_of_N (Z.to_N (- z)) else str_of_N (Z.to_N z).

(** [int(s)] on a string of ASCII digits. *)
Definition int_of_digits (s : pystr) : Z :=
  Z.of_N (fold_left (fun acc c => 10 * acc + (c - 48)) s 0).

(** ["%0<width>d" % n] *)
Definition zero_pad (width : nat) (n : Z) : pystr :=
  let ds := str_of_int n in
  replicate (width - length ds) 48 ++ ds.

(** [str(b)] for a [bool]. *)
Definition str_of_bool (b : bool) : pystr := if b then u "True" else u "False".

(* ===================================================================== *)
(** ** Regular expressions

    The fragment of [re] the two modules use: character classes, greedy
    bounded repetition of a class, sequencing, alternation and capture
    groups, matched by backtracking as [re] does: leftmost start, and at
    each choice point the first alternative (the longest repetition) that
    lets the rest of the pattern match. *)
(* ===================================================================== *)

Inductive regex : Type :=
| Eps
| Chr (p : N -> bool)
| Rep (p : N -> bool) (lo : nat) (hi : option nat)
| Seq (r1 r2 : regex)
| Alt (r1 r2 : regex)
| Group (i : nat) (r : regex).

(** The captured groups of a match object: [m.group(i)]. *)
Abbreviation captures := (gmap nat (list N)) (only parsing).

Fixpoint match_rep {R} (p : N -> bool) (lo : nat) (hi : option nat)
    (s : pystr) (k : pystr -> option R) : option R :=
  let stop := match lo with O => k s | S _ => None end in
  match s with
  | c :: s' =>
      if p c && negb (bool_decide (hi = Some O))
      then match match_rep p (Nat.pred lo) (Nat.pred <$> hi) s' k with
           | Some r => Some r
           | None => stop
           end
      else stop
  | [] => stop
  end.

Fixpoint match_at {R} (r : regex) (s : pystr) (caps : captures)
    (k : pystr -> captures -> option R) : option R :=
  match r with
  | Eps => k s caps
  | Chr p =>
      match s with
      | c :: s' => if p c then k s' caps else None
      | [] => None
      end
  | Rep p lo hi => match_rep p lo hi s (fun s' => k s' caps)
  | Seq r1 r2 => match_at r1 s caps (fun s' caps' => match_at r2 s' caps' k)
  | Alt r1 r2 =>
      match match_at r1 s caps k with
      | Some x => Some x
      | None => match_at r2 s caps k
      end
  | Group i r =>
      match_at r s caps
        (fun s' caps' => k s' (<[i := take (length s - length s') s]> caps'))
  end.

(** [pattern.search(s)]: the captures of the leftmost match, if any. *)
Fixpoint search (r : regex) (s : pystr) : option captures :=
  match match_at r s ∅ (fun _ caps => Some caps) with
  | Some caps => Some caps
  | None =>
      match s with
      | _ :: s' => search r s'
      | [] => None
      end
  end.

(** [m.group(i)] of a group that took part in the match. *)
Definition group (m : captures) (i : nat) : pystr := default [] (m !! i).

(** [bool(m)] for the result of [search]: a match object is true, [None]
    is false. *)
Definition bool_of_match (m : option (gmap nat (list N))) : bool :=
  match m with Some _ => true | None => false end.

(** The simple lower-case mapping [re.IGNORECASE] applies to the subject
    character, on the code points whose image is a Latin-1 letter; it is
    the identity on the rest, none of which lowers to a Latin-1 letter. *)
Definition unicode_tolower (c : N) : N :=
  if (65 <=? c) && (c <=? 90) then c + 32
  else if (192 <=? c) && (c <=? 222) && negb (c =? 215) then c + 32
  else if c =? 304 then 105
  else if c =? 376 then 255
  else if c =? 7838 then 223
  else if c =? 8490 then 107
  else if c =? 8491 then 229
  else c.

(** The extra equivalents [re] adds to a lower-case literal: dotless i for
    [i], long s for [s], Greek mu for the micro sign. *)
Definition ignorecase_fixes (lo : N) : list N :=
  if lo =? 105 then [305]
  else if lo =? 115 then [383]
  else if lo =? 181 then [956]
  else [].

(** A literal character, case-sensitively and under [re.IGNORECASE]. *)
Definition lit (c : N) : N -> bool := N.eqb c.

Definition lit_i (c : N) : N -> bool :=
  fun ch =>
    let lo := unicode_tolower c in
    let x := unicode_tolower ch in
    (x =? lo) || existsb (N.eqb x) (ignorecase_fixes lo).

Definition seq_of (rs : list regex) : regex := foldr Seq Eps rs.

(** A literal string under [re.IGNORECASE]. *)
Definition str_i (s : pystr) : regex := seq_of (Chr ∘ lit_i <$> s).

(** A literal byte string. *)
Definition str_lit (s : pystr) : regex := seq_of (Chr ∘ lit <$> s).

(** [.] without [re.DOTALL]. *)
Definition any_char (c : N) : bool := negb (c =? 10).

(** [x?] for one character, under [re.IGNORECASE]. *)
Definition opt_i (c : N) : regex := Rep (lit_i c) 0 (Some 1%nat).

(* ===================================================================== *)
(** ** [ro_ji_parana.py]: module constants *)
(* ===================================================================== *)

Definition not_digit (c : N) : bool := negb (is_digit (unicode_tolower c)).

(** [[-–]]: a hyphen or an en dash. *)
Definition hyphen_or_en_dash (c : N) : bool := (c =? 45) || (c =? 8211).

(** [POST_2013_SPLIT_GAZETTE_TEXT_PATTERN], compiled with [re.IGNORECASE].
    Group 1 is the edition number, group 2 the free text that tells an
    extra edition, groups 3 to 5 the year, month and day. *)
Definition POST_2013_SPLIT_GAZETTE_TEXT_PATTERN : regex :=
  seq_of
    [ str_i (u "Edi" ++ [231; 227] ++ u "o");
      Rep not_digit 1 None;
      Group 1 (Rep is_digit 1 None);
      Rep is_space 0 None; Rep hyphen_or_en_dash 0 (Some 1%nat); Rep is_space 0 None;
      Group 2 (Rep not_digit 0 None);
      Rep is_space 1 None; Chr (lit 45); Rep is_space 1 None;
      Group 3 (Rep is_digit 4 (Some 4%nat));
      Chr any_char;
      Group 4 (Rep is_digit 2 (Some 2%nat));
      Chr any_char;
      Group 5 (Rep is_digit 2 (Some 2%nat)) ].

(** [IS_EXTRA_EDITION_PATTERN]: [(sum?ple?mento|extraordinária)] with
    [re.IGNORECASE]; the optional letters admit the typos "sumplemento"
    and "suplmento". *)
Definition IS_EXTRA_EDITION_PATTERN : regex :=
  Group 1
    (Alt
       (seq_of [ str_i (u "su"); opt_i 109; str_i (u "pl"); opt_i 101;
                 str_i (u "mento") ])
       (str_i (u "extraordin" ++ [225] ++ u "ria"))).

Local Close Scope N_scope.
Local Open Scope Z_scope.

(* ===================================================================== *)
(** ** Dates, exceptions, log records, items *)
(* ===================================================================== *)

Module datetime.
(** [datetime.date] *)
Record date : Type := Date { year : Z; month : Z; day : Z }.
End datetime.
Export datetime.

#[global] Instance date_eq_dec : EqDecision date.
Proof. solve_decision. Defined.

Definition is_leap (y : Z) : bool :=
  (y mod 4 =? 0) && (negb (y mod 100 =? 0) || (y mod 400 =? 0)).

Definition days_in_month (y m : Z) : Z :=
  if m =? 2 then (if is_leap y then 29 else 28)
  else if (m =? 4) || (m =? 6) || (m =? 9) || (m =? 11) then 30
  else 31.

(** The constructor [date(y, m, d)]; [None] stands for its [ValueError]. *)
Definition new_date (y m d : Z) : option date :=
  if (1 <=? y) && (y <=? 9999) && (1 <=? m) && (m <=? 12)
     && (1 <=? d) && (d <=? days_in_month y m)
  then Some (Date y m d) else None.

(** [a < b] and [a <= b] on dates. *)
Definition date_ltb (a b : date) : bool :=
  (year a <? year b)
  || ((year a =? year b)
      && ((month a <? month b) || ((month a =? month b) && (day a <? day b)))).

Definition date_leb (a b : date) : bool := negb (date_ltb b a).

(** [d.isoformat()], which is also [str(d)], and [d.strftime("%Y-%m-%d")]
    for the years of four digits. *)
Definition isoformat (d : date) : pystr :=
  zero_pad 4 (year d) ++ u "-" ++ zero_pad 2 (month d) ++ u "-"
  ++ zero_pad 2 (day d).

Inductive exn : Type :=
| ValueError
| KeyError
| AttributeError
| DropItem (message : pystr).

Inductive level : Type := INFO | WARNING | ERROR.

(** One call of [logger.info], [logger.warning] or [logger.error]. *)
Record LogRecord : Type := Log { log_level : level; log_message : pystr }.

(** [scrapy.Request]: what the pipelines read of it. *)
Record Request : Type := { method : pystr; url : pystr }.

(** One entry of [item["files"]], as the files pipeline leaves it. *)
Record FileInfo : Type :=
  { file_status : pystr; file_path_ : pystr; file_url_ : pystr;
    file_checksum_ : pystr }.

(** [gazette.items.Gazette]. Every spider builds the item with its date;
    a field that may be unset is an [option], a list field that is read
    with a default is empty when unset. *)
Record Gazette : Type :=
  { item_date : date;
    edition_number : option pystr;
    is_extra_edition : option bool;
    power : option pystr;
    source_text : option pystr;
    scraped_at : option Z;
    territory_id : option pystr;
    file_urls : list pystr;
    file_requests : list Request;
    files : list FileInfo }.

(* ===================================================================== *)
(** ** [gazette/spiders/ro/ro_ji_parana.py] *)
(* ===================================================================== *)

Module ro_ji_parana.

(** Lexicographic order on code points: [a <= b] on [str]. *)
Fixpoint str_leb (a b : pystr) : bool :=
  match a, b with
  | [], _ => true
  | _ :: _, [] => false
  | x :: a', y :: b' => (x <? y)%N || ((x =? y)%N && str_leb a' b')
  end.

Definition str_le (a b : pystr) : Prop := str_leb a b.

#[global] Instance str_le_dec : RelDecision str_le.
Proof. intros a b. unfold str_le. apply _. Defined.

(** [sorted(keys)] *)
Definition sorted (keys : list pystr) : list pystr := merge_sort str_le keys.

(** The key of the outer dict: (gazette_date, edition_number,
    is_extra_edition). *)
Abbreviation GroupKey := (date * list N * bool)%type (only parsing).

(** The value of the outer dict: is_extra_edition_text to a set of URLs. *)
Abbreviation ByText := (gmap (list N) (gset (list N))) (only parsing).

(** The page's nested dict. The outer dict is iterated with [.items()], in
    insertion order, so it is kept as an association list; the inner dict is
    only read through [sorted] and by key. *)
Abbreviation GazettesDataPerPage :=
  (list ((date * list N * bool) * gmap (list N) (gset (list N)))) (only parsing).

(** [d.get(k)] *)
Fixpoint dict_get (d : GazettesDataPerPage) (k : GroupKey) : option ByText :=
  match d with
  | [] => None
  | (k', v) :: d' => if decide (k' = k) then Some v else dict_get d' k
  end.

(** [d[k] = v]: an existing key keeps its position, a new one goes last. *)
Fixpoint dict_set (d : GazettesDataPerPage) (k : GroupKey) (v : ByText)
    : GazettesDataPerPage :=
  match d with
  | [] => [(k, v)]
  | (k', v') :: d' =>
      if decide (k' = k) then (k', v) :: d' else (k', v') :: dict_set d' k v
  end.

(** The spider attributes the callback reads. *)
Record Spider : Type := { start_date : date; end_date : date }.

(** An [a] element: its first text child and its [href]. *)
Record Anchor : Type := { a_text : option pystr; a_href : option pystr }.

(** The listing page: the [a] elements below a [div] of class [col-sm-8],
    in document order, and [response.urljoin]. *)
Record Response : Type :=
  { anchors : list Anchor; urljoin : pystr -> pystr }.

(** A node selected by [gazette_data_xpath], with the results of
    [./text()] and [./@href]. *)
Record Node : Type := { node_text : pystr; node_href : pystr }.

(** [response.xpath(gazette_data_xpath)]: the anchors that have an [href]
    and whose text contains ['Edição'] and [' {year}-']. *)
Definition gazette_data_xpath (year : Z) (a : Anchor) : option Node :=
  match a_text a, a_href a with
  | Some t, Some h =>
      if contains t (u "Edi" ++ [231; 227]%N ++ u "o")
         && contains t (u " " ++ str_of_int year ++ u "-")
      then Some {| node_text := t; node_href := h |}
      else None
  | _, _ => None
  end.

(** Lines 193 to 222. The two [setdefault] calls and the [add] mutate the
    page's dict in place; here the updated dict is returned, with the
    records logged. *)
Definition _validate_uniqueness (current_gazettes_data_per_page : GazettesDataPerPage)
    (gazette_date : date) (edition_number : pystr) (is_extra_edition : bool)
    (is_extra_edition_text : pystr) (url : pystr)
    : GazettesDataPerPage * list LogRecord :=
  if bool_decide (gazette_date = Date 2014 8 28) && negb (endswith url (u ".pdf"))
  then
    (current_gazettes_data_per_page,
     [Log INFO
        (u "The extracted URL for " ++ isoformat gazette_date
         ++ u " edition_number " ++ edition_number
         ++ u " is_extra_edition " ++ str_of_bool is_extra_edition
         ++ u " did not end with .pdf: '" ++ url ++ u "'."
         ++ u " Skipping...")])
  else
    let current_gazette_key := (gazette_date, edition_number, is_extra_edition) in
    (* .setdefault(current_gazette_key, {}) *)
    let by_text := default ∅ (dict_get current_gazettes_data_per_page current_gazette_key) in
    (* .setdefault(is_extra_edition_text, set()) *)
    let current_gazette_url_set := default ∅ (by_text !! is_extra_edition_text) in
    if bool_decide (url ∈ current_gazette_url_set)
    then
      (dict_set current_gazettes_data_per_page current_gazette_key
         (<[is_extra_edition_text := current_gazette_url_set]> by_text),
       [Log INFO
          (u "A previous entry for edition_number " ++ edition_number
           ++ u " for " ++ isoformat gazette_date
           ++ u ", same is_extra_edition value"
           ++ u " and same URL was registered. Skipping...")])
    else
      (dict_set current_gazettes_data_per_page current_gazette_key
         (<[is_extra_edition_text := current_gazette_url_set ∪ {[url]}]> by_text),
       []).

(** What a generator produced: the items it yielded, the records it
    logged, and the exception that ended it, if any. *)
Record Run : Type :=
  { yielded : list Gazette; logged : list LogRecord; raised : option exn }.

Definition log_then (logs : list LogRecord) (r : Run) : Run :=
  {| yielded := yielded r; logged := logs ++ logged r; raised := raised r |}.

Definition yield_then (g : Gazette) (r : Run) : Run :=
  {| yielded := g :: yielded r; logged := logged r; raised := raised r |}.

(** Lines 236 to 248, the loop over [sorted(by_is_extra_edition_text)]:
    the final [yield_gazette] and [current_gazette_urls], or the [KeyError]
    of a missing key or of [pop] on an empty set, with the records logged. *)
Fixpoint collect_urls (gazette_date : date) (edition_number : pystr)
    (by_is_extra_edition_text : ByText) (keys : list pystr)
    (yield_gazette : bool) (current_gazette_urls : list pystr)
    : list LogRecord * (exn + bool * list pystr) :=
  match keys with
  | [] => ([], inr (yield_gazette, current_gazette_urls))
  | key :: keys' =>
      match by_is_extra_edition_text !! key with
      | None => ([], inl KeyError)
      | Some url_set =>
          if bool_decide (1 < size url_set)%nat
          then
            let '(logs, r) :=
              collect_urls gazette_date edition_number by_is_extra_edition_text
                keys' false current_gazette_urls in
            (Log ERROR
               (u "More than one URL was found"
                ++ u " for edition_number " ++ edition_number
                ++ u " for " ++ isoformat gazette_date ++ u ", and"
                ++ u " same is_extra_edition value.") :: logs, r)
          else
            match elements url_set with
            | [] => ([], inl KeyError)
            | url :: _ =>
                collect_urls gazette_date edition_number by_is_extra_edition_text
                  keys' yield_gazette (current_gazette_urls ++ [url])
            end
      end
  end.

(** Lines 224 to 259. The sets [pop] empties belong to the page's dict,
    which is dropped when the generator ends. *)
Fixpoint _yield_gazettes (current_gazettes_data_per_page : GazettesDataPerPage) : Run :=
  match current_gazettes_data_per_page with
  | [] => {| yielded := []; logged := []; raised := None |}
  | ((gazette_date, edition_number, is_extra_edition), by_is_extra_edition_text) :: rest =>
      let '(logs, r) :=
        collect_urls gazette_date edition_number by_is_extra_edition_text
          (sorted (elements (dom by_is_extra_edition_text))) true [] in
      match r with
      | inl e => {| yielded := []; logged := logs; raised := Some e |}
      | inr (false, _) => log_then logs (_yield_gazettes rest)
      | inr (true, current_gazette_urls) =>
          log_then logs
            (yield_then
               {| item_date := gazette_date;
                  edition_number := Some edition_number;
                  is_extra_edition := Some is_extra_edition;
                  power := Some (u "executive");
                  source_text := None;
                  scraped_at := None;
                  territory_id := None;
                  file_urls := current_gazette_urls;
                  file_requests := [];
                  files := [] |}
               (_yield_gazettes rest))
      end
  end.

(** What one turn of the loop over the nodes does. *)
Inductive Entry : Type :=
| Unmatched (log : LogRecord)
| BadDate
| WrongYear (log : LogRecord)
| OutOfRange
| Registered (gazette_date : date) (edition_number : pystr)
    (is_extra_edition : bool) (is_extra_edition_text : pystr) (url : pystr).

(** Lines 129 to 169: from a node to the arguments of
    [_validate_uniqueness], or to the reason the node is left out. *)
Definition parse_entry (self : Spider) (response : Response) (year : Z)
    (gazette_node : Node) : Entry :=
  let node_text := strip (node_text gazette_node) in
  match search POST_2013_SPLIT_GAZETTE_TEXT_PATTERN node_text with
  | None =>
      Unmatched
        (Log INFO (u "Unable to extract gazette data from '" ++ node_text ++ u "'"))
  | Some match_ =>
      let edition_number := group match_ 1 in
      let is_extra_edition_text := strip (group match_ 2) in
      let year_value := int_of_digits (group match_ 3) in
      let month_value := int_of_digits (group match_ 4) in
      let day_value := int_of_digits (group match_ 5) in
      match new_date year_value month_value day_value with
      | None => BadDate
      | Some gazette_date =>
          if negb (datetime.year gazette_date =? year) then
            WrongYear
              (Log WARNING
                 (u "Extracted date " ++ isoformat gazette_date ++ u " is not from"
                  ++ u " queried year " ++ str_of_int year ++ u ". Skipping..."))
          else if negb (date_leb (start_date self) gazette_date
                        && date_leb gazette_date (end_date self)) then
            OutOfRange
          else
            let relative_url := strip (node_href gazette_node) in
            let url :=
              replace (urljoin response relative_url) (u "http://") (u "https://") in
            let is_extra_edition_based_on_its_text :=
              bool_of_match (search IS_EXTRA_EDITION_PATTERN is_extra_edition_text) in
            let is_extra_edition_based_on_its_url :=
              bool_of_match (search IS_EXTRA_EDITION_PATTERN url) in
            let is_extra_edition :=
              is_extra_edition_based_on_its_text || is_extra_edition_based_on_its_url in
            Registered gazette_date edition_number is_extra_edition
              is_extra_edition_text url
      end
  end.

(** Lines 128 to 178, the loop over the selected nodes: the dict after the
    last node, the records logged, and the [ValueError] of [date(...)] if a
    node's digits are no calendar date, which ends the callback. *)
Fixpoint scan_nodes (self : Spider) (response : Response) (year : Z)
    (nodes : list Node) (current_gazettes_data_per_page : GazettesDataPerPage)
    : GazettesDataPerPage * list LogRecord * option exn :=
  match nodes with
  | [] => (current_gazettes_data_per_page, [], None)
  | gazette_node :: nodes' =>
      match parse_entry self response year gazette_node with
      | Unmatched l | WrongYear l =>
          let '(d, logs, e) :=
            scan_nodes self response year nodes' current_gazettes_data_per_page in
          (d, l :: logs, e)
      | OutOfRange =>
          scan_nodes self response year nodes' current_gazettes_data_per_page
      | BadDate => (current_gazettes_data_per_page, [], Some ValueError)
      | Registered gazette_date edition_number is_extra_edition
          is_extra_edition_text url =>
          let '(d1, l1) :=
            _validate_uniqueness current_gazettes_data_per_page gazette_date
              edition_number is_extra_edition is_extra_edition_text url in
          let '(d, logs, e) := scan_nodes self response year nodes' d1 in
          (d, l1 ++ logs, e)
      end
  end.

(** Lines 118 to 182. *)
Definition parse_year_post_2013_split (self : Spider) (response : Response)
    (year : Z) : Run :=
  let current_gazettes_data_per_page : GazettesDataPerPage := [] in
  let nodes := omap (gazette_data_xpath year) (anchors response) in
  let '(d, logs, e) :=
    scan_nodes self response year nodes current_gazettes_data_per_page in
  match e with
  | Some ex => {| yielded := []; logged := logs; raised := Some ex |}
  | None => log_then logs (_yield_gazettes d)
  end.

(** [POST_2013_SPLIT_FORMAT.format(year=year)] *)
Definition POST_2013_SPLIT_FORMAT (year : Z) : pystr :=
  u "https://diariooficialjp.com.br/anop.php?ano=" ++ str_of_int year.

(** [rrule(freq=YEARLY, dtstart=date(y, 1, 1), until=until)], by the years
    of its occurrences: the first of January of the year [y] and of the
    years after it, as long as that day is not after [until]; [n] bounds
    the number of years left up to [MAXYEAR]. *)
Fixpoint yearly (n : nat) (y : Z) (until : date) : list Z :=
  match n with
  | O => []
  | S n' =>
      if date_leb (Date y 1 1) until then y :: yearly n' (y + 1) until else []
  end.

(** Lines 102 to 116: the URL of each request and the [year] of its
    [cb_kwargs]. *)
Definition start_requests (self : Spider) : list (pystr * Z) :=
  let initial_year := datetime.year (start_date self) in
  (fun year => (POST_2013_SPLIT_FORMAT year, year))
    <$> yearly (Z.to_nat (9999 - initial_year + 1)) initial_year (end_date self).

End ro_ji_parana.

(* ===================================================================== *)
(** ** [hashlib.sha1], [str.encode] and [pathlib.Path] *)
(* ===================================================================== *)

Module hashlib.

Definition w32 (x : Z) : Z := x mod 2 ^ 32.

Definition rotl (n x : Z) : Z :=
  w32 (Z.lor (Z.shiftl x n) (Z.shiftr x (32 - n))).

(** The message, the byte 0x80, zeros up to 56 modulo 64, and the length
    in bits as 8 big-endian bytes. *)
Definition pad (msg : list Z) : list Z :=
  let len := Z.of_nat (length msg) in
  let bits := 8 * len in
  msg ++ [128] ++ replicate (Z.to_nat ((55 - len) mod 64)) 0
  ++ ((fun i => Z.shiftr bits (8 * i) mod 256) <$> [7; 6; 5; 4; 3; 2; 1; 0]).

Fixpoint be_words (bs : list Z) : list Z :=
  match bs with
  | a :: b :: c :: d :: rest => (((a * 256 + b) * 256 + c) * 256 + d) :: be_words rest
  | _ => []
  end.

(** The message schedule, most recent word first. *)
Fixpoint extend (n : nat) (ws : list Z) : list Z :=
  match n with
  | O => ws
  | S n' =>
      let w i := nth i ws 0 in
      extend n' (rotl 1 (Z.lxor (Z.lxor (w 2%nat) (w 7%nat))
                                (Z.lxor (w 13%nat) (w 15%nat))) :: ws)
  end.

Definition state : Type := Z * Z * Z * Z * Z.

Definition round (s : state) (iw : nat * Z) : state :=
  let '(a, b, c, d, e) := s in
  let '(i, w) := iw in
  let '(f, k) :=
    if (i <? 20)%nat then
      (Z.lor (Z.land b c) (Z.land (Z.lxor b 4294967295) d), 1518500249)
    else if (i <? 40)%nat then (Z.lxor (Z.lxor b c) d, 1859775393)
    else if (i <? 60)%nat then
      (Z.lor (Z.lor (Z.land b c) (Z.land b d)) (Z.land c d), 2400959708)
    else (Z.lxor (Z.lxor b c) d, 3395469782) in
  (w32 (rotl 5 a + f + e + k + w), a, rotl 30 b, c, d).

Definition compress (h : state) (block : list Z) : state :=
  let ws := reverse (extend 64 (reverse (be_words block))) in
  let '(a, b, c, d, e) := fold_left round (zip (seq 0 80) ws) h in
  let '(h0, h1, h2, h3, h4) := h in
  (w32 (h0 + a), w32 (h1 + b), w32 (h2 + c), w32 (h3 + d), w32 (h4 + e)).

Fixpoint blocks (n : nat) (bs : list Z) (h : state) : state :=
  match n with
  | O => h
  | S n' => blocks n' (drop 64 bs) (compress h (take 64 bs))
  end.

Definition hex_digit (x : Z) : N :=
  nth (Z.to_nat x) (u "0123456789abcdef") 48%N.

Definition hex8 (w : Z) : pystr :=
  (fun i => hex_digit (Z.land (Z.shiftr w (4 * i)) 15)) <$> [7; 6; 5; 4; 3; 2; 1; 0].

(** [hashlib.sha1(data).hexdigest()] *)
Definition sha1_hexdigest (data : bytes) : pystr :=
  let bs := pad (Z.of_N <$> data) in
  let '(h0, h1, h2, h3, h4) :=
    blocks (length bs / 64)%nat bs
      (1732584193, 4023233417, 2562383102, 271733878, 3285377520) in
  hex8 h0 ++ hex8 h1 ++ hex8 h2 ++ hex8 h3 ++ hex8 h4.

End hashlib.

(** The UTF-8 encoding of one code point, and [s.encode()]. *)
Definition utf8_char (c : N) : bytes :=
  (if c <? 128 then [c]
   else if c <? 2048 then [192 + c / 64; 128 + c mod 64]
   else if c <? 65536 then [224 + c / 4096; 128 + (c / 64) mod 64; 128 + c mod 64]
   else [240 + c / 262144; 128 + (c / 4096) mod 64; 128 + (c / 64) mod 64;
         128 + c mod 64])%N.

Definition encode (s : pystr) : bytes := s ≫= utf8_char.

Module pathlib.

(** A pure POSIX path: its root (empty, one slash or two slashes) and the
    components below the root. *)
Record PurePath : Type := { root : pystr; parts : list pystr }.

Fixpoint lstrip_sep (s : pystr) : pystr :=
  match s with
  | c :: s' => if (c =? 47)%N then lstrip_sep s' else s
  | [] => []
  end.

(** The root of a segment and what follows it: exactly two leading
    slashes are kept, any other number is one. *)
Definition splitroot (part : pystr) : pystr * pystr :=
  match part with
  | c :: _ =>
      if (c =? 47)%N then
        let stripped_part := lstrip_sep part in
        if (length part - length stripped_part =? 2)%nat
        then (u "//", stripped_part) else (u "/", stripped_part)
      else ([], part)
  | [] => ([], part)
  end.

Definition is_component (x : pystr) : bool :=
  negb (bool_decide (x = [])) && negb (bool_decide (x = u ".")).

(** One more segment: an empty segment is skipped, empty and ["."]
    components are dropped, and a rooted segment discards what precedes
    it. *)
Definition add_segment (p : PurePath) (segment : pystr) : PurePath :=
  match segment with
  | [] => p
  | _ =>
      let '(r, rel) := splitroot segment in
      let comps := List.filter is_component (split 47 rel) in
      match r with
      | [] => {| root := root p; parts := parts p ++ comps |}
      | _ => {| root := r; parts := comps |}
      end
  end.

(** [Path(a, b, ...)] *)
Definition Path (segments : list pystr) : PurePath :=
  fold_left add_segment segments {| root := []; parts := [] |}.

(** [str(p)] *)
Definition str (p : PurePath) : pystr :=
  match root p, parts p with
  | [], [] => u "."
  | r, ps => r ++ join (u "/") ps
  end.

(** [p.name] *)
Definition name (p : PurePath) : pystr := List.last (parts p) [].

(** [p.stem]: the name up to its last dot, when that dot is neither the
    first nor the last character. *)
Definition stem (p : PurePath) : pystr :=
  let name := name p in
  match rfind 46 name with
  | Some i => if (0 <? i)%nat && (i <? length name - 1)%nat then take i name else name
  | None => name
  end.

End pathlib.

(* ===================================================================== *)
(** ** [gazette/pipelines.py] *)
(* ===================================================================== *)

Module pipelines.

(** [SP_RIBEIRAO_PRETO_PDF_FILENAME], a bytes pattern: the word
    [filename=], a double quote, one or more bytes other than a double
    quote (group 1), a double quote. *)
Definition SP_RIBEIRAO_PRETO_PDF_FILENAME : regex :=
  seq_of
    [ str_lit (u "filename="); Chr (lit 34);
      Group 1 (Rep (fun c => negb (c =? 34)%N) 1 None);
      Chr (lit 34) ].

(** The spider attributes the pipelines read. [start_date] is [None] when
    [hasattr(spider, "start_date")] is false. *)
Record Spider : Type :=
  { start_date : option date; end_date : option date }.

Module GazetteDateFilteringPipeline.

(** Lines 20 to 24: the item, or the [DropItem] raised. *)
Definition process_item (item : Gazette) (spider : Spider) : exn + Gazette :=
  match start_date spider with
  | Some spider_start_date =>
      if date_ltb (item_date item) spider_start_date
      then inl (DropItem (u "Droping all items before " ++ isoformat spider_start_date))
      else inr item
  | None => inr item
  end.

End GazetteDateFilteringPipeline.

Module DefaultValuesPipeline.

(** Lines 35 to 39. [TERRITORY_ID] is the spider's attribute, [None] when
    [getattr(spider, "TERRITORY_ID")] raises [AttributeError]; [utcnow] is
    what [dt.datetime.utcnow()] returns. A default is computed only for a
    field that is not in the item, [territory_id] first. *)
Definition process_item (item : Gazette) (TERRITORY_ID : option pystr) (utcnow : Z)
    : exn + Gazette :=
  let with_territory_id :=
    match territory_id item with
    | Some _ => inr item
    | None =>
        match TERRITORY_ID with
        | None => inl AttributeError
        | Some territory =>
            inr {| item_date := item_date item;
                   edition_number := edition_number item;
                   is_extra_edition := is_extra_edition item;
                   power := power item;
                   source_text := source_text item;
                   scraped_at := scraped_at item;
                   territory_id := Some territory;
                   file_urls := file_urls item;
                   file_requests := file_requests item;
                   files := files item |}
        end
    end in
  match with_territory_id with
  | inl e => inl e
  | inr item =>
      match scraped_at item with
      | Some _ => inr item
      | None =>
          inr {| item_date := item_date item;
                 edition_number := edition_number item;
                 is_extra_edition := is_extra_edition item;
                 power := power item;
                 source_text := source_text item;
                 scraped_at := Some utcnow;
                 territory_id := territory_id item;
                 file_urls := file_urls item;
                 file_requests := file_requests item;
                 files := files item |}
      end
  end.

End DefaultValuesPipeline.

Module SQLDatabasePipeline.

(** An instance of the mapped class [gazette.database.models.Gazette],
    built from the [gazette_item] dict. *)
Record Row : Type :=
  { row_source_text : option pystr;
    row_date : date;
    row_edition_number : option pystr;
    row_is_extra_edition : option bool;
    row_power : option pystr;
    row_scraped_at : option Z;
    row_territory_id : option pystr;
    row_file_path : pystr;
    row_file_url : pystr;
    row_file_checksum : pystr }.

(** [sqlalchemy.exc.SQLAlchemyError], with the text of [exc.args]. *)
Record SQLAlchemyError : Type := { args : pystr }.

(** A session: the rows the database holds, and the rows added since the
    last commit or rollback. *)
Record Session : Type := { stored : list Row; pending : list Row }.

(** [self.database_url] *)
Record Pipeline : Type := { database_url : option pystr }.

Section Database.

(** The verdict of the database on the insertion of a row next to the rows
    it holds: the constraints of the table are declared outside this
    module. *)
Variable insert_error : list Row -> Row -> option SQLAlchemyError.

(** [session.add(gazette)] *)
Definition add (session : Session) (gazette : Row) : Session :=
  {| stored := stored session; pending := pending session ++ [gazette] |}.

Fixpoint flush (rows pending : list Row) : SQLAlchemyError + list Row :=
  match pending with
  | [] => inr rows
  | r :: pending' =>
      match insert_error rows r with
      | Some exc => inl exc
      | None => flush (rows ++ [r]) pending'
      end
  end.

(** [session.commit()]: the pending rows are inserted in one transaction;
    when an insertion fails nothing is stored and the error is raised. *)
Definition commit (session : Session) : Session * option SQLAlchemyError :=
  match flush (stored session) (pending session) with
  | inl exc => (session, Some exc)
  | inr rows => ({| stored := rows; pending := [] |}, None)
  end.

(** [session.rollback()] *)
Definition rollback (session : Session) : Session :=
  {| stored := stored session; pending := [] |}.

(** The mapped object built from the [gazette_item] dict of lines 71 and
    80 to 82. *)
Definition gazette_row (item : Gazette) (file_info : FileInfo) : Row :=
  {| row_source_text := source_text item;
     row_date := item_date item;
     row_edition_number := edition_number item;
     row_is_extra_edition := is_extra_edition item;
     row_power := power item;
     row_scraped_at := scraped_at item;
     row_territory_id := territory_id item;
     row_file_path := file_path_ file_info;
     row_file_url := file_url_ file_info;
     row_file_checksum := file_checksum_ file_info |}.

Definition commit_warning (gazette : Row) (exc : SQLAlchemyError) : LogRecord :=
  Log WARNING
    (u "Something wrong has happened when adding the gazette in the database. "
     ++ u "Date: " ++ isoformat (row_date gazette) ++ u ". "
     ++ u "File Checksum: " ++ row_file_checksum gazette ++ u ". "
     ++ u "Details: " ++ args exc).

(** Lines 73 to 95, the loop over [item.get("files", [])]. *)
Fixpoint persist_files (item : Gazette) (file_infos : list FileInfo)
    (session : Session) : Session * list LogRecord :=
  match file_infos with
  | [] => (session, [])
  | file_info :: rest =>
      let already_downloaded := bool_decide (file_status file_info = u "uptodate") in
      if already_downloaded then persist_files item rest session
      else
        let gazette := gazette_row item file_info in
        let session := add session gazette in
        match commit session with
        | (session, None) => persist_files item rest session
        | (session, Some exc) =>
            let session := rollback session in
            let '(session, logs) := persist_files item rest session in
            (session, commit_warning gazette exc :: logs)
        end
  end.

(** Lines 56 to 99. [db] is the content of the database the pipeline's
    engine is bound to; [self.Session()] opens a session on it and
    [session.close()] drops what is still pending. *)
Definition process_item (self : Pipeline) (item : Gazette) (db : list Row)
    : Gazette * list Row * list LogRecord :=
  match database_url self with
  | None => (item, db, [])
  | Some _ =>
      let session := {| stored := db; pending := [] |} in
      let '(session, logs) := persist_files item (files item) session in
      (item, stored session, logs)
  end.

End Database.

End SQLDatabasePipeline.

Module QueridoDiarioFilesPipeline.

(** [scrapy.http.Response]: its headers, by name. *)
Record Response : Type := { headers : gmap (list N) (list N) }.

Section FilesPipeline.

(** The extension Scrapy's [FilesPipeline.file_path] gives the file of a
    URL; it is looked up in the [mimetypes] tables of the host. *)
Variable media_ext : pystr -> pystr.

(** [super().file_path(request, ...)]: Scrapy names the file by the SHA-1
    of the request URL, under [full/]. *)
Definition FilesPipeline_file_path (request : Request) : pystr :=
  u "full/" ++ hashlib.sha1_hexdigest (encode (url request))
  ++ media_ext (url request).

(** Lines 185 to 203. *)
Definition file_path_for_sp_ribeirao_preto (request : Request)
    (response : Response) (item : Gazette) : exn + pystr :=
  match headers response !! u "Content-Disposition" with
  | None => inl KeyError
  | Some content_disposition =>
      match search SP_RIBEIRAO_PRETO_PDF_FILENAME content_disposition with
      | None => inl AttributeError
      | Some match_ =>
          let pdf_filename := group match_ 1 in
          let datestr := isoformat (item_date item) in
          let filename := hashlib.sha1_hexdigest pdf_filename in
          match territory_id item with
          | None => inl KeyError
          | Some territory_id =>
              inr (pathlib.str (pathlib.Path [territory_id; datestr; filename]))
          end
      end
  end.

(** Lines 175 to 183, the path computed from the request URL. *)
Definition url_based_file_path (request : Request) (item : Gazette)
    (datestr : pystr) : exn + pystr :=
  let filepath := FilesPipeline_file_path request in
  match territory_id item with
  | None => inl KeyError
  | Some territory_id =>
      let filename :=
        if bool_decide (territory_id = u "3543402")
        then pathlib.stem (pathlib.Path [filepath])
        else pathlib.name (pathlib.Path [filepath]) in
      inr (pathlib.str (pathlib.Path [territory_id; datestr; filename]))
  end.

(** Lines 145 to 183: the path or the exception raised, with the records
    logged. *)
Definition file_path (request : Request) (response : option Response)
    (item : Gazette) : list LogRecord * (exn + pystr) :=
  let datestr := isoformat (item_date item) in
  match response, territory_id item with
  | Some _, None => ([], inl KeyError)
  | Some response, Some territory_id =>
      if bool_decide (territory_id = u "3543402") then
        match headers response !! u "Content-Disposition" with
        | Some ((_ :: _) as content_disposition) =>
            if bool_of_match (search SP_RIBEIRAO_PRETO_PDF_FILENAME content_disposition)
            then ([], file_path_for_sp_ribeirao_preto request response item)
            else
              ([Log INFO
                  (u "Unable to extract the actual PDF file name for " ++ datestr
                   ++ u " entry of territory_id 3543402. Falling back to"
                   ++ u " request.url-based filename calculation")],
               url_based_file_path request item datestr)
        | _ =>
            ([Log INFO
                (u "Unable to extract Content-Disposition header for " ++ datestr
                 ++ u " entry of territory_id 3543402. Falling back to"
                 ++ u " request.url-based filename calculation")],
             url_based_file_path request item datestr)
        end
      else ([], url_based_file_path request item datestr)
  | None, _ => ([], url_based_file_path request item datestr)
  end.

End FilesPipeline.

End QueridoDiarioFilesPipeline.

End pipelines.

(* ===================================================================== *)
(** ** Vocabulary of the properties *)
(* ===================================================================== *)

Import ro_ji_parana.

(** The arguments of one call of [_validate_uniqueness]: a
    (GroupKey, PartKey, URL) triple. *)
Record Registration : Type :=
  { reg_date : date; reg_edition_number : pystr; reg_is_extra_edition : bool;
    reg_text : pystr; reg_url : pystr }.

Definition reg_key (c : Registration) : date * list N * bool :=
  (reg_date c, reg_edition_number c, reg_is_extra_edition c).

Definition register (d : list ((date * list N * bool) * gmap (list N) (gset (list N))))
    (c : Registration) : list ((date * list N * bool) * gmap (list N) (gset (list N)))
                         * list LogRecord :=
  _validate_uniqueness d (reg_date c) (reg_edition_number c)
    (reg_is_extra_edition c) (reg_text c) (reg_url c).

(** The page's dict after a sequence of calls. *)
Definition register_all (d : list ((date * list N * bool) * gmap (list N) (gset (list N))))
    (cs : list Registration) : list ((date * list N * bool) * gmap (list N) (gset (list N))) :=
  fold_left (fun d c => (register d c).1) cs d.

(** The value [_validate_uniqueness] leaves under the call's GroupKey. *)
Definition registered_value
    (d : list ((date * list N * bool) * gmap (list N) (gset (list N))))
    (c : Registration) : gmap (list N) (gset (list N)) :=
  let by_text := default ∅ (dict_get d (reg_key c)) in
  <[reg_text c := default ∅ (by_text !! reg_text c) ∪ {[reg_url c]}]> by_text.

(** The GroupKey of an emitted record. *)
Definition group_key (g : Gazette) : date * list N * bool :=
  (item_date g, default [] (edition_number g), default false (is_extra_edition g)).

(** Some PartKey of the group has more than one URL. *)
Definition in_conflict (by_text : gmap (list N) (gset (list N))) : bool :=
  existsb (fun '(_, url_set) => bool_decide (1 < size url_set)%nat)
    (map_to_list by_text).

(** The number of records of a GroupKey among the emitted ones. *)
Definition emitted_for (key : date * list N * bool) (gs : list Gazette) : nat :=
  length (List.filter (fun g => bool_decide (group_key g = key)) gs).

(** The known-bad entry the aggregator leaves out. *)
Definition left_out (c : Registration) : bool :=
  bool_decide (reg_date c = Date 2014 8 28) && negb (endswith (reg_url c) (u ".pdf")).

(** A single, relative path component. *)
Definition single_component (x : pystr) : bool :=
  pathlib.is_component x && negb (bool_decide (47%N ∈ x)).

(** The record [_yield_gazettes] builds for one group from its URLs. *)
Definition gazette_of (key : date * list N * bool) (urls : list pystr) : Gazette :=
  {| item_date := key.1.1;
     edition_number := Some key.1.2;
     is_extra_edition := Some key.2;
     power := Some (u "executive");
     source_text := None;
     scraped_at := None;
     territory_id := None;
     file_urls := urls;
     file_requests := [];
     files := [] |}.

(** The URL [pop] takes from a set. *)
Definition popped (url_set : gset (list N)) : option pystr := head (elements url_set).

(** The record of one entry of the page's dict, when it has no conflict. *)
Definition record_of (key : date * list N * bool)
    (by_text : gmap (list N) (gset (list N))) : option Gazette :=
  if in_conflict by_text then None
  else Some (gazette_of key
               (omap (fun t => by_text !! t ≫= popped)
                  (sorted (elements (dom by_text))))).

(** The PartKey [t] of the group has more than one URL. *)
Definition conflict_at (by_text : gmap (list N) (gset (list N))) (t : pystr) : bool :=
  bool_decide (1 < size (default ∅ (by_text !! t)))%nat.

(** The date embedded in a node's text: what lines 131 to 142 extract
    from it, when the pattern matches and the digits are a calendar date. *)
Definition embedded_date (gazette_node : Node) : option date :=
  match search POST_2013_SPLIT_GAZETTE_TEXT_PATTERN (strip (node_text gazette_node)) with
  | None => None
  | Some match_ =>
      new_date (int_of_digits (group match_ 3)) (int_of_digits (group match_ 4))
        (int_of_digits (group match_ 5))
  end.

(** The year embedded in a node's text: the four digits of group 3, which
    line 139 reads, when the pattern matches. *)
Definition embedded_year (gazette_node : Node) : option Z :=
  (fun match_ => int_of_digits (group match_ 3))
    <$> search POST_2013_SPLIT_GAZETTE_TEXT_PATTERN (strip (node_text gazette_node)).

(** Every GroupKey of the dict has its date in the given year. *)
Definition keys_in_year (year : Z)
    (d : list ((date * list N * bool) * gmap (list N) (gset (list N)))) : Prop :=
  ∀ k m, (k, m) ∈ d → datetime.year k.1.1 = year.

(** The file entries the sink does not skip. *)
Definition not_yet_stored (file_infos : list FileInfo) : list FileInfo :=
  List.filter (fun f => negb (bool_decide (file_status f = u "uptodate"))) file_infos.

(** Inserting rows one at a time, each in its own transaction: a row the
    database refuses is left out with a warning, the others are stored in
    order. *)
Fixpoint insert_each
    (insert_error : list pipelines.SQLDatabasePipeline.Row
                    → pipelines.SQLDatabasePipeline.Row
                    → option pipelines.SQLDatabasePipeline.SQLAlchemyError)
    (rows : list pipelines.SQLDatabasePipeline.Row)
    (db : list pipelines.SQLDatabasePipeline.Row)
    : list pipelines.SQLDatabasePipeline.Row * list LogRecord :=
  match rows with
  | [] => (db, [])
  | r :: rows' =>
      match insert_error db r with
      | None => insert_each insert_error rows' (db ++ [r])
      | Some exc =>
          let '(db', logs) := insert_each insert_error rows' db in
          (db', pipelines.SQLDatabasePipeline.commit_warning r exc :: logs)
      end
  end.

(** The item with another list of file entries. *)
Definition with_files (item : Gazette) (file_infos : list FileInfo) : Gazette :=
  {| item_date := item_date item;
     edition_number := edition_number item;
     is_extra_edition := is_extra_edition item;
     power := power item;
     source_text := source_text item;
     scraped_at := scraped_at item;
     territory_id := territory_id item;
     file_urls := file_urls item;
     file_requests := file_requests item;
     files := file_infos |}.

(** The file name embedded in the response's Content-Disposition header,
    when the response has the header and the pattern matches it. *)
Definition sniffed_filename
    (response : option pipelines.QueridoDiarioFilesPipeline.Response) : option bytes :=
  response ≫= fun r =>
  pipelines.QueridoDiarioFilesPipeline.headers r !! u "Content-Disposition" ≫= fun cd =>
  search pipelines.SP_RIBEIRAO_PRETO_PDF_FILENAME cd ≫= fun m =>
  Some (group m 1).

(** A lower-case hexadecimal digit; a character of an ISO date. *)
Definition is_hex_char (c : N) : bool :=
  (is_digit c || ((97 <=? c) && (c <=? 102)))%N.

Definition is_date_char (c : N) : bool := (is_digit c || (c =? 45))%N.

(** The URLs the dict holds for a GroupKey and a PartKey. *)
Definition urls_at (d : list ((date * list N * bool) * gmap (list N) (gset (list N))))
    (key : date * list N * bool) (text : pystr) : gset (list N) :=
  default ∅ (dict_get d key ≫= fun by_text => by_text !! text).

(** The calls of [_validate_uniqueness] the loop over the nodes makes, up
    to the node, if any, whose digits are no calendar date. *)
Fixpoint registrations (self : Spider) (response : Response) (year : Z)
    (nodes : list Node) : list Registration :=
  match nodes with
  | [] => []
  | gazette_node :: nodes' =>
      match parse_entry self response year gazette_node with
      | BadDate => []
      | Registered gazette_date edition_number is_extra_edition
          is_extra_edition_text url =>
          {| reg_date := gazette_date; reg_edition_number := edition_number;
             reg_is_extra_edition := is_extra_edition;
             reg_text := is_extra_edition_text; reg_url := url |}
          :: registrations self response year nodes'
      | _ => registrations self response year nodes'
      end
  end.

(** Two dicts with the same keys and values, whatever their order. *)
Definition same_content (d d' : list ((date * list N * bool) * gmap (list N) (gset (list N)))) : Prop :=
  ∀ k, dict_get d k = dict_get d' k.

(** Distinct keys, and no PartKey with an empty set. *)
Definition well_formed (d : list ((date * list N * bool) * gmap (list N) (gset (list N)))) : Prop :=
  NoDup d.*1 ∧
  ∀ k by_text, (k, by_text) ∈ d → ∀ t s, by_text !! t = Some s → s ≠ ∅.

(** What it is for a pattern to match: [derives r s caps s' caps'] when
    [r] matches a prefix of [s], leaves [s'] and turns the captures [caps]
    into [caps']. *)
Fixpoint derives (r : regex) (s : pystr) (caps : gmap nat (list N))
    (s' : pystr) (caps' : gmap nat (list N)) : Prop :=
  match r with
  | Eps => s' = s ∧ caps' = caps
  | Chr p => (∃ c, s = c :: s' ∧ p c = true) ∧ caps' = caps
  | Rep p lo hi =>
      (∃ w, s = w ++ s' ∧ Forall (fun c => p c = true) w ∧ (lo ≤ length w)%nat
            ∧ from_option (fun h => (length w ≤ h)%nat) True hi)
      ∧ caps' = caps
  | Seq r1 r2 =>
      ∃ s1 caps1, derives r1 s caps s1 caps1 ∧ derives r2 s1 caps1 s' caps'
  | Alt r1 r2 => derives r1 s caps s' caps' ∨ derives r2 s caps s' caps'
  | Group i r1 =>
      ∃ caps1, derives r1 s caps s' caps1
               ∧ caps' = <[i := take (length s - length s') s]> caps1
  end.

(** The keys of the page's dict in the order of their first registration:
    the GroupKeys of the calls that are not left out, each at its first
    occurrence. *)
Definition first_occurrences (keys : list (date * list N * bool))
    : list (date * list N * bool) :=
  reverse (remove_dups (reverse keys)).

Definition registered_keys (cs : list Registration) : list (date * list N * bool) :=
  first_occurrences (reg_key <$> List.filter (fun c => negb (left_out c)) cs).

(** The number of PartKeys of the dict with more than one URL. *)
Definition conflicting_parts
    (d : list ((date * list N * bool) * gmap (list N) (gset (list N)))) : nat :=
  sum_list
    ((fun '(_, by_text) =>
        length (List.filter (fun '(_, url_set) => bool_decide (1 < size url_set)%nat)
                  (map_to_list by_text)))
       <$> d).

(** A date whose fields are those of a calendar date. *)
Definition valid_date (d : date) : Prop :=
  new_date (datetime.year d) (datetime.month d) (datetime.day d) = Some d.

(** A string is the word but for the case of its letters, as
    [re.IGNORECASE] has it. *)
Definition same_letters (word w : list N) : Prop :=
  Forall2 (fun c ch => lit_i c ch = true) word w.

(** The spellings [sum?ple?mento|extraordinária] stands for. *)
Definition extra_edition_spellings : list pystr :=
  [ u "suplemento"; u "sumplemento"; u "suplmento"; u "sumplmento";
    u "extraordin" ++ [225%N] ++ u "ria" ].

(** The bytes [filename="f"]. *)
Definition filename_component (f : bytes) : bytes :=
  u "filename=" ++ [34%N] ++ f ++ [34%N].

(* ===================================================================== *)
(** ** Sample data *)
(* ===================================================================== *)

Module Sample.

(** The word [Edição]. *)
Definition edicao : pystr := u "Edi" ++ [231; 227]%N ++ u "o".

Definition url_a : pystr := u "https://www.domjp.com.br/pdf/2010-04-15-part.1.pdf".
Definition url_b : pystr := u "https://www.domjp.com.br/pdf/2010-04-15-part.2.pdf".
Definition url_c : pystr := u "https://www.domjp.com.br/pdf/2010-04-15-part.3.pdf".
Definition url_d : pystr := u "https://www.domjp.com.br/pdf/2010-04-16.pdf".

Definition key_813 : date * list N * bool := (Date 2010 4 15, u "813", false).
Definition key_814 : date * list N * bool := (Date 2010 4 16, u "814", false).

Definition triple (key : date * list N * bool) (text url : pystr) : Registration :=
  {| reg_date := key.1.1; reg_edition_number := key.1.2;
     reg_is_extra_edition := key.2; reg_text := text; reg_url := url |}.

(** Edition 813 has two URLs for its first part, edition 814 has none. *)
Definition conflicting_page : list Registration :=
  [ triple key_813 (u "Parte 1") url_a; triple key_813 (u "Parte 1") url_b;
    triple key_813 (u "Parte 2") url_c; triple key_814 [] url_d ].

(** The second part is listed before the first. *)
Definition parts_out_of_order : list Registration :=
  [ triple key_813 (u "Parte 2") url_b; triple key_813 (u "Parte 1") url_a ].

Definition parts_in_order : list Registration :=
  [ triple key_813 (u "Parte 1") url_a; triple key_813 (u "Parte 2") url_b ].

(** The two entries of 2014-08-28 with the same text: the first URL is
    the invalid one. *)
Definition key_1892 : date * list N * bool := (Date 2014 8 28, u "1892", false).
Definition url_1892 : pystr := u "https://www.domjp.com.br/pdf/2014-08-28.pdf".
Definition known_bad_entry : list Registration :=
  [ triple key_1892 [] (u "https://www.domjp.com.br/pdf/2014-08-28");
    triple key_1892 [] url_1892 ].

Definition spider : Spider :=
  {| start_date := Date 2013 6 3; end_date := Date 2030 12 31 |}.

Definition response_of (entries : list (pystr * pystr)) : Response :=
  {| anchors :=
       (fun '(text, href) => {| a_text := Some text; a_href := Some href |}) <$> entries;
     urljoin := fun relative_url => u "http://diariooficialjp.com.br/" ++ relative_url |}.

(** An entry of 2018 whose text has the typo "sumplemento". *)
Definition node_2018 : Node :=
  {| node_text := edicao ++ u " n" ++ [186%N] ++ u " 2000 - SUMPLEMENTO - 2018-05-17";
     node_href := u " pdf/2018-05-17.pdf " |}.

(** An entry of 2012 on the page of 2013. *)
Definition node_2012 : Node :=
  {| node_text := edicao ++ u " 1499 - 2012-12-28 e 2013-01-02";
     node_href := u "pdf/2012-12-28.pdf" |}.

(** An entry of 2012 on the page of 2013 whose digits are no calendar
    date. *)
Definition node_2012_02_30 : Node :=
  {| node_text := edicao ++ u " 1499 - 2012-02-30 e 2013-01-02";
     node_href := u "pdf/2012-02-30.pdf" |}.

Definition node_2013 : Node :=
  {| node_text := edicao ++ u " 1586 - 2013-06-03"; node_href := u "pdf/2013-06-03.pdf" |}.

Definition page_2013 : Response :=
  response_of
    [ (node_text node_2012, node_href node_2012);
      (edicao ++ u " 1586 - 2013-06-03", u "pdf/2013-06-03.pdf") ].

(** A page of 2013 whose second entry is dated the 30th of February. *)
Definition page_with_bad_date : Response :=
  response_of
    [ (edicao ++ u " 1586 - 2013-06-03", u "pdf/2013-06-03.pdf");
      (edicao ++ u " 1600 - 2013-02-30", u "pdf/2013-02-30.pdf") ].

Definition item_of (territory : pystr) (file_infos : list FileInfo) : Gazette :=
  {| item_date := Date 2020 1 2;
     edition_number := Some (u "3000");
     is_extra_edition := Some false;
     power := Some (u "executive");
     source_text := None;
     scraped_at := None;
     territory_id := Some territory;
     file_urls := [];
     file_requests := [];
     files := file_infos |}.

Definition file_of (status checksum : pystr) : FileInfo :=
  {| file_status := status;
     file_path_ := u "1100122/2020-01-02/" ++ checksum ++ u ".pdf";
     file_url_ := u "https://diariooficialjp.com.br/pdf/2020-01-02.pdf";
     file_checksum_ := checksum |}.

(** A table that refuses a second row with the same checksum. *)
Definition unique_checksum (rows : list pipelines.SQLDatabasePipeline.Row)
    (r : pipelines.SQLDatabasePipeline.Row)
    : option pipelines.SQLDatabasePipeline.SQLAlchemyError :=
  if existsb
       (fun r' =>
          bool_decide (pipelines.SQLDatabasePipeline.row_file_checksum r'
                       = pipelines.SQLDatabasePipeline.row_file_checksum r))
       rows
  then Some {| pipelines.SQLDatabasePipeline.args := u "('UNIQUE constraint failed',)" |}
  else None.

Definition sink : pipelines.SQLDatabasePipeline.Pipeline :=
  {| pipelines.SQLDatabasePipeline.database_url := Some (u "sqlite:///querido-diario.db") |}.

(** A response with the header [attachment; filename="relatorio.pdf"]. *)
Definition sniffed_response : pipelines.QueridoDiarioFilesPipeline.Response :=
  {| pipelines.QueridoDiarioFilesPipeline.headers :=
       {[ u "Content-Disposition" :=
            u "attachment; filename=" ++ [34%N] ++ u "relatorio.pdf" ++ [34%N] ]} |}.

Definition request_1 : Request :=
  {| method := u "POST"; url := u "https://www.ribeiraopreto.sp.gov.br/dom/1.xhtml" |}.
Definition request_2 : Request :=
  {| method := u "POST"; url := u "https://www.ribeiraopreto.sp.gov.br/dom/2.xhtml" |}.

Definition xhtml (request_url : pystr) : pystr := u ".xhtml".

End Sample.

(* ===================================================================== *)
(** ** The page's dict *)
(* ===================================================================== *)

Section Dict.

Implicit Types (d : list ((date * list N * bool) * gmap (list N) (gset (list N))))
  (k : date * list N * bool) (v : gmap (list N) (gset (list N))).

Lemma dict_get_set d k v k' :
  dict_get (dict_set d k v) k' = if decide (k = k') then Some v else dict_get d k'.
Proof.
  induction d as [|[k0 v0] d IH]; simpl.
  - repeat case_decide; congruence.
  - destruct (decide (k0 = k)) as [->|Hne]; simpl.
    + repeat case_decide; congruence.
    + rewrite IH. repeat case_decide; congruence.
Qed.

Lemma dict_set_set d k v v' :
  dict_set (dict_set d k v) k v' = dict_set d k v'.
Proof.
  induction d as [|[k0 v0] d IH]; simpl.
  - by rewrite decide_True.
  - destruct (decide (k0 = k)) as [->|Hne]; simpl.
    + by rewrite decide_True.
    + rewrite decide_False by done. by rewrite IH.
Qed.

Lemma dict_get_Some_elem d k v : dict_get d k = Some v → (k, v) ∈ d.
Proof.
  induction d as [|[k0 v0] d IH]; simpl; [done|].
  case_decide; intros Hg.
  - simplify_eq. left.
  - right. auto.
Qed.

Lemma dict_get_None d k : dict_get d k = None ↔ k ∉ d.*1.
Proof.
  induction d as [|[k0 v0] d IH]; simpl.
  - split; [intros _; apply not_elem_of_nil | done].
  - rewrite not_elem_of_cons. destruct (decide (k0 = k)) as [->|Hne].
    + split; [done | intros [? _]; done].
    + rewrite IH. split; [intros ?; split; [congruence | done] | intros [_ ?]; done].
Qed.

Lemma dict_get_present d k :
  k ∈ d.*1 → dict_get d k = Some (default ∅ (dict_get d k)).
Proof.
  intros Hin. destruct (dict_get d k) eqn:Hg; [done|].
  by apply dict_get_None in Hg.
Qed.

Lemma elem_dict_get d k v : NoDup d.*1 → (k, v) ∈ d → dict_get d k = Some v.
Proof.
  induction d as [|[k0 v0] d IH]; simpl; intros Hnd Hin.
  - by apply elem_of_nil in Hin.
  - apply NoDup_cons in Hnd as [Hk0 Hnd].
    apply elem_of_cons in Hin as [Heq|Hin].
    + simplify_eq. by rewrite decide_True.
    + rewrite decide_False; [by apply IH|].
      intros ->. apply Hk0. apply list_elem_of_fmap. by exists (k, v).
Qed.

Lemma dict_set_keys d k v :
  (dict_set d k v).*1 = if bool_decide (k ∈ d.*1) then d.*1 else d.*1 ++ [k].
Proof.
  induction d as [|[k0 v0] d IH].
  - rewrite bool_decide_eq_false_2; [done | apply not_elem_of_nil].
  - cbn [dict_set]. destruct (decide (k0 = k)) as [->|Hne].
    + rewrite bool_decide_eq_true_2; [done | left].
    + rewrite !fmap_cons, IH. cbn [fst]. destruct (decide (k ∈ d.*1)) as [Hin|Hnin].
      * rewrite !bool_decide_eq_true_2; [done | by right | done].
      * rewrite !bool_decide_eq_false_2; [done | | done].
        rewrite not_elem_of_cons. split; [congruence | done].
Qed.

Lemma dict_set_elem d k v k' v' :
  (k', v') ∈ dict_set d k v → (k' = k ∧ v' = v) ∨ (k', v') ∈ d.
Proof.
  induction d as [|[k0 v0] d IH]; simpl.
  - intros Heq%list_elem_of_singleton. left. by simplify_eq.
  - destruct (decide (k0 = k)) as [->|Hne]; rewrite !elem_of_cons.
    + intros [Heq|Hin]; [left; by simplify_eq | right; by right].
    + intros [Heq|Hin]; [right; by left|].
      destruct (IH Hin) as [?|?]; [by left | right; by right].
Qed.

Lemma dict_set_NoDup d k v : NoDup d.*1 → NoDup (dict_set d k v).*1.
Proof.
  intros Hnd. rewrite dict_set_keys. case_bool_decide as Hk; [done|].
  apply NoDup_app. split_and!; [done| |apply NoDup_singleton].
  intros x Hx ->%list_elem_of_singleton. done.
Qed.

End Dict.

(* ===================================================================== *)
(** ** Registration of triples *)
(* ===================================================================== *)

Section Registering.

Implicit Types (d : list ((date * list N * bool) * gmap (list N) (gset (list N))))
  (k : date * list N * bool) (c : Registration).

Lemma register_fst d c :
  (register d c).1 =
  if left_out c then d else dict_set d (reg_key c) (registered_value d c).
Proof.
  unfold register, _validate_uniqueness, left_out, registered_value, reg_key.
  destruct (bool_decide (reg_date c = Date 2014 8 28) && negb (endswith (reg_url c) (u ".pdf")));
    [done|].
  case_bool_decide as Hin; simpl; [|done].
  do 2 f_equal. rewrite (comm_L (∪)). symmetry.
  apply subseteq_union_1_L. by apply singleton_subseteq_l.
Qed.

Lemma register_get d c k :
  dict_get (register d c).1 k =
  if left_out c then dict_get d k
  else if decide (reg_key c = k) then Some (registered_value d c)
  else dict_get d k.
Proof. rewrite register_fst. destruct (left_out c); [done|]. apply dict_get_set. Qed.

Lemma registered_value_proper d d' c :
  same_content d d' → registered_value d c = registered_value d' c.
Proof. intros H. unfold registered_value. by rewrite (H (reg_key c)). Qed.

Lemma register_proper d d' c :
  same_content d d' → same_content (register d c).1 (register d' c).1.
Proof.
  intros H k. rewrite !register_get, (registered_value_proper d d' c H), (H k). done.
Qed.

Lemma register_all_proper cs d d' :
  same_content d d' → same_content (register_all d cs) (register_all d' cs).
Proof.
  revert d d'. induction cs as [|c cs IH]; intros d d' H; [done|].
  simpl. apply IH. by apply register_proper.
Qed.

Lemma register_comm d c1 c2 :
  same_content (register (register d c1).1 c2).1 (register (register d c2).1 c1).1.
Proof.
  destruct (left_out c1) eqn:L1.
  { rewrite (register_fst d c1), (register_fst (register d c2).1 c1), L1. done. }
  destruct (left_out c2) eqn:L2.
  { rewrite (register_fst d c2), (register_fst (register d c1).1 c2), L2. done. }
  intros k. rewrite !register_get, L1, L2.
  unfold registered_value. rewrite !register_get, L1, L2.
  destruct (decide (reg_key c1 = reg_key c2)) as [E|NE].
  - unfold registered_value. rewrite E.
    rewrite !(decide_True (P := reg_key c2 = reg_key c2)) by done.
    destruct (decide (reg_key c2 = k)); [|done]. simpl. f_equal.
    apply map_eq. intros t.
    destruct (decide (reg_text c1 = reg_text c2)) as [Et|NEt].
    + rewrite Et, !lookup_insert_eq. simpl. rewrite !lookup_insert.
      case_decide; [|done]. f_equal.
      rewrite <- !(assoc_L (∪)). f_equal. apply (comm_L (∪)).
    + rewrite (lookup_insert_ne _ (reg_text c1) (reg_text c2)) by done.
      rewrite (lookup_insert_ne _ (reg_text c2) (reg_text c1)) by done.
      rewrite !lookup_insert. repeat case_decide; congruence.
  - rewrite (decide_False (P := reg_key c2 = reg_key c1)) by done.
    repeat case_decide; congruence.
Qed.

Lemma register_all_Permutation cs cs' d :
  cs ≡ₚ cs' → same_content (register_all d cs) (register_all d cs').
Proof.
  intros Hp. revert d. induction Hp as [|c cs cs' _ IH|c1 c2 cs|cs1 cs2 cs3 _ IH1 _ IH2];
    intros d.
  - done.
  - simpl. apply IH.
  - simpl. apply register_all_proper, register_comm.
  - intros k. by rewrite IH1, IH2.
Qed.

Lemma register_well_formed d c : well_formed d → well_formed (register d c).1.
Proof.
  intros [Hnd Hne]. rewrite register_fst. destruct (left_out c); [done|].
  split; [by apply dict_set_NoDup|].
  intros k by_text Hin t s Hs.
  apply dict_set_elem in Hin as [[-> ->]|Hin]; [|by eapply Hne].
  unfold registered_value in Hs. apply lookup_insert_Some in Hs as [[_ <-]|[_ Hs]].
  - set_solver.
  - destruct (dict_get d (reg_key c)) as [bt|] eqn:Hg; simpl in Hs.
    + eapply Hne; [by apply dict_get_Some_elem|done].
    + by rewrite lookup_empty in Hs.
Qed.

Lemma register_all_well_formed cs d : well_formed d → well_formed (register_all d cs).
Proof.
  revert d. induction cs as [|c cs IH]; intros d H; [done|].
  simpl. apply IH. by apply register_well_formed.
Qed.

Lemma well_formed_nil : well_formed [].
Proof.
  split; [constructor|]. intros k by_text Hin. by apply elem_of_nil in Hin.
Qed.

Lemma register_all_cons d c cs :
  register_all d (c :: cs) = register_all (register d c).1 cs.
Proof. done. Qed.

Lemma register_all_snoc d cs c :
  register_all d (cs ++ [c]) = (register (register_all d cs) c).1.
Proof. unfold register_all. by rewrite fold_left_app. Qed.

Lemma urls_at_register d c k t :
  urls_at (register d c).1 k t =
  if left_out c then urls_at d k t
  else if decide (reg_key c = k ∧ reg_text c = t) then urls_at d k t ∪ {[reg_url c]}
  else urls_at d k t.
Proof.
  unfold urls_at. rewrite register_get. destruct (left_out c); [done|].
  destruct (decide (reg_key c = k)) as [<-|Hk].
  - cbn [mbind option_bind]. unfold registered_value. rewrite lookup_insert.
    destruct (decide (reg_text c = t)) as [<-|Ht].
    + rewrite decide_True by done. cbn [default].
      by destruct (dict_get d (reg_key c)).
    + rewrite decide_False by (intros [_ ?]; done).
      destruct (dict_get d (reg_key c)); [done|]. cbn [default mbind option_bind].
      by rewrite lookup_empty.
  - rewrite decide_False by (intros [? _]; done). done.
Qed.

(** The sets of the dict hold the URLs of the triples registered, and
    nothing else. *)
Lemma registered_urls cs k t (url : list N) :
  url ∈ urls_at (register_all [] cs) k t ↔
  ∃ c, c ∈ cs ∧ left_out c = false ∧ reg_key c = k ∧ reg_text c = t ∧ reg_url c = url.
Proof.
  induction cs as [|c cs IH] using rev_ind.
  - split; [by intros H%not_elem_of_empty|]. intros (c & H%elem_of_nil & _). done.
  - rewrite register_all_snoc, urls_at_register.
    assert (∀ P : Registration → Prop,
              (∃ c', c' ∈ cs ++ [c] ∧ P c') ↔ (∃ c', c' ∈ cs ∧ P c') ∨ P c) as Hsplit.
    { intros P. split.
      - intros (c' & [Hin|Hin]%elem_of_app & HP); [left; eauto|].
        apply list_elem_of_singleton in Hin as ->. by right.
      - intros [(c' & Hin & HP)|HP].
        + exists c'. split; [apply elem_of_app; by left | done].
        + exists c. split; [apply elem_of_app; right; left | done]. }
    rewrite Hsplit, <- IH. clear Hsplit IH.
    destruct (left_out c) eqn:L.
    { split; [by left|]. intros [?|(? & _)]; [done | congruence]. }
    destruct (decide (reg_key c = k ∧ reg_text c = t)) as [[Hk Ht]|Hn].
    + rewrite elem_of_union, elem_of_singleton. split.
      * intros [?|Heq]; [by left | right; by rewrite Heq].
      * intros [?|(_ & _ & _ & ?)]; [by left | by right].
    + split; [by left|]. intros [?|(_ & ? & ? & _)]; [done|]. by destruct Hn.
Qed.

End Registering.

(* ===================================================================== *)
(** ** Finalization *)
(* ===================================================================== *)

#[global] Instance str_le_total : Total str_le.
Proof.
  intros a. unfold str_le. induction a as [|x a IH]; intros [|y b]; simpl; auto.
  destruct (N.ltb_spec x y) as [Hxy|Hxy]; simpl; [by left|].
  destruct (N.ltb_spec y x) as [Hyx|Hyx]; simpl; [by right|].
  assert (x = y) as -> by lia. rewrite N.eqb_refl. simpl. apply IH.
Qed.

#[global] Instance str_le_trans : Transitive str_le.
Proof.
  intros a. unfold str_le. induction a as [|x a IH]; intros [|y b] [|z c]; simpl; auto; try done.
  intros H1 H2.
  apply Is_true_true in H1. apply Is_true_true in H2. apply Is_true_true.
  apply orb_true_iff in H1 as [H1|[H1 H1']%andb_true_iff];
    apply orb_true_iff in H2 as [H2|[H2 H2']%andb_true_iff];
    apply orb_true_iff.
  - left. apply N.ltb_lt in H1, H2. apply N.ltb_lt. lia.
  - left. apply N.ltb_lt in H1. apply N.eqb_eq in H2. apply N.ltb_lt. lia.
  - left. apply N.eqb_eq in H1. apply N.ltb_lt in H2. apply N.ltb_lt. lia.
  - right. apply N.eqb_eq in H1, H2. subst. rewrite N.eqb_refl. simpl.
    apply Is_true_true. eapply IH; apply Is_true_true; eassumption.
Qed.

#[global] Instance str_le_antisym : AntiSymm (=) str_le.
Proof.
  intros a. unfold str_le. induction a as [|x a IH]; intros [|y b]; simpl; try done.
  intros H1 H2.
  apply Is_true_true in H1. apply Is_true_true in H2.
  apply orb_true_iff in H1 as [H1|[H1 H1']%andb_true_iff];
    apply orb_true_iff in H2 as [H2|[H2 H2']%andb_true_iff];
    try apply N.ltb_lt in H1; try apply N.ltb_lt in H2;
    try apply N.eqb_eq in H1; try apply N.eqb_eq in H2; try lia.
  subst. f_equal. apply IH; by apply Is_true_true.
Qed.

Section Finalizing.

Implicit Types (d : list ((date * list N * bool) * gmap (list N) (gset (list N))))
  (k : date * list N * bool) (m : gmap (list N) (gset (list N))).

Lemma sorted_elem_of (keys : list pystr) t : t ∈ sorted keys ↔ t ∈ keys.
Proof. unfold sorted. by rewrite merge_sort_Permutation. Qed.

Lemma collect_urls_spec gd ed m keys flag urls :
  (∀ t, t ∈ keys → ∃ s, m !! t = Some s ∧ s ≠ ∅) →
  (collect_urls gd ed m keys flag urls).2 =
  inr (flag && forallb (fun t => negb (conflict_at m t)) keys,
       urls ++ omap (fun t => if conflict_at m t then None else m !! t ≫= popped) keys).
Proof.
  revert flag urls. induction keys as [|t keys IH]; intros flag urls Hk; simpl.
  - by rewrite andb_true_r, app_nil_r.
  - destruct (Hk t) as (s & Hs & Hne); [left|].
    unfold conflict_at at 1 3. rewrite Hs. simpl.
    assert (∀ t', t' ∈ keys → ∃ s, m !! t' = Some s ∧ s ≠ ∅) as Hk'
      by (intros; apply Hk; by right).
    case_bool_decide as Hc; simpl.
    + specialize (IH false urls Hk').
      destruct (collect_urls gd ed m keys false urls) as [logs r]. simpl in *.
      rewrite IH. by rewrite andb_false_r.
    + unfold popped at 1. destruct (elements s) as [|url rest] eqn:He.
      * apply elements_empty_inv in He. by apply leibniz_equiv in He.
      * simpl. rewrite (IH flag (urls ++ [url]) Hk'). by rewrite <- app_assoc.
Qed.

Lemma in_conflict_sorted m :
  forallb (fun t => negb (conflict_at m t)) (sorted (elements (dom m)))
  = negb (in_conflict m).
Proof.
  apply eq_true_iff_eq. rewrite negb_true_iff, forallb_forall.
  unfold in_conflict. rewrite <- not_true_iff_false, existsb_exists. split.
  - intros Hall ([t s] & Hin & Hc).
    apply list_elem_of_In, elem_of_map_to_list in Hin.
    specialize (Hall t). rewrite negb_true_iff in Hall.
    unfold conflict_at in Hall. rewrite Hin in Hall. simpl in Hall.
    rewrite Hall in Hc; [done|].
    apply list_elem_of_In, sorted_elem_of, elem_of_elements, elem_of_dom. by exists s.
  - intros Hno t Hin. apply negb_true_iff, not_true_iff_false. intros Hc.
    apply list_elem_of_In, sorted_elem_of, elem_of_elements, elem_of_dom in Hin as [s Hs].
    apply Hno. exists (t, s). split.
    + by apply list_elem_of_In, elem_of_map_to_list.
    + unfold conflict_at in Hc. by rewrite Hs in Hc.
Qed.

Lemma no_conflict_urls m keys :
  forallb (fun t => negb (conflict_at m t)) keys = true →
  omap (fun t => if conflict_at m t then None else m !! t ≫= popped) keys
  = omap (fun t => m !! t ≫= popped) keys.
Proof.
  unfold omap. induction keys as [|t keys IH]; simpl; [done|].
  intros [Ht Hall]%andb_true_iff. apply negb_true_iff in Ht. rewrite Ht.
  by rewrite IH.
Qed.

Lemma yield_gazettes_spec d :
  well_formed d →
  raised (_yield_gazettes d) = None ∧
  yielded (_yield_gazettes d) = omap (fun '(k, m) => record_of k m) d.
Proof.
  induction d as [|[[[gd ed] ex] m] d IH]; intros [Hnd Hne]; [done|].
  destruct IH as [IHr IHy].
  { split; [by apply NoDup_cons in Hnd as [_ ?]|].
    intros k' m' Hin. eapply Hne. by right. }
  cbn [_yield_gazettes omap list_omap].
  pose proof (collect_urls_spec gd ed m (sorted (elements (dom m))) true []) as Hc.
  destruct (collect_urls gd ed m (sorted (elements (dom m))) true []) as [logs r].
  simpl in Hc. rewrite Hc.
  2:{ intros t Hin. apply sorted_elem_of, elem_of_elements, elem_of_dom in Hin as [s Hs].
      exists s. split; [done|]. eapply (Hne _ m); [left|done]. }
  rewrite in_conflict_sorted. unfold record_of.
  destruct (in_conflict m) eqn:Hconf; simpl.
  - done.
  - rewrite IHr, IHy. split; [done|]. f_equal. unfold gazette_of. simpl.
    f_equal. apply no_conflict_urls. rewrite in_conflict_sorted. by rewrite Hconf.
Qed.

Lemma yielded_from_dict d g :
  g ∈ yielded (_yield_gazettes d) → ∃ m, (group_key g, m) ∈ d.
Proof.
  induction d as [|[[[gd ed] ex] m] d IH]; simpl.
  - intros H. by apply elem_of_nil in H.
  - destruct (collect_urls gd ed m (sorted (elements (dom m))) true []) as [logs [e|[[] urls]]];
      simpl.
    + intros H. by apply elem_of_nil in H.
    + intros [->|Hin]%elem_of_cons.
      * exists m. left.
      * destruct (IH Hin) as [m' ?]. exists m'. by right.
    + intros Hin. destruct (IH Hin) as [m' ?]. exists m'. by right.
Qed.

End Finalizing.

Section Emitting.

Implicit Types (d : list ((date * list N * bool) * gmap (list N) (gset (list N))))
  (k : date * list N * bool) (m : gmap (list N) (gset (list N))).

Lemma in_conflict_true m :
  in_conflict m = true ↔ ∃ t s, m !! t = Some s ∧ (1 < size s)%nat.
Proof.
  unfold in_conflict. rewrite existsb_exists. split.
  - intros ([t s] & Hin & Hc).
    apply list_elem_of_In, elem_of_map_to_list in Hin.
    exists t, s. split; [done|]. by apply bool_decide_eq_true_1 in Hc.
  - intros (t & s & Hs & Hc). exists (t, s). split.
    + by apply list_elem_of_In, elem_of_map_to_list.
    + by apply bool_decide_eq_true_2.
Qed.

Lemma in_conflict_false m t s :
  in_conflict m = false → m !! t = Some s → (size s ≤ 1)%nat.
Proof.
  intros Hc Hs. destruct (decide (1 < size s)%nat) as [Hlt|]; [|lia].
  assert (in_conflict m = true) as Ht by (apply in_conflict_true; eauto).
  congruence.
Qed.

Lemma singleton_of_size (s : gset (list N)) :
  s ≠ ∅ → (size s ≤ 1)%nat → ∃ url, s = {[url]} ∧ popped s = Some url.
Proof.
  intros Hne Hsz.
  assert (size s = 1%nat) as H1.
  { assert (size s ≠ 0%nat); [|lia].
    intros H0. apply Hne. apply leibniz_equiv. by apply size_empty_inv. }
  apply size_1_elem_of in H1 as [url Hu]. apply leibniz_equiv in Hu.
  exists url. split; [done|]. subst s. unfold popped. by rewrite elements_singleton.
Qed.

Lemma urls_Forall2 m keys :
  (∀ t, t ∈ keys → ∃ s, m !! t = Some s ∧ s ≠ ∅ ∧ (size s ≤ 1)%nat) →
  Forall2 (fun t url => m !! t = Some {[url]}) keys
    (omap (fun t => m !! t ≫= popped) keys).
Proof.
  unfold omap. induction keys as [|t keys IH]; intros Hk; simpl; [constructor|].
  destruct (Hk t) as (s & Hs & Hne & Hsz); [left|].
  destruct (singleton_of_size s Hne Hsz) as (url & -> & Hp).
  rewrite Hs. simpl. rewrite Hp. constructor; [done|].
  apply IH. intros t' Hin. apply Hk. by right.
Qed.

Lemma group_key_record_of k m g : record_of k m = Some g → group_key g = k.
Proof.
  unfold record_of. destruct (in_conflict m); [done|].
  intros [= <-]. by destruct k as [[gd ed] ex].
Qed.

Lemma emitted_for_dict d k :
  NoDup d.*1 →
  emitted_for k (omap (fun '(k', m) => record_of k' m) d) =
  match dict_get d k with
  | Some m => if in_conflict m then 0%nat else 1%nat
  | None => 0%nat
  end.
Proof.
  unfold omap, emitted_for.
  induction d as [|[k0 m0] d IH]; intros Hnd; [done|].
  rewrite fmap_cons in Hnd. apply NoDup_cons in Hnd as [Hk0 Hnd].
  cbn [fst] in Hk0. specialize (IH Hnd).
  cbn [list_omap dict_get].
  destruct (record_of k0 m0) as [g|] eqn:Hr.
  - pose proof (group_key_record_of _ _ _ Hr) as Hg.
    unfold record_of in Hr. destruct (in_conflict m0) eqn:Hc; [done|].
    cbn [List.filter]. rewrite Hg.
    destruct (decide (k0 = k)) as [->|Hne].
    + rewrite bool_decide_eq_true_2 by done. cbn [length]. rewrite IH, Hc.
      apply dict_get_None in Hk0. by rewrite Hk0.
    + rewrite bool_decide_eq_false_2 by done. apply IH.
  - unfold record_of in Hr. destruct (in_conflict m0) eqn:Hc; [|done].
    destruct (decide (k0 = k)) as [->|Hne]; [|apply IH].
    rewrite IH, Hc. apply dict_get_None in Hk0. by rewrite Hk0.
Qed.

Lemma yielded_same_content d d' g :
  well_formed d → well_formed d' → same_content d d' →
  g ∈ yielded (_yield_gazettes d) → g ∈ yielded (_yield_gazettes d').
Proof.
  intros Hd Hd' Hs.
  destruct (yield_gazettes_spec d Hd) as [_ ->].
  destruct (yield_gazettes_spec d' Hd') as [_ ->].
  rewrite !list_elem_of_omap. intros ([k m] & Hin & Hr).
  exists (k, m). split; [|done].
  apply dict_get_Some_elem. rewrite <- (Hs k).
  apply elem_dict_get; [apply Hd | done].
Qed.

End Emitting.

(* ===================================================================== *)
(** ** The record aggregator: conflicts, ordering, idempotence *)
(* ===================================================================== *)

(** C1. All-or-nothing conflict rejection: after any sequence of
    registrations, finalization raises nothing and emits, for every
    GroupKey of the page's dict, no record at all when one of its PartKeys
    holds more than one URL, and exactly one record otherwise. *)
Theorem conflict_rejection (calls : list Registration)
    (key : date * list N * bool) (by_text : gmap (list N) (gset (list N))) :
  dict_get (register_all [] calls) key = Some by_text →
  raised (_yield_gazettes (register_all [] calls)) = None ∧
  emitted_for key (yielded (_yield_gazettes (register_all [] calls)))
  = if in_conflict by_text then 0%nat else 1%nat.
Proof.
  intros Hk.
  pose proof (register_all_well_formed calls [] well_formed_nil) as Hwf.
  destruct (yield_gazettes_spec _ Hwf) as [Hr Hy]. split; [done|].
  rewrite Hy, emitted_for_dict by apply Hwf. by rewrite Hk.
Qed.

(** In terms of the triples: two registered triples that share GroupKey
    and PartKey and differ in their URL leave no record of that GroupKey. *)
Lemma conflicting_triples_rejected (calls : list Registration) (c1 c2 : Registration) :
  c1 ∈ calls → c2 ∈ calls → left_out c1 = false → left_out c2 = false →
  reg_key c1 = reg_key c2 → reg_text c1 = reg_text c2 → reg_url c1 ≠ reg_url c2 →
  emitted_for (reg_key c1) (yielded (_yield_gazettes (register_all [] calls))) = 0%nat.
Proof.
  intros H1 H2 L1 L2 Hk Ht Hu.
  pose proof (register_all_well_formed calls [] well_formed_nil) as Hwf.
  destruct (yield_gazettes_spec _ Hwf) as [_ ->].
  rewrite emitted_for_dict by apply Hwf.
  assert (reg_url c1 ∈ urls_at (register_all [] calls) (reg_key c1) (reg_text c1)) as Hin1.
  { apply registered_urls. by exists c1. }
  assert (reg_url c2 ∈ urls_at (register_all [] calls) (reg_key c1) (reg_text c1)) as Hin2.
  { apply registered_urls. by exists c2. }
  unfold urls_at in Hin1, Hin2.
  destruct (dict_get (register_all [] calls) (reg_key c1)) as [m|]; [|done].
  cbn [mbind option_bind] in Hin1, Hin2.
  destruct (m !! reg_text c1) as [s|] eqn:Hs; [|done].
  cbn [default id] in Hin1, Hin2. unfold id in Hin1, Hin2.
  assert (in_conflict m = true) as ->; [|done].
  apply in_conflict_true. exists (reg_text c1), s. split; [done|].
  destruct (decide (1 < size s)%nat) as [|Hsz]; [done|]. exfalso.
  destruct (singleton_of_size s) as (x & -> & _); [set_solver | lia |].
  apply elem_of_singleton in Hin1, Hin2. congruence.
Qed.

(** C2. Deterministic PartKey ordering: the document list of an emitted
    record holds the URL of each PartKey of its group, in the
    lexicographic order of the PartKeys; and the same record is emitted
    whatever the order in which the triples were registered. *)
Theorem partkey_ordering (calls calls' : list Registration) (g : Gazette) :
  calls ≡ₚ calls' →
  g ∈ yielded (_yield_gazettes (register_all [] calls)) →
  g ∈ yielded (_yield_gazettes (register_all [] calls')) ∧
  ∃ by_text keys,
    dict_get (register_all [] calls) (group_key g) = Some by_text ∧
    keys ≡ₚ elements (dom by_text) ∧
    StronglySorted str_le keys ∧
    Forall2 (fun t url => by_text !! t = Some {[url]}) keys (file_urls g).
Proof.
  intros Hp Hg.
  pose proof (register_all_well_formed calls [] well_formed_nil) as Hwf.
  pose proof (register_all_well_formed calls' [] well_formed_nil) as Hwf'.
  split.
  { apply (yielded_same_content (register_all [] calls)); [done|done| |done].
    by apply register_all_Permutation. }
  destruct (yield_gazettes_spec _ Hwf) as [_ Hy]. rewrite Hy in Hg.
  apply list_elem_of_omap in Hg as ([k m] & Hin & Hr).
  pose proof (group_key_record_of _ _ _ Hr) as Hgk.
  exists m, (sorted (elements (dom m))). split_and!.
  - rewrite Hgk. apply elem_dict_get; [apply Hwf | done].
  - apply merge_sort_Permutation.
  - apply StronglySorted_merge_sort; apply _.
  - unfold record_of in Hr. destruct (in_conflict m) eqn:Hc; [done|].
    injection Hr as <-. simpl. apply urls_Forall2.
    intros t Ht. apply sorted_elem_of, elem_of_elements, elem_of_dom in Ht as [s Hs].
    exists s. split_and!; [done| |by eapply in_conflict_false].
    destruct Hwf as [_ Hne]. by eapply Hne.
Qed.

(** C4. Idempotent insertion: registering a triple again leaves the page's
    dict as it was, logs one informational record, and so changes nothing
    of what finalization produces. *)
Theorem idempotent_insertion
    (d : list ((date * list N * bool) * gmap (list N) (gset (list N))))
    (c : Registration) :
  (register (register d c).1 c).1 = (register d c).1 ∧
  (∃ message, (register (register d c).1 c).2 = [Log INFO message]) ∧
  _yield_gazettes (register (register d c).1 c).1 = _yield_gazettes (register d c).1.
Proof.
  assert (registered_value (dict_set d (reg_key c) (registered_value d c)) c
          = registered_value d c) as Hval.
  { set (v := registered_value d c). unfold registered_value.
    rewrite dict_get_set, decide_True by done. simpl. subst v.
    unfold registered_value. rewrite lookup_insert_eq. simpl.
    rewrite insert_insert_eq. f_equal.
    rewrite <- (assoc_L (∪)). by rewrite (idemp_L (∪)). }
  assert ((register (register d c).1 c).1 = (register d c).1) as Hsame.
  { rewrite (register_fst (register d c).1 c), (register_fst d c).
    destruct (left_out c) eqn:L; [done|].
    by rewrite dict_set_set, Hval. }
  split_and!; [done| |by rewrite Hsame].
  unfold register at 1. unfold _validate_uniqueness.
  fold (reg_key c).
  change (bool_decide (reg_date c = Date 2014 8 28)
          && negb (endswith (reg_url c) (u ".pdf"))) with (left_out c).
  destruct (left_out c) eqn:L; [by eexists|].
  rewrite register_fst, L, dict_get_set, decide_True by done. simpl.
  unfold registered_value. rewrite lookup_insert_eq. simpl.
  rewrite bool_decide_eq_true_2; [by eexists|].
  apply elem_of_union_r. by apply elem_of_singleton.
Qed.

(* ===================================================================== *)
(** ** The listing parser *)
(* ===================================================================== *)

Section Parsing.

Variables (self : Spider) (response : Response) (year : Z).

Implicit Types (d : list ((date * list N * bool) * gmap (list N) (gset (list N))))
  (gazette_node : Node).

Lemma parse_entry_Registered gazette_node gd ed extra text url :
  parse_entry self response year gazette_node = Registered gd ed extra text url →
  ∃ match_,
    search POST_2013_SPLIT_GAZETTE_TEXT_PATTERN (strip (node_text gazette_node))
    = Some match_ ∧
    embedded_date gazette_node = Some gd ∧
    datetime.year gd = year ∧
    ed = group match_ 1 ∧
    text = strip (group match_ 2) ∧
    url = replace (urljoin response (strip (node_href gazette_node)))
            (u "http://") (u "https://") ∧
    extra = bool_of_match (search IS_EXTRA_EDITION_PATTERN text)
            || bool_of_match (search IS_EXTRA_EDITION_PATTERN url).
Proof.
  unfold parse_entry, embedded_date.
  destruct (search POST_2013_SPLIT_GAZETTE_TEXT_PATTERN (strip (node_text gazette_node)))
    as [match_|]; [|done].
  destruct (new_date _ _ _) as [gazette_date|]; [|done].
  destruct (datetime.year gazette_date =? year) eqn:Hy; simpl; [|done].
  destruct (date_leb (start_date self) gazette_date && date_leb gazette_date (end_date self));
    simpl; [|done].
  intros [= <- <- <- <- <-]. exists match_. apply Z.eqb_eq in Hy. by split_and!.
Qed.

Lemma parse_entry_wrong_year gazette_node gd :
  embedded_date gazette_node = Some gd → datetime.year gd ≠ year →
  parse_entry self response year gazette_node =
  WrongYear
    (Log WARNING
       (u "Extracted date " ++ isoformat gd ++ u " is not from"
        ++ u " queried year " ++ str_of_int year ++ u ". Skipping...")).
Proof.
  unfold parse_entry, embedded_date.
  destruct (search POST_2013_SPLIT_GAZETTE_TEXT_PATTERN (strip (node_text gazette_node)))
    as [match_|]; [|done].
  intros -> Hy. apply Z.eqb_neq in Hy. by rewrite Hy.
Qed.

Lemma register_keys_in_year d c :
  datetime.year (reg_date c) = year → keys_in_year year d → keys_in_year year (register d c).1.
Proof.
  intros Hy Hd k m. rewrite register_fst. destruct (left_out c); [apply Hd|].
  intros [[-> _]|Hin]%dict_set_elem; [done|by eapply Hd].
Qed.

Lemma scan_nodes_keys_in_year nodes d :
  keys_in_year year d → keys_in_year year (scan_nodes self response year nodes d).1.1.
Proof.
  revert d. induction nodes as [|n nodes IH]; intros d Hd; [done|].
  cbn [scan_nodes].
  destruct (parse_entry self response year n) as [l| |l| |gd ed extra text url] eqn:He.
  - specialize (IH d Hd). by destruct (scan_nodes self response year nodes d) as [[? ?] ?].
  - done.
  - specialize (IH d Hd). by destruct (scan_nodes self response year nodes d) as [[? ?] ?].
  - by apply IH.
  - apply parse_entry_Registered in He as (m & _ & _ & Hy & _).
    pose proof (register_keys_in_year d
                  {| reg_date := gd; reg_edition_number := ed;
                     reg_is_extra_edition := extra; reg_text := text; reg_url := url |}
                  Hy Hd) as Hd1.
    unfold register in Hd1. simpl in Hd1.
    destruct (_validate_uniqueness d gd ed extra text url) as [d1 l1]. simpl in Hd1.
    specialize (IH d1 Hd1). by destruct (scan_nodes self response year nodes d1) as [[? ?] ?].
Qed.

Lemma parse_year_yields_in_year g :
  g ∈ yielded (parse_year_post_2013_split self response year) →
  datetime.year (item_date g) = year.
Proof.
  unfold parse_year_post_2013_split.
  pose proof (scan_nodes_keys_in_year
                (omap (gazette_data_xpath year) (anchors response)) []) as Hk.
  destruct (scan_nodes self response year _ []) as [[d logs] [e|]]; simpl in *.
  - intros H. by apply elem_of_nil in H.
  - intros [m Hin]%yielded_from_dict.
    assert (keys_in_year year d) as Hd.
    { apply Hk. intros k' m' H. by apply elem_of_nil in H. }
    apply (Hd _ m Hin).
Qed.

Lemma scan_nodes_dict nodes d :
  (scan_nodes self response year nodes d).1.1
  = register_all d (registrations self response year nodes).
Proof.
  revert d. induction nodes as [|n nodes IH]; intros d; [done|].
  cbn [scan_nodes registrations].
  destruct (parse_entry self response year n) as [l| |l| |gd ed extra text url].
  - rewrite <- IH. by destruct (scan_nodes self response year nodes d) as [[? ?] ?].
  - done.
  - rewrite <- IH. by destruct (scan_nodes self response year nodes d) as [[? ?] ?].
  - apply IH.
  - rewrite register_all_cons.
    change (register d _) with (_validate_uniqueness d gd ed extra text url).
    destruct (_validate_uniqueness d gd ed extra text url) as [d1 l1]. cbn [fst].
    rewrite <- IH. by destruct (scan_nodes self response year nodes d1) as [[? ?] ?].
Qed.

Lemma scan_nodes_raises nodes d :
  (scan_nodes self response year nodes d).2 = None
  ∨ (scan_nodes self response year nodes d).2 = Some ValueError.
Proof.
  revert d. induction nodes as [|n nodes IH]; intros d; [by left|].
  cbn [scan_nodes].
  destruct (parse_entry self response year n) as [l| |l| |gd ed extra text url].
  - specialize (IH d). by destruct (scan_nodes self response year nodes d) as [[? ?] ?].
  - by right.
  - specialize (IH d). by destruct (scan_nodes self response year nodes d) as [[? ?] ?].
  - apply IH.
  - destruct (_validate_uniqueness d gd ed extra text url) as [d1 l1].
    specialize (IH d1). by destruct (scan_nodes self response year nodes d1) as [[? ?] ?].
Qed.

(** The callback ends normally or with the [ValueError] of [date(...)];
    when it ends normally it yields what finalization yields for the
    triples registered from the page. *)
Lemma parse_year_run :
  let run := parse_year_post_2013_split self response year in
  let nodes := omap (gazette_data_xpath year) (anchors response) in
  (raised run = Some ValueError ∧ yielded run = [])
  ∨ (raised run = None
     ∧ yielded run
       = yielded (_yield_gazettes
                    (register_all [] (registrations self response year nodes)))).
Proof.
  intros run nodes. subst run. unfold parse_year_post_2013_split. fold nodes.
  pose proof (scan_nodes_dict nodes []) as Hd.
  pose proof (scan_nodes_raises nodes []) as He.
  destruct (scan_nodes self response year nodes []) as [[d logs] e].
  cbn [fst snd] in Hd, He. destruct He as [->| ->]; [right | by left].
  cbn [log_then raised yielded]. rewrite Hd. split; [|done].
  apply yield_gazettes_spec, register_all_well_formed, well_formed_nil.
Qed.

End Parsing.

(** C3. Extra-edition OR-semantics: the flag of every entry the parser
    registers is the disjunction of two searches of the extra-edition
    pattern, one in the entry's free text and one in its normalized URL; it
    is false exactly when neither matches. *)
Theorem extra_edition_or (self : Spider) (response : Response) (year : Z)
    (gazette_node : Node) (gd : date) (ed : pystr) (extra : bool)
    (text url : pystr) :
  parse_entry self response year gazette_node = Registered gd ed extra text url →
  (∃ match_,
     search POST_2013_SPLIT_GAZETTE_TEXT_PATTERN (strip (node_text gazette_node))
     = Some match_ ∧
     text = strip (group match_ 2) ∧
     url = replace (urljoin response (strip (node_href gazette_node)))
             (u "http://") (u "https://")) ∧
  (extra = true ↔
     is_Some (search IS_EXTRA_EDITION_PATTERN text)
     ∨ is_Some (search IS_EXTRA_EDITION_PATTERN url)) ∧
  (extra = false ↔
     search IS_EXTRA_EDITION_PATTERN text = None
     ∧ search IS_EXTRA_EDITION_PATTERN url = None).
Proof.
  intros (m & Hm & _ & _ & _ & Ht & Hu & He)%parse_entry_Registered.
  split; [by exists m|]. rewrite He.
  destruct (search IS_EXTRA_EDITION_PATTERN text) as [m1|],
           (search IS_EXTRA_EDITION_PATTERN url) as [m2|]; simpl.
  - split; split; [by left | done | done | by intros [? ?]].
  - split; split; [by left | done | done | by intros [? ?]].
  - split; split; [by right | done | done | by intros [? ?]].
  - split; split; [done | intros [[? ?]|[? ?]]; done | done | done].
Qed.

Lemma new_date_year (y m d : Z) (gd : date) :
  new_date y m d = Some gd → datetime.year gd = y.
Proof. unfold new_date. destruct (_ && _); [|done]. by intros [= <-]. Qed.

Lemma embedded_date_year (gazette_node : Node) (gd : date) :
  embedded_date gazette_node = Some gd →
  embedded_year gazette_node = Some (datetime.year gd).
Proof.
  unfold embedded_date, embedded_year.
  destruct (search POST_2013_SPLIT_GAZETTE_TEXT_PATTERN (strip (node_text gazette_node)))
    as [match_|]; [|done].
  intros Hd. cbn. by rewrite (new_date_year _ _ _ _ Hd).
Qed.

(** A node whose embedded year is not the queried one never gets to
    [_validate_uniqueness]: either its digits are a calendar date, and
    line 143 skips it, or they are not, and line 142 raises. *)
Lemma parse_entry_other_year (self : Spider) (response : Response) (year : Z)
    (gazette_node : Node) (embedded : Z) :
  embedded_year gazette_node = Some embedded → embedded ≠ year →
  match embedded_date gazette_node with
  | Some gd =>
      datetime.year gd = embedded
      ∧ parse_entry self response year gazette_node
        = WrongYear
            (Log WARNING
               (u "Extracted date " ++ isoformat gd ++ u " is not from"
                ++ u " queried year " ++ str_of_int year ++ u ". Skipping..."))
  | None => parse_entry self response year gazette_node = BadDate
  end.
Proof.
  intros He Hy. destruct (embedded_date gazette_node) as [gd|] eqn:Hd.
  - pose proof (embedded_date_year _ _ Hd) as He'. rewrite He in He'.
    injection He' as ->. split; [done|]. by apply parse_entry_wrong_year.
  - unfold embedded_year in He. unfold embedded_date in Hd. unfold parse_entry.
    destruct (search POST_2013_SPLIT_GAZETTE_TEXT_PATTERN (strip (node_text gazette_node)))
      as [match_|]; [|done].
    by rewrite Hd.
Qed.

(** C7, with the continuation for the entries whose digits are a calendar
    date. Year-boundary rejection: a node whose embedded year is not the
    queried one is never registered, it leaves the dict as it was, and no
    record emitted for the page has a date of that year; when its year,
    month and day are a calendar date the node is skipped with a warning
    and the loop goes on with the remaining nodes. *)
Theorem year_boundary_rejection (self : Spider) (response : Response) (year : Z)
    (gazette_node : Node) (embedded : Z) :
  embedded_year gazette_node = Some embedded →
  embedded ≠ year →
  (∀ gd ed extra text url,
     parse_entry self response year gazette_node ≠ Registered gd ed extra text url) ∧
  (∀ d, (scan_nodes self response year [gazette_node] d).1.1 = d) ∧
  (∀ g, g ∈ yielded (parse_year_post_2013_split self response year) →
        datetime.year (item_date g) = year ∧ datetime.year (item_date g) ≠ embedded) ∧
  (∀ gd, embedded_date gazette_node = Some gd →
         datetime.year gd = embedded ∧
         ∃ message,
           ∀ nodes d,
             scan_nodes self response year (gazette_node :: nodes) d =
             let '(d', logs, e) := scan_nodes self response year nodes d in
             (d', Log WARNING message :: logs, e)).
Proof.
  intros He Hy.
  pose proof (parse_entry_other_year self response year gazette_node embedded He Hy) as Hp.
  split_and!.
  - intros gd ed extra text url.
    destruct (embedded_date gazette_node); [destruct Hp as [_ ->] | rewrite Hp]; done.
  - intros d. cbn [scan_nodes].
    destruct (embedded_date gazette_node); [destruct Hp as [_ ->] | rewrite Hp]; done.
  - intros g Hg. apply parse_year_yields_in_year in Hg. split; [done|]. by rewrite Hg.
  - intros gd Hd. rewrite Hd in Hp. destruct Hp as [Hgd Hp]. split; [done|].
    eexists. intros nodes d. cbn [scan_nodes]. by rewrite Hp.
Qed.

(** C7 does not hold for every entry of another year: when the digits of
    the entry are no calendar date, as in 2012-02-30, [date(...)] raises
    at line 142, before the years are compared, and the loop does not go
    on with the remaining nodes. *)
Lemma year_boundary_rejection_needs_calendar_date :
  ¬ (∀ (self : Spider) (response : Response) (year : Z) (gazette_node : Node)
       (embedded : Z),
       embedded_year gazette_node = Some embedded → embedded ≠ year →
       ∃ message,
         ∀ nodes d,
           scan_nodes self response year (gazette_node :: nodes) d =
           let '(d', logs, e) := scan_nodes self response year nodes d in
           (d', Log WARNING message :: logs, e)).
Proof.
  intros H.
  destruct (H Sample.spider (Sample.response_of []) 2013 Sample.node_2012_02_30 2012)
    as [message Hm].
  - vm_compute. reflexivity.
  - lia.
  - specialize (Hm [] []).
    assert (scan_nodes Sample.spider (Sample.response_of []) 2013
              [Sample.node_2012_02_30] [] = ([], [], Some ValueError)) as Hs
      by (vm_compute; reflexivity).
    rewrite Hs in Hm. cbn [scan_nodes] in Hm. discriminate Hm.
Qed.

(* ===================================================================== *)
(** ** The date filter *)
(* ===================================================================== *)

Lemma date_ltb_irrefl (a : date) : date_ltb a a = false.
Proof.
  unfold date_ltb. rewrite !Z.ltb_irrefl, !Z.eqb_refl. done.
Qed.

(** C10. Lower bound of the date filter: the item is dropped exactly when
    the spider has a start date that is strictly after the item's date;
    otherwise it is returned as it is, in particular when its date is the
    start date; the spider's end date plays no part. *)
Theorem date_filter_lower_bound (item : Gazette) (spider : pipelines.Spider) :
  ((∃ message,
      pipelines.GazetteDateFilteringPipeline.process_item item spider
      = inl (DropItem message))
   ↔ ∃ spider_start_date,
       pipelines.start_date spider = Some spider_start_date
       ∧ date_ltb (item_date item) spider_start_date = true) ∧
  (pipelines.GazetteDateFilteringPipeline.process_item item spider = inr item
   ∨ ∃ message,
       pipelines.GazetteDateFilteringPipeline.process_item item spider
       = inl (DropItem message)) ∧
  pipelines.GazetteDateFilteringPipeline.process_item item
    {| pipelines.start_date := Some (item_date item);
       pipelines.end_date := pipelines.end_date spider |} = inr item ∧
  (∀ other_end_date,
     pipelines.GazetteDateFilteringPipeline.process_item item
       {| pipelines.start_date := pipelines.start_date spider;
          pipelines.end_date := other_end_date |}
     = pipelines.GazetteDateFilteringPipeline.process_item item spider).
Proof.
  unfold pipelines.GazetteDateFilteringPipeline.process_item. simpl.
  rewrite date_ltb_irrefl. split_and!; [|  |done|done].
  - destruct (pipelines.start_date spider) as [sd|].
    + destruct (date_ltb (item_date item) sd) eqn:Hlt.
      * split; [intros _; by exists sd | intros _; by eexists].
      * split; [by intros [? ?] | intros (sd' & [= <-] & ?); congruence].
    + split; [by intros [? ?] | by intros (? & ? & ?)].
  - destruct (pipelines.start_date spider) as [sd|]; [|by left].
    destruct (date_ltb (item_date item) sd); [right; by eexists | by left].
Qed.

(* ===================================================================== *)
(** ** The SQL sink *)
(* ===================================================================== *)

Section Sink.

Import pipelines.SQLDatabasePipeline.

Variable insert_error : list Row → Row → option SQLAlchemyError.

Lemma persist_files_spec item file_infos db :
  persist_files insert_error item file_infos {| stored := db; pending := [] |} =
  let '(db', logs) :=
    insert_each insert_error (gazette_row item <$> not_yet_stored file_infos) db in
  ({| stored := db'; pending := [] |}, logs).
Proof.
  revert db. induction file_infos as [|f rest IH]; intros db; [done|].
  cbn [persist_files not_yet_stored List.filter].
  fold (not_yet_stored rest).
  destruct (bool_decide (file_status f = u "uptodate")); cbn [negb]; [apply IH|].
  rewrite fmap_cons. cbn [insert_each].
  unfold commit, add. cbn [stored pending app flush].
  destruct (insert_error db (gazette_row item f)) as [exc|].
  - unfold rollback. cbn [stored]. rewrite IH.
    by destruct (insert_each insert_error (gazette_row item <$> not_yet_stored rest) db).
  - apply IH.
Qed.

Lemma process_item_spec url item db :
  process_item insert_error {| database_url := Some url |} item db =
  let '(db', logs) :=
    insert_each insert_error (gazette_row item <$> not_yet_stored (files item)) db in
  (item, db', logs).
Proof.
  unfold process_item. cbn [database_url]. rewrite persist_files_spec.
  by destruct (insert_each insert_error (gazette_row item <$> not_yet_stored (files item)) db).
Qed.

Lemma insert_each_app rows1 rows2 db :
  insert_each insert_error (rows1 ++ rows2) db =
  let '(db1, logs1) := insert_each insert_error rows1 db in
  let '(db2, logs2) := insert_each insert_error rows2 db1 in
  (db2, logs1 ++ logs2).
Proof.
  revert db. induction rows1 as [|r rows1 IH]; intros db; simpl.
  - by destruct (insert_each insert_error rows2 db).
  - destruct (insert_error db r) as [exc|]; [|apply IH].
    rewrite IH. destruct (insert_each insert_error rows1 db) as [db1 logs1].
    by destruct (insert_each insert_error rows2 db1).
Qed.


End Sink.



(** C9. Sink failure atomicity and continuation: when the commit of one
    file's row raises a database error, the insertion is rolled back and
    the loop goes on with the remaining files from the session as it was
    before that file; so the database ends as if the item had not had that
    file, a warning with the date and the checksum is logged, and the item
    is returned. *)
Theorem sink_failure_continuation
    (insert_error : list pipelines.SQLDatabasePipeline.Row
                    → pipelines.SQLDatabasePipeline.Row
                    → option pipelines.SQLDatabasePipeline.SQLAlchemyError)
    (self : pipelines.SQLDatabasePipeline.Pipeline) (url : pystr)
    (item : Gazette) (db : list pipelines.SQLDatabasePipeline.Row)
    (before : list FileInfo) (file_info : FileInfo) (after : list FileInfo)
    (exc : pipelines.SQLDatabasePipeline.SQLAlchemyError) :
  pipelines.SQLDatabasePipeline.database_url self = Some url →
  files item = before ++ file_info :: after →
  file_status file_info ≠ u "uptodate" →
  insert_error
    (pipelines.SQLDatabasePipeline.stored
       (pipelines.SQLDatabasePipeline.persist_files insert_error item before
          {| pipelines.SQLDatabasePipeline.stored := db;
             pipelines.SQLDatabasePipeline.pending := [] |}).1)
    (pipelines.SQLDatabasePipeline.gazette_row item file_info) = Some exc →
  let session :=
    (pipelines.SQLDatabasePipeline.persist_files insert_error item before
       {| pipelines.SQLDatabasePipeline.stored := db;
          pipelines.SQLDatabasePipeline.pending := [] |}).1 in
  let warning :=
    pipelines.SQLDatabasePipeline.commit_warning
      (pipelines.SQLDatabasePipeline.gazette_row item file_info) exc in
  let outcome := pipelines.SQLDatabasePipeline.process_item insert_error self item db in
  pipelines.SQLDatabasePipeline.persist_files insert_error item (file_info :: after) session
  = (let '(s, logs) :=
       pipelines.SQLDatabasePipeline.persist_files insert_error item after session in
     (s, warning :: logs)) ∧
  outcome.1.1 = item ∧
  outcome.1.2
  = (pipelines.SQLDatabasePipeline.process_item insert_error self
       (with_files item (before ++ after)) db).1.2 ∧
  warning ∈ outcome.2 ∧
  log_level warning = WARNING ∧
  ∃ before_date between after_checksum,
    log_message warning
    = before_date ++ isoformat (item_date item) ++ between
      ++ file_checksum_ file_info ++ after_checksum.
Proof.
  intros Hurl Hfiles Hstatus Herr session warning outcome.
  subst session warning outcome. destruct self as [database_url].
  simpl in Hurl. subst database_url. revert Herr.
  rewrite !process_item_spec, !persist_files_spec. cbn [files with_files].
  rewrite Hfiles.
  assert (not_yet_stored (before ++ file_info :: after)
          = not_yet_stored before ++ file_info :: not_yet_stored after) as ->.
  { unfold not_yet_stored. rewrite List.filter_app. cbn [List.filter].
    by rewrite bool_decide_eq_false_2. }
  assert (not_yet_stored (before ++ after)
          = not_yet_stored before ++ not_yet_stored after) as ->
    by apply List.filter_app.
  rewrite !fmap_app, fmap_cons, !insert_each_app.
  change (pipelines.SQLDatabasePipeline.gazette_row (with_files item (before ++ after)))
    with (pipelines.SQLDatabasePipeline.gazette_row item).
  destruct (insert_each insert_error
              (pipelines.SQLDatabasePipeline.gazette_row item <$> not_yet_stored before) db)
    as [db1 logs1].
  cbn [fst snd pipelines.SQLDatabasePipeline.stored]. intros Herr.
  cbn [pipelines.SQLDatabasePipeline.persist_files insert_each].
  rewrite bool_decide_eq_false_2 by done.
  unfold pipelines.SQLDatabasePipeline.commit, pipelines.SQLDatabasePipeline.add,
    pipelines.SQLDatabasePipeline.rollback.
  cbn [pipelines.SQLDatabasePipeline.stored pipelines.SQLDatabasePipeline.pending app
       pipelines.SQLDatabasePipeline.flush].
  rewrite Herr. cbn [pipelines.SQLDatabasePipeline.stored].
  rewrite !persist_files_spec.
  destruct (insert_each insert_error
              (pipelines.SQLDatabasePipeline.gazette_row item <$> not_yet_stored after) db1)
    as [db2 logs2].
  split_and!; [done|done|done| |done|].
  - cbn [snd]. apply elem_of_app. right. left.
  - unfold pipelines.SQLDatabasePipeline.commit_warning. cbn [log_message].
    cbn [pipelines.SQLDatabasePipeline.row_date
         pipelines.SQLDatabasePipeline.row_file_checksum
         pipelines.SQLDatabasePipeline.gazette_row].
    exists (u "Something wrong has happened when adding the gazette in the database. "
            ++ u "Date: "),
           (u ". " ++ u "File Checksum: "),
           (u ". " ++ u "Details: " ++ pipelines.SQLDatabasePipeline.args exc).
    by rewrite <- !app_assoc.
Qed.

(* ===================================================================== *)
(** ** Storage paths *)
(* ===================================================================== *)

Section Paths.

Implicit Types (x a b : list N).

Lemma single_component_spec x :
  single_component x = true ↔ x ≠ [] ∧ x ≠ u "." ∧ 47%N ∉ x.
Proof.
  unfold single_component, pathlib.is_component.
  rewrite !andb_true_iff, !negb_true_iff, !bool_decide_eq_false. tauto.
Qed.

Lemma single_component_Forall (P : N → bool) x :
  Forall (fun c => P c = true) x → x ≠ [] → P 46%N = false → P 47%N = false →
  single_component x = true.
Proof.
  intros Hall Hne H46 H47. apply single_component_spec. split_and!; [done | |].
  - intros ->. apply Forall_cons in Hall as [H _]. change (P 46%N = true) in H. congruence.
  - intros Hin. rewrite Forall_forall in Hall. specialize (Hall _ Hin). congruence.
Qed.

Lemma split_no_sep x : 47%N ∉ x → split 47 x = [x].
Proof.
  induction x as [|c x IH]; [done|]. intros Hn.
  apply not_elem_of_cons in Hn as [Hc Hx]. cbn [split].
  destruct (N.eqb_spec c 47) as [->|_]; [done|]. by rewrite IH.
Qed.

Lemma split_app_sep a b : 47%N ∉ a → split 47 (a ++ 47%N :: b) = a :: split 47 b.
Proof.
  induction a as [|c a IH]; [done|]. intros Hn.
  apply not_elem_of_cons in Hn as [Hc Ha]. cbn [split app].
  destruct (N.eqb_spec c 47) as [->|_]; [done|]. by rewrite IH.
Qed.

Lemma add_segment_component (p : pathlib.PurePath) x :
  single_component x = true →
  pathlib.add_segment p x
  = {| pathlib.root := pathlib.root p; pathlib.parts := pathlib.parts p ++ [x] |}.
Proof.
  intros Hx. pose proof Hx as (Hne & Hdot & Hsep)%single_component_spec.
  destruct x as [|c x]; [done|]. unfold pathlib.add_segment, pathlib.splitroot.
  destruct (N.eqb_spec c 47) as [->|_].
  { exfalso. apply Hsep. left. }
  rewrite split_no_sep by done. cbn [List.filter].
  apply andb_true_iff in Hx as [-> _]. done.
Qed.

(** For clean components [str(Path(a, b, c))] is the three of them joined
    by slashes. *)
Lemma Path_str_three a b (c : list N) :
  single_component a = true → single_component b = true → single_component c = true →
  pathlib.str (pathlib.Path [a; b; c]) = a ++ u "/" ++ b ++ u "/" ++ c.
Proof.
  intros Ha Hb Hc. unfold pathlib.Path. cbn [fold_left].
  rewrite !add_segment_component by done. cbn [pathlib.root pathlib.parts app].
  unfold pathlib.str. cbn [pathlib.root pathlib.parts]. done.
Qed.

Lemma hex_digit_hex (z : Z) : is_hex_char (hashlib.hex_digit z) = true.
Proof.
  unfold hashlib.hex_digit. generalize (Z.to_nat z). intros n.
  do 16 (destruct n as [|n]; [reflexivity|]). by destruct n.
Qed.

Lemma hex8_hex (w : Z) : Forall (fun c => is_hex_char c = true) (hashlib.hex8 w).
Proof.
  unfold hashlib.hex8. apply Forall_fmap, Forall_forall. intros i _. apply hex_digit_hex.
Qed.

Lemma sha1_hexdigest_hex (data : list N) :
  Forall (fun c => is_hex_char c = true) (hashlib.sha1_hexdigest data)
  ∧ length (hashlib.sha1_hexdigest data) = 40%nat.
Proof.
  unfold hashlib.sha1_hexdigest.
  destruct (hashlib.blocks _ _ _) as [[[[h0 h1] h2] h3] h4]. split.
  - rewrite !Forall_app. split_and!; apply hex8_hex.
  - rewrite !length_app. unfold hashlib.hex8. by rewrite !length_fmap.
Qed.

Lemma sha1_hexdigest_component (data : list N) :
  single_component (hashlib.sha1_hexdigest data) = true.
Proof.
  destruct (sha1_hexdigest_hex data) as [Hall Hlen].
  apply (single_component_Forall is_hex_char); [done| |done|done].
  intros E. by rewrite E in Hlen.
Qed.

Lemma digits_of_uint_digits (d : Decimal.uint) :
  Forall (fun c => is_date_char c = true) (digits_of_uint d).
Proof. induction d; simpl; constructor; done. Qed.

Lemma zero_pad_date_chars (width : nat) (z : Z) :
  Forall (fun c => is_date_char c = true) (zero_pad width z).
Proof.
  unfold zero_pad. apply Forall_app. split.
  - apply Forall_replicate. done.
  - unfold str_of_int, str_of_N. destruct (z <? 0)%Z.
    + constructor; [done | apply digits_of_uint_digits].
    + apply digits_of_uint_digits.
Qed.

Lemma isoformat_component (d : date) : single_component (isoformat d) = true.
Proof.
  apply (single_component_Forall is_date_char); [|  |done|done].
  - unfold isoformat. rewrite !Forall_app.
    split_and!; try apply zero_pad_date_chars; by repeat constructor.
  - unfold isoformat. intros E. apply (f_equal length) in E.
    rewrite !length_app in E. simpl in E. lia.
Qed.

Section Default.

Variable media_ext : pystr → pystr.
Variable request : Request.
Hypothesis media_ext_no_sep : 47%N ∉ media_ext (url request).

Let base : list N :=
  hashlib.sha1_hexdigest (encode (url request)) ++ media_ext (url request).

Lemma base_component : single_component base = true.
Proof.
  destruct (sha1_hexdigest_hex (encode (url request))) as [Hall Hlen].
  apply single_component_spec. unfold base. split_and!.
  - intros E. apply (f_equal length) in E. rewrite length_app, Hlen in E. done.
  - intros E. apply (f_equal length) in E. rewrite length_app, Hlen in E. done.
  - rewrite elem_of_app. intros [Hin|Hin]; [|done].
    rewrite Forall_forall in Hall. by specialize (Hall _ Hin).
Qed.

Lemma default_path_parts :
  pathlib.Path
    [pipelines.QueridoDiarioFilesPipeline.FilesPipeline_file_path media_ext request]
  = {| pathlib.root := []; pathlib.parts := [u "full"; base] |}.
Proof.
  unfold pipelines.QueridoDiarioFilesPipeline.FilesPipeline_file_path.
  fold base. unfold pathlib.Path. cbn [fold_left].
  change (u "full/" ++ base) with (102%N :: (u "ull" ++ 47%N :: base)).
  unfold pathlib.add_segment, pathlib.splitroot. cbn [N.eqb Pos.eqb].
  change (102%N :: (u "ull" ++ 47%N :: base)) with (u "full" ++ 47%N :: base).
  rewrite split_app_sep by (by vm_compute; intros H; repeat (apply elem_of_cons in H as [H|H]; [done|]); by apply elem_of_nil in H).
  pose proof base_component as Hb.
  pose proof Hb as (_ & _ & Hsep)%single_component_spec.
  rewrite split_no_sep by done. cbn [List.filter].
  apply andb_true_iff in Hb as [-> _]. done.
Qed.

Lemma default_name :
  pathlib.name
    (pathlib.Path
       [pipelines.QueridoDiarioFilesPipeline.FilesPipeline_file_path media_ext request])
  = base.
Proof. by rewrite default_path_parts. Qed.

Lemma default_stem_component :
  single_component
    (pathlib.stem
       (pathlib.Path
          [pipelines.QueridoDiarioFilesPipeline.FilesPipeline_file_path media_ext request]))
  = true.
Proof.
  unfold pathlib.stem. rewrite default_name.
  pose proof base_component as Hb.
  destruct (rfind 46 base) as [i|]; [|done].
  destruct ((0 <? i)%nat && (i <? length base - 1)%nat) eqn:Hi; [|done].
  apply andb_true_iff in Hi as [Hi _]. apply Nat.ltb_lt in Hi.
  destruct (sha1_hexdigest_hex (encode (url request))) as [Hall Hlen].
  apply single_component_spec in Hb as (Hne & _ & Hsep).
  destruct (hashlib.sha1_hexdigest (encode (url request))) as [|h hs] eqn:Hh; [done|].
  apply Forall_cons in Hall as [Hh0 _].
  destruct i as [|i]; [lia|]. unfold base in *. cbn [app take] in *.
  apply single_component_spec. split_and!; [done| |].
  - intros [= -> _]. done.
  - intros Hin. apply Hsep.
    apply elem_of_cons in Hin as [->|Hin]; [left|right].
    by apply (subseteq_take i).
Qed.

End Default.

End Paths.

Lemma search_filename_nonempty (content_disposition : list N) match_ :
  search pipelines.SP_RIBEIRAO_PRETO_PDF_FILENAME content_disposition = Some match_ →
  ∃ c rest, content_disposition = c :: rest.
Proof. destruct content_disposition as [|c rest]; [by vm_compute | by eauto]. Qed.

(** C5. Content sniffing: for territory 3543402, when the response's
    Content-Disposition header matches the filename pattern, the storage
    path is the territory, the date and the SHA-1 hex digest of the
    embedded file name, joined by slashes, and nothing is logged; so two
    responses with the same embedded name, for items of that territory with
    the same date, get the same path whatever the requests are. *)
Theorem content_sniffing_path (media_ext media_ext' : pystr → pystr)
    (request request' : Request)
    (response response' : pipelines.QueridoDiarioFilesPipeline.Response)
    (item item' : Gazette) (content_disposition content_disposition' : bytes)
    (match_ match_' : gmap nat (list N)) :
  territory_id item = Some (u "3543402") →
  territory_id item' = Some (u "3543402") →
  item_date item' = item_date item →
  pipelines.QueridoDiarioFilesPipeline.headers response !! u "Content-Disposition"
  = Some content_disposition →
  search pipelines.SP_RIBEIRAO_PRETO_PDF_FILENAME content_disposition = Some match_ →
  pipelines.QueridoDiarioFilesPipeline.headers response' !! u "Content-Disposition"
  = Some content_disposition' →
  search pipelines.SP_RIBEIRAO_PRETO_PDF_FILENAME content_disposition' = Some match_' →
  group match_' 1 = group match_ 1 →
  pipelines.QueridoDiarioFilesPipeline.file_path media_ext request (Some response) item
  = ([], inr (u "3543402" ++ u "/" ++ isoformat (item_date item) ++ u "/"
              ++ hashlib.sha1_hexdigest (group match_ 1))) ∧
  pipelines.QueridoDiarioFilesPipeline.file_path media_ext' request' (Some response') item'
  = pipelines.QueridoDiarioFilesPipeline.file_path media_ext request (Some response) item.
Proof.
  intros Ht Ht' Hd Hh Hm Hh' Hm' Hg.
  assert (∀ ext req resp it cd m,
            territory_id it = Some (u "3543402") →
            pipelines.QueridoDiarioFilesPipeline.headers resp !! u "Content-Disposition"
            = Some cd →
            search pipelines.SP_RIBEIRAO_PRETO_PDF_FILENAME cd = Some m →
            pipelines.QueridoDiarioFilesPipeline.file_path ext req (Some resp) it
            = ([], inr (u "3543402" ++ u "/" ++ isoformat (item_date it) ++ u "/"
                        ++ hashlib.sha1_hexdigest (group m 1)))) as Hpath.
  { intros ext req resp it cd m Hit Hcd Hs.
    unfold pipelines.QueridoDiarioFilesPipeline.file_path,
      pipelines.QueridoDiarioFilesPipeline.file_path_for_sp_ribeirao_preto.
    rewrite Hit, Hcd. rewrite bool_decide_eq_true_2 by done.
    destruct (search_filename_nonempty cd m Hs) as (c & rest & ->).
    rewrite Hs. cbn [bool_of_match]. f_equal. f_equal.
    apply Path_str_three;
      [reflexivity | apply isoformat_component | apply sha1_hexdigest_component]. }
  split; [by apply (Hpath _ _ _ _ content_disposition)|].
  rewrite (Hpath _ _ _ _ content_disposition' match_' Ht' Hh' Hm').
  rewrite (Hpath _ _ _ _ content_disposition match_ Ht Hh Hm).
  by rewrite Hd, Hg.
Qed.

(** C6. Path format and wrong-extension fallback: the storage path is the
    territory, the date and a file name, joined by slashes. For territory
    3543402 the file name is the digest of the sniffed name when there is
    one, and otherwise, the header being absent, empty or not matching,
    the stem of the default base name; for any other territory it is the
    default base name, which is the SHA-1 hex digest of the request URL
    followed by the extension Scrapy chose. *)
Theorem storage_path_format (media_ext : pystr → pystr) (request : Request)
    (response : option pipelines.QueridoDiarioFilesPipeline.Response)
    (item : Gazette) (tid : pystr) :
  territory_id item = Some tid →
  single_component tid = true →
  47%N ∉ media_ext (url request) →
  let default_path :=
    pathlib.Path
      [pipelines.QueridoDiarioFilesPipeline.FilesPipeline_file_path media_ext request] in
  let filename :=
    if bool_decide (tid = u "3543402") then
      match sniffed_filename response with
      | Some pdf_filename => hashlib.sha1_hexdigest pdf_filename
      | None => pathlib.stem default_path
      end
    else pathlib.name default_path in
  (pipelines.QueridoDiarioFilesPipeline.file_path media_ext request response item).2
  = inr (tid ++ u "/" ++ isoformat (item_date item) ++ u "/" ++ filename) ∧
  pathlib.name default_path
  = hashlib.sha1_hexdigest (encode (url request)) ++ media_ext (url request).
Proof.
  intros Ht Htid Hext default_path filename. subst default_path filename.
  split; [|by apply default_name].
  pose proof (default_stem_component media_ext request Hext) as Hstem.
  pose proof (base_component media_ext request Hext) as Hbase.
  rewrite <- (default_name media_ext request Hext) in Hbase.
  assert (pipelines.QueridoDiarioFilesPipeline.url_based_file_path media_ext request item
            (isoformat (item_date item))
          = inr (tid ++ u "/" ++ isoformat (item_date item) ++ u "/"
                 ++ (if bool_decide (tid = u "3543402")
                     then pathlib.stem
                            (pathlib.Path
                               [pipelines.QueridoDiarioFilesPipeline.FilesPipeline_file_path
                                  media_ext request])
                     else pathlib.name
                            (pathlib.Path
                               [pipelines.QueridoDiarioFilesPipeline.FilesPipeline_file_path
                                  media_ext request])))) as Hurl.
  { unfold pipelines.QueridoDiarioFilesPipeline.url_based_file_path. rewrite Ht.
    f_equal. apply Path_str_three; [done | apply isoformat_component |].
    by case_bool_decide. }
  unfold pipelines.QueridoDiarioFilesPipeline.file_path. rewrite Ht.
  destruct response as [response|]; cbn [sniffed_filename mbind option_bind].
  2:{ cbn [snd]. rewrite Hurl. by case_bool_decide. }
  case_bool_decide as Hdesignated; [|by cbn [snd]].
  destruct (pipelines.QueridoDiarioFilesPipeline.headers response !! u "Content-Disposition")
    as [[|c content_disposition]|] eqn:Hh; cbn [snd mbind option_bind]; [done|  |done].
  destruct (search pipelines.SP_RIBEIRAO_PRETO_PDF_FILENAME (c :: content_disposition))
    as [match_|] eqn:Hs; cbn [bool_of_match snd mbind option_bind]; [|done].
  unfold pipelines.QueridoDiarioFilesPipeline.file_path_for_sp_ribeirao_preto.
  rewrite Hh, Hs, Ht. f_equal.
  apply Path_str_three; [done | apply isoformat_component | apply sha1_hexdigest_component].
Qed.

(* ===================================================================== *)
(** ** Worked instances *)
(* ===================================================================== *)

(** Edition 813, with two URLs for one part, is not emitted, not even for
    its second part; edition 814 of the same page is. *)
Lemma conflict_rejection_witness :
  emitted_for Sample.key_813
    (yielded (_yield_gazettes (register_all [] Sample.conflicting_page))) = 0%nat ∧
  emitted_for Sample.key_814
    (yielded (_yield_gazettes (register_all [] Sample.conflicting_page))) = 1%nat.
Proof.
  assert (Sample.key_813 ∈ (register_all [] Sample.conflicting_page).*1) as K813
    by (apply (bool_decide_unpack _); vm_compute; exact I).
  assert (Sample.key_814 ∈ (register_all [] Sample.conflicting_page).*1) as K814
    by (apply (bool_decide_unpack _); vm_compute; exact I).
  pose proof (proj2 (conflict_rejection _ _ _ (dict_get_present _ _ K813))) as E813.
  pose proof (proj2 (conflict_rejection _ _ _ (dict_get_present _ _ K814))) as E814.
  assert (in_conflict (default ∅ (dict_get (register_all [] Sample.conflicting_page)
                                    Sample.key_813)) = true) as C813
    by (vm_compute; reflexivity).
  assert (in_conflict (default ∅ (dict_get (register_all [] Sample.conflicting_page)
                                    Sample.key_814)) = false) as C814
    by (vm_compute; reflexivity).
  rewrite C813 in E813. rewrite C814 in E814. exact (conj E813 E814).
Defined.

(** "Parte 2" registered before "Parte 1": the record lists the URL of
    part 1 first, and it is the record of the page that lists them in
    order. *)
Lemma partkey_ordering_witness :
  Sample.parts_out_of_order ≡ₚ Sample.parts_in_order ∧
  yielded (_yield_gazettes (register_all [] Sample.parts_out_of_order))
  = [gazette_of Sample.key_813 [Sample.url_a; Sample.url_b]] ∧
  gazette_of Sample.key_813 [Sample.url_a; Sample.url_b]
  ∈ yielded (_yield_gazettes (register_all [] Sample.parts_in_order)).
Proof.
  assert (Sample.parts_out_of_order ≡ₚ Sample.parts_in_order) as Hp by apply perm_swap.
  assert (yielded (_yield_gazettes (register_all [] Sample.parts_out_of_order))
          = [gazette_of Sample.key_813 [Sample.url_a; Sample.url_b]]) as Hy
    by (vm_compute; reflexivity).
  split_and!; [exact Hp | exact Hy |].
  apply (partkey_ordering Sample.parts_out_of_order Sample.parts_in_order
           (gazette_of Sample.key_813 [Sample.url_a; Sample.url_b]) Hp).
  rewrite Hy. left.
Defined.

(** The entry of 2018-05-17 is an extra edition by its text alone. *)
Lemma extra_edition_or_witness :
  parse_entry Sample.spider (Sample.response_of []) 2018 Sample.node_2018
  = Registered (Date 2018 5 17) (u "2000") true (u "SUMPLEMENTO")
      (u "https://diariooficialjp.com.br/pdf/2018-05-17.pdf") ∧
  is_Some (search IS_EXTRA_EDITION_PATTERN (u "SUMPLEMENTO")) ∧
  search IS_EXTRA_EDITION_PATTERN (u "https://diariooficialjp.com.br/pdf/2018-05-17.pdf")
  = None.
Proof.
  assert (parse_entry Sample.spider (Sample.response_of []) 2018 Sample.node_2018
          = Registered (Date 2018 5 17) (u "2000") true (u "SUMPLEMENTO")
              (u "https://diariooficialjp.com.br/pdf/2018-05-17.pdf")) as He
    by (vm_compute; reflexivity).
  destruct (extra_edition_or _ _ _ _ _ _ _ _ _ He) as (_ & [Hor _] & _).
  split_and!; [exact He | | vm_compute; reflexivity].
  destruct (Hor eq_refl) as [Ht|Hu]; [exact Ht|].
  exfalso. revert Hu. vm_compute. intros [m Hm]. discriminate Hm.
Defined.

(** The entry of 2012-12-28 on the page of 2013 is skipped, and the page
    still yields the entry of 2013-06-03. *)
Lemma year_boundary_rejection_witness :
  embedded_year Sample.node_2012 = Some 2012 ∧
  embedded_date Sample.node_2012 = Some (Date 2012 12 28) ∧
  (item_date <$> yielded (parse_year_post_2013_split Sample.spider Sample.page_2013 2013))
  = [Date 2013 6 3] ∧
  ∀ g, g ∈ yielded (parse_year_post_2013_split Sample.spider Sample.page_2013 2013) →
       datetime.year (item_date g) = 2013 ∧ datetime.year (item_date g) ≠ 2012.
Proof.
  assert (embedded_year Sample.node_2012 = Some 2012) as He by (vm_compute; reflexivity).
  split_and!; [exact He | vm_compute; reflexivity | vm_compute; reflexivity |].
  apply (year_boundary_rejection Sample.spider Sample.page_2013 2013 Sample.node_2012
           2012 He).
  lia.
Defined.

(** The entry of 2012-02-30 on the page of 2013 ends the callback: the
    entry of 2013-06-03 after it, which a page of its own yields, is not
    reached. *)
Example impossible_date_of_another_year :
  embedded_year Sample.node_2012_02_30 = Some 2012 ∧
  embedded_date Sample.node_2012_02_30 = None ∧
  parse_entry Sample.spider (Sample.response_of []) 2013 Sample.node_2012_02_30 = BadDate ∧
  (let page :=
     Sample.response_of
       [ (node_text Sample.node_2012_02_30, node_href Sample.node_2012_02_30);
         (node_text Sample.node_2013, node_href Sample.node_2013) ] in
   raised (parse_year_post_2013_split Sample.spider page 2013) = Some ValueError
   ∧ yielded (parse_year_post_2013_split Sample.spider page 2013) = []) ∧
  item_date
    <$> yielded
          (parse_year_post_2013_split Sample.spider
             (Sample.response_of
                [(node_text Sample.node_2013, node_href Sample.node_2013)]) 2013)
  = [Date 2013 6 3].
Proof. vm_compute. split_and!; reflexivity. Qed.


(** The second of two files with the same checksum is refused: its
    warning is logged, and the third file is stored all the same. *)
Lemma sink_failure_continuation_witness :
  let item :=
    Sample.item_of (u "1100122")
      [Sample.file_of (u "downloaded") (u "aa"); Sample.file_of (u "downloaded") (u "aa");
       Sample.file_of (u "downloaded") (u "cc")] in
  let outcome :=
    pipelines.SQLDatabasePipeline.process_item Sample.unique_checksum Sample.sink item [] in
  outcome.1.1 = item ∧
  outcome.1.2
  = [pipelines.SQLDatabasePipeline.gazette_row item (Sample.file_of (u "downloaded") (u "aa"));
     pipelines.SQLDatabasePipeline.gazette_row item (Sample.file_of (u "downloaded") (u "cc"))] ∧
  length outcome.2 = 1%nat.
Proof.
  intros item outcome.
  destruct (sink_failure_continuation Sample.unique_checksum Sample.sink
              (u "sqlite:///querido-diario.db") item []
              [Sample.file_of (u "downloaded") (u "aa")]
              (Sample.file_of (u "downloaded") (u "aa"))
              [Sample.file_of (u "downloaded") (u "cc")]
              {| pipelines.SQLDatabasePipeline.args := u "('UNIQUE constraint failed',)" |}
              eq_refl eq_refl
              ltac:(intros H; vm_compute in H; discriminate H)
              ltac:(vm_compute; reflexivity))
    as (_ & Hitem & Hdb & _).
  split_and!; [exact Hitem | | vm_compute; reflexivity].
  subst outcome. rewrite Hdb. vm_compute. reflexivity.
Defined.

(** The header names "relatorio.pdf": the stored name is the SHA-1 of
    those thirteen bytes, for either request. *)
Lemma content_sniffing_path_witness :
  pipelines.QueridoDiarioFilesPipeline.file_path Sample.xhtml Sample.request_1
    (Some Sample.sniffed_response) (Sample.item_of (u "3543402") [])
  = ([], inr (u "3543402/2020-01-02/1debce944e4b72b72c0736bb3148e4b60259f511")) ∧
  pipelines.QueridoDiarioFilesPipeline.file_path Sample.xhtml Sample.request_2
    (Some Sample.sniffed_response) (Sample.item_of (u "3543402") [])
  = pipelines.QueridoDiarioFilesPipeline.file_path Sample.xhtml Sample.request_1
      (Some Sample.sniffed_response) (Sample.item_of (u "3543402") []).
Proof.
  destruct (content_sniffing_path Sample.xhtml Sample.xhtml Sample.request_1 Sample.request_2
              Sample.sniffed_response Sample.sniffed_response
              (Sample.item_of (u "3543402") []) (Sample.item_of (u "3543402") [])
              (u "attachment; filename=" ++ [34%N] ++ u "relatorio.pdf" ++ [34%N])
              (u "attachment; filename=" ++ [34%N] ++ u "relatorio.pdf" ++ [34%N])
              {[ 1%nat := u "relatorio.pdf" ]} {[ 1%nat := u "relatorio.pdf" ]}
              eq_refl eq_refl eq_refl
              ltac:(vm_compute; reflexivity) ltac:(vm_compute; reflexivity)
              ltac:(vm_compute; reflexivity) ltac:(vm_compute; reflexivity)
              eq_refl) as [H1 H2].
  split; [|exact H2]. rewrite H1. vm_compute. reflexivity.
Defined.

(** Without a response the path of territory 3543402 drops the extension
    of the default base name; another territory keeps it. *)
Lemma storage_path_format_witness :
  (pipelines.QueridoDiarioFilesPipeline.file_path Sample.xhtml Sample.request_1 None
     (Sample.item_of (u "3543402") [])).2
  = inr (u "3543402/2020-01-02/" ++ hashlib.sha1_hexdigest (encode (url Sample.request_1))) ∧
  (pipelines.QueridoDiarioFilesPipeline.file_path Sample.xhtml Sample.request_1 None
     (Sample.item_of (u "1100122") [])).2
  = inr (u "1100122/2020-01-02/" ++ hashlib.sha1_hexdigest (encode (url Sample.request_1))
         ++ u ".xhtml").
Proof.
  split.
  - rewrite (proj1 (storage_path_format Sample.xhtml Sample.request_1 None
                      (Sample.item_of (u "3543402") []) (u "3543402") eq_refl eq_refl
                      ltac:(apply (bool_decide_eq_false_1 _); vm_compute; reflexivity))).
    vm_compute. reflexivity.
  - rewrite (proj1 (storage_path_format Sample.xhtml Sample.request_1 None
                      (Sample.item_of (u "1100122") []) (u "1100122") eq_refl eq_refl
                      ltac:(apply (bool_decide_eq_false_1 _); vm_compute; reflexivity))).
    vm_compute. reflexivity.
Defined.

(** The extra-edition pattern on the spellings the source lists, in either
    case, and on texts without the word. *)
Example extra_edition_variants :
  bool_of_match ∘ search IS_EXTRA_EDITION_PATTERN
    <$> [ u "suplemento"; u "SUPLEMENTO"; u "sumplemento"; u "suplmento";
          u "extraordin" ++ [225%N] ++ u "ria";
          u "EXTRAORDIN" ++ [193%N] ++ u "RIA";
          u "https://diariooficialjp.com.br/pdf/2023-01-10-suplemento.pdf";
          []; u "Parte B"; u "suplemeto"; u "extraordinaria";
          u "https://diariooficialjp.com.br/pdf/2023-01-10.pdf" ]
  = [ true; true; true; true; true; true; true; false; false; false; false; false ].
Proof. vm_compute. reflexivity. Qed.

(** Scenario B of the specification: the same date and edition with and
    without the extra-edition flag are two records. *)
Example regular_and_extra_edition :
  (fun g => (is_extra_edition g, file_urls g))
    <$> yielded
          (_yield_gazettes
             (register_all []
                [ Sample.triple (Date 2010 7 14, u "874", false) [] Sample.url_a;
                  Sample.triple (Date 2010 7 14, u "874", true) (u "Parte 2") Sample.url_b ]))
  = [ (Some false, [Sample.url_a]); (Some true, [Sample.url_b]) ].
Proof. vm_compute. reflexivity. Qed.

(** Scenario C of the specification: two URLs for one PartKey give no
    record and one error. *)
Example one_conflict_one_error :
  (fun r => (yielded r, log_level <$> logged r, raised r))
    (_yield_gazettes
       (register_all []
          [ Sample.triple Sample.key_813 [] Sample.url_a;
            Sample.triple Sample.key_813 [] Sample.url_b ]))
  = ([], [ERROR], None).
Proof. vm_compute. reflexivity. Qed.

(** The known-bad entry of 2014-08-28 is left out of the dict. *)
Example entry_2014_08_28 :
  register []
    (Sample.triple (Date 2014 8 28, u "1892", false) []
       (u "https://diariooficialjp.com.br/pdf/"))
  = ([],
     [Log INFO
        (u "The extracted URL for 2014-08-28 edition_number 1892"
         ++ u " is_extra_edition False did not end with .pdf:"
         ++ u " 'https://diariooficialjp.com.br/pdf/'. Skipping...")]).
Proof. vm_compute. reflexivity. Qed.

(** The text pattern on two listing texts: the groups are the edition
    number, the free text, and the year, month and day. *)
Example text_pattern_groups :
  (fun text =>
     (fun m => (group m 1, strip (group m 2), group m 3, group m 4, group m 5))
       <$> search POST_2013_SPLIT_GAZETTE_TEXT_PATTERN text)
    <$> [ Sample.edicao ++ u " n" ++ [186%N] ++ u " 1586 - 2013-06-03";
          u "EDI" ++ [199; 195]%N ++ u "O 3930 - SUPLEMENTO  - 2023-01-10";
          Sample.edicao ++ u " 813 - Parte 2 - 2010-04-15";
          Sample.edicao ++ u " 813 2010-04-15" ]
  = [ Some (u "1586", [], u "2013", u "06", u "03");
      Some (u "3930", u "SUPLEMENTO", u "2023", u "01", u "10");
      None; None ].
Proof. vm_compute. reflexivity. Qed.

(** SHA-1 of the empty string, of "abc", and of a message longer than one
    block. *)
Example sha1_test_vectors :
  hashlib.sha1_hexdigest
    <$> [ []; u "abc";
          u "The quick brown fox jumps over the lazy dog. "
          ++ u "The quick brown fox jumps over the lazy dog!!" ]
  = [ u "da39a3ee5e6b4b0d3255bfef95601890afd80709";
      u "a9993e364706816aba3e25717850c26c9cd0d89d";
      u "193def6d992c562965663c23f5113861b8d960e1" ].
Proof. vm_compute. reflexivity. Qed.

(** Paths are normalized: empty segments and components vanish, and a
    rooted segment restarts the path. *)
Example path_normalization :
  (pathlib.str ∘ pathlib.Path)
    <$> [ [u "3543402"; u "2020-01-02"; u "abc"]; [[]; u "2020-01-02"; u "abc"];
          [u "a//b/./c/"; u "x"]; [u "a"; u "/etc"; u "p"]; [] ]
  = [ u "3543402/2020-01-02/abc"; u "2020-01-02/abc"; u "a/b/c/x"; u "/etc/p"; u "." ]
  ∧ (fun p => (pathlib.name (pathlib.Path [p]), pathlib.stem (pathlib.Path [p])))
      <$> [ u "full/abc.pdf"; u "full/abc"; u "full/.abc"; u "full/a.b.c" ]
    = [ (u "abc.pdf", u "abc"); (u "abc", u "abc"); (u ".abc", u ".abc");
        (u "a.b.c", u "a.b") ].
Proof. split; vm_compute; reflexivity. Qed.

(* ===================================================================== *)
(** ** The yearly listing pages *)
(* ===================================================================== *)

Lemma date_leb_spec (a b : date) :
  date_leb a b = true ↔
  datetime.year a < datetime.year b
  ∨ (datetime.year a = datetime.year b
     ∧ (datetime.month a < datetime.month b
        ∨ (datetime.month a = datetime.month b ∧ datetime.day a <= datetime.day b))).
Proof.
  unfold date_leb, date_ltb. rewrite negb_true_iff.
  destruct (Z.ltb_spec (datetime.year b) (datetime.year a)),
           (Z.eqb_spec (datetime.year b) (datetime.year a)),
           (Z.ltb_spec (datetime.month b) (datetime.month a)),
           (Z.eqb_spec (datetime.month b) (datetime.month a)),
           (Z.ltb_spec (datetime.day b) (datetime.day a)); simpl; split; intros; try done; lia.
Qed.

Lemma date_leb_trans (a b c : date) :
  date_leb a b = true → date_leb b c = true → date_leb a c = true.
Proof. rewrite !date_leb_spec. lia. Qed.

Lemma valid_date_bounds (d : date) :
  valid_date d →
  1 <= datetime.year d <= 9999 ∧ 1 <= datetime.month d <= 12 ∧ 1 <= datetime.day d.
Proof.
  unfold valid_date, new_date.
  destruct (_ && _) eqn:H; [|done]. intros _.
  repeat (apply andb_true_iff in H as [H ?]). lia.
Qed.

Lemma elem_of_yearly (n : nat) (y0 : Z) (until : date) (y : Z) :
  y ∈ yearly n y0 until ↔
  (y0 <= y < y0 + Z.of_nat n) ∧ date_leb (Date y 1 1) until = true.
Proof.
  revert y0. induction n as [|n IH]; intros y0; cbn [yearly].
  - split; [intros H; by apply elem_of_nil in H | lia].
  - destruct (date_leb (Date y0 1 1) until) eqn:H0.
    + rewrite elem_of_cons, IH. split.
      * intros [->|[? ?]]; split; try done; lia.
      * intros [? ?]. destruct (decide (y = y0)); [by left | right; split; [lia|done]].
    + split; [intros H; by apply elem_of_nil in H|]. intros [Hy Hle]. exfalso.
      assert (date_leb (Date y0 1 1) until = true); [|congruence].
      apply date_leb_spec. apply date_leb_spec in Hle. simpl in *. lia.
Qed.

Lemma yearly_increasing (n : nat) (y0 : Z) (until : date) :
  StronglySorted Z.lt (yearly n y0 until).
Proof.
  revert y0. induction n as [|n IH]; intros y0; cbn [yearly]; [constructor|].
  destruct (date_leb (Date y0 1 1) until); [|constructor].
  constructor; [apply IH|]. apply Forall_forall. intros y Hy.
  apply elem_of_yearly in Hy. lia.
Qed.

(** X1. The pages requested are those of the years from the year of the
    start date on, each once and in ascending order, whose first of
    January is not after the end date, up to the year 9999; the URL of a
    request carries the year its callback is given. *)
Theorem start_requests_years (self : Spider) (request_url : pystr) (y : Z) :
  ((request_url, y) ∈ start_requests self ↔
   request_url = POST_2013_SPLIT_FORMAT y
   ∧ datetime.year (start_date self) <= y <= 9999
   ∧ date_leb (Date y 1 1) (end_date self) = true) ∧
  StronglySorted Z.lt (start_requests self).*2.
Proof.
  unfold start_requests. split.
  - rewrite list_elem_of_fmap. split.
    + intros (y' & [= -> ->] & Hy). apply elem_of_yearly in Hy as [? ?].
      split_and!; [done|lia|lia|done].
    + intros (-> & Hy & Hle). exists y. split; [done|].
      apply elem_of_yearly. split; [lia|done].
  - assert (∀ years : list Z,
              ((fun year => (POST_2013_SPLIT_FORMAT year, year)) <$> years).*2 = years) as ->.
    { intros years. induction years as [|x years IH]; [done|].
      rewrite !fmap_cons, IH. done. }
    apply yearly_increasing.
Qed.

(** X2. No date of the crawl range is left without its page: for every
    calendar date between the start date and the end date of the spider,
    the page of its year is requested. *)
Theorem start_requests_cover (self : Spider) (d : date) :
  valid_date d →
  date_leb (start_date self) d = true →
  date_leb d (end_date self) = true →
  (POST_2013_SPLIT_FORMAT (datetime.year d), datetime.year d) ∈ start_requests self.
Proof.
  intros Hv Hs He. apply valid_date_bounds in Hv.
  unfold start_requests. apply list_elem_of_fmap. exists (datetime.year d).
  split; [done|]. apply elem_of_yearly. split.
  - apply date_leb_spec in Hs. lia.
  - apply (date_leb_trans _ d); [|done]. apply date_leb_spec. simpl. lia.
Qed.

Lemma start_requests_cover_witness :
  (u "https://diariooficialjp.com.br/anop.php?ano=2018", 2018) ∈ start_requests Sample.spider.
Proof.
  apply (start_requests_cover Sample.spider (Date 2018 5 17));
    vm_compute; reflexivity.
Defined.

(* ===================================================================== *)
(** ** Where the records of a page come from *)
(* ===================================================================== *)

Lemma registered_key_elem (cs : list Registration) (k : date * list N * bool)
    (m : gmap (list N) (gset (list N))) :
  (k, m) ∈ register_all [] cs →
  ∃ c, c ∈ cs ∧ left_out c = false ∧ reg_key c = k.
Proof.
  induction cs as [|c cs IH] using rev_ind.
  - intros H. by apply elem_of_nil in H.
  - rewrite register_all_snoc, register_fst.
    destruct (left_out c) eqn:L.
    + intros (c' & ? & ? & ?)%IH. exists c'. split; [apply elem_of_app; by left | done].
    + intros [[-> _]|Hin]%dict_set_elem.
      * exists c. split; [apply elem_of_app; right; left | done].
      * destruct (IH Hin) as (c' & ? & ? & ?).
        exists c'. split; [apply elem_of_app; by left | done].
Qed.

Lemma registrations_elem (self : Spider) (response : Response) (year : Z)
    (nodes : list Node) (c : Registration) :
  c ∈ registrations self response year nodes →
  ∃ n, n ∈ nodes
       ∧ parse_entry self response year n
         = Registered (reg_date c) (reg_edition_number c) (reg_is_extra_edition c)
             (reg_text c) (reg_url c).
Proof.
  induction nodes as [|n nodes IH]; cbn [registrations].
  - intros H. by apply elem_of_nil in H.
  - destruct (parse_entry self response year n) as [l| |l| |gd ed extra text url] eqn:He.
    + intros (n' & ? & ?)%IH. exists n'. split; [by right | done].
    + intros H. by apply elem_of_nil in H.
    + intros (n' & ? & ?)%IH. exists n'. split; [by right | done].
    + intros (n' & ? & ?)%IH. exists n'. split; [by right | done].
    + intros [->|Hin]%elem_of_cons.
      * exists n. split; [left | done].
      * destruct (IH Hin) as (n' & ? & ?). exists n'. split; [by right | done].
Qed.

Lemma popped_elem (s : gset (list N)) (url : list N) : popped s = Some url → url ∈ s.
Proof.
  unfold popped. destruct (elements s) as [|x l] eqn:He; [done|].
  intros [= <-]. apply elem_of_elements. rewrite He. left.
Qed.

Lemma record_of_urls (k : date * list N * bool) (m : gmap (list N) (gset (list N)))
    (g : Gazette) (url : list N) :
  record_of k m = Some g → url ∈ file_urls g →
  ∃ t s, m !! t = Some s ∧ url ∈ s.
Proof.
  unfold record_of. destruct (in_conflict m); [done|]. intros [= <-]. cbn [file_urls gazette_of].
  intros (t & _ & Ht)%list_elem_of_omap.
  destruct (m !! t) as [s|] eqn:Hs; [|done]. cbn in Ht.
  exists t, s. split; [done | by apply popped_elem].
Qed.

(** Every record of a page has the date, edition number and flag of an
    entry the parser registered from one of the selected nodes, and each of
    its URLs is the URL of such an entry. *)
Lemma page_record_provenance (self : Spider) (response : Response) (year : Z) g :
  g ∈ yielded (parse_year_post_2013_split self response year) →
  let nodes := omap (gazette_data_xpath year) (anchors response) in
  ∃ ed extra,
    g = gazette_of (item_date g, ed, extra) (file_urls g) ∧
    (∃ n text url,
       n ∈ nodes
       ∧ parse_entry self response year n = Registered (item_date g) ed extra text url) ∧
    (∀ url, url ∈ file_urls g →
       ∃ n text,
         n ∈ nodes
         ∧ parse_entry self response year n = Registered (item_date g) ed extra text url).
Proof.
  intros Hg nodes.
  destruct (parse_year_run self response year) as [[_ Hy]|[_ Hy]]; rewrite Hy in Hg.
  { by apply elem_of_nil in Hg. }
  fold nodes in Hg. clear Hy.
  set (cs := registrations self response year nodes) in *.
  pose proof (register_all_well_formed cs [] well_formed_nil) as Hwf.
  destruct (yield_gazettes_spec _ Hwf) as [_ Hy]. rewrite Hy in Hg. clear Hy.
  apply list_elem_of_omap in Hg as ([[[gd ed] extra] m] & Hin & Hr).
  exists ed, extra.
  assert (g = gazette_of (gd, ed, extra) (file_urls g)) as Hgz.
  { unfold record_of in Hr. destruct (in_conflict m); [done|]. by injection Hr as <-. }
  assert (item_date g = gd) as Hd by (by rewrite Hgz).
  rewrite Hd. split_and!; [done| |].
  - destruct (registered_key_elem cs _ _ Hin) as (c & Hc & _ & Hk).
    destruct (registrations_elem _ _ _ _ _ Hc) as (n & Hn & Hp).
    injection Hk as <- <- <-. by exists n, (reg_text c), (reg_url c).
  - intros url Hu. destruct (record_of_urls _ _ _ _ Hr Hu) as (t & s & Hs & Hus).
    assert (url ∈ urls_at (register_all [] cs) (gd, ed, extra) t) as Hat.
    { unfold urls_at. rewrite (elem_dict_get _ _ _ (proj1 Hwf) Hin). cbn. by rewrite Hs. }
    apply registered_urls in Hat as (c & Hc & _ & Hk & <- & <-).
    destruct (registrations_elem _ _ _ _ _ Hc) as (n & Hn & Hp).
    injection Hk as <- <- <-. by exists n, (reg_text c).
Qed.

Lemma parse_entry_Registered_range (self : Spider) (response : Response) (year : Z)
    n gd ed extra text url :
  parse_entry self response year n = Registered gd ed extra text url →
  valid_date gd
  ∧ date_leb (start_date self) gd = true ∧ date_leb gd (end_date self) = true.
Proof.
  unfold parse_entry.
  destruct (search POST_2013_SPLIT_GAZETTE_TEXT_PATTERN (strip (node_text n)))
    as [match_|]; [|done].
  destruct (new_date _ _ _) as [gazette_date|] eqn:Hnew; [|done].
  destruct (datetime.year gazette_date =? year); simpl; [|done].
  destruct (date_leb (start_date self) gazette_date) eqn:H1,
           (date_leb gazette_date (end_date self)) eqn:H2; simpl; try done.
  intros [= <- _ _ _ _]. split; [|done].
  unfold valid_date. unfold new_date in Hnew.
  destruct (_ && _) eqn:Hc in Hnew; [|done]. injection Hnew as <-.
  unfold new_date. cbn [datetime.year datetime.month datetime.day]. by rewrite Hc.
Qed.

(** X3. Every record a page yields carries a calendar date between the
    start date and the end date of the spider. *)
Theorem page_records_in_range (self : Spider) (response : Response) (year : Z)
    (g : Gazette) :
  g ∈ yielded (parse_year_post_2013_split self response year) →
  valid_date (item_date g)
  ∧ date_leb (start_date self) (item_date g) = true
  ∧ date_leb (item_date g) (end_date self) = true.
Proof.
  intros Hg. destruct (page_record_provenance _ _ _ _ Hg) as (ed & extra & _ & Hn & _).
  destruct Hn as (n & text & url & _ & Hp).
  by apply parse_entry_Registered_range in Hp.
Qed.

Lemma page_records_in_range_witness :
  valid_date (Date 2013 6 3)
  ∧ date_leb (Date 2013 6 3) (Date 2013 6 3) = true
  ∧ date_leb (Date 2013 6 3) (Date 2030 12 31) = true.
Proof.
  apply (page_records_in_range Sample.spider Sample.page_2013 2013
           (gazette_of (Date 2013 6 3, u "1586", false)
              [u "https://diariooficialjp.com.br/pdf/2013-06-03.pdf"])).
  assert (yielded (parse_year_post_2013_split Sample.spider Sample.page_2013 2013)
          = [gazette_of (Date 2013 6 3, u "1586", false)
               [u "https://diariooficialjp.com.br/pdf/2013-06-03.pdf"]]) as ->
    by (vm_compute; reflexivity).
  left.
Defined.

(** X4. The date filter of the pipelines never drops a record of the
    spider when it is given the spider's own start date. *)
Theorem date_filter_keeps_page_records (self : Spider) (response : Response) (year : Z)
    (g : Gazette) (spider_end_date : option date) :
  g ∈ yielded (parse_year_post_2013_split self response year) →
  pipelines.GazetteDateFilteringPipeline.process_item g
    {| pipelines.start_date := Some (start_date self);
       pipelines.end_date := spider_end_date |}
  = inr g.
Proof.
  intros Hg. destruct (page_record_provenance _ _ _ _ Hg) as (ed & extra & _ & Hn & _).
  destruct Hn as (n & text & url & _ & Hp).
  apply parse_entry_Registered_range in Hp as (_ & Hs & _).
  unfold pipelines.GazetteDateFilteringPipeline.process_item. simpl.
  unfold date_leb in Hs. apply negb_true_iff in Hs. by rewrite Hs.
Qed.

Lemma date_filter_keeps_page_records_witness :
  pipelines.GazetteDateFilteringPipeline.process_item
    (gazette_of (Date 2013 6 3, u "1586", false)
       [u "https://diariooficialjp.com.br/pdf/2013-06-03.pdf"])
    {| pipelines.start_date := Some (Date 2013 6 3); pipelines.end_date := None |}
  = inr (gazette_of (Date 2013 6 3, u "1586", false)
           [u "https://diariooficialjp.com.br/pdf/2013-06-03.pdf"]).
Proof.
  apply (date_filter_keeps_page_records Sample.spider Sample.page_2013 2013
           (gazette_of (Date 2013 6 3, u "1586", false)
              [u "https://diariooficialjp.com.br/pdf/2013-06-03.pdf"]) None).
  assert (yielded (parse_year_post_2013_split Sample.spider Sample.page_2013 2013)
          = [gazette_of (Date 2013 6 3, u "1586", false)
               [u "https://diariooficialjp.com.br/pdf/2013-06-03.pdf"]]) as ->
    by (vm_compute; reflexivity).
  left.
Defined.

Lemma scan_nodes_bad_date (self : Spider) (response : Response) (year : Z)
    (nodes : list Node) n d :
  n ∈ nodes → parse_entry self response year n = BadDate →
  (scan_nodes self response year nodes d).2 = Some ValueError.
Proof.
  intros Hin Hn. revert d. induction nodes as [|n0 nodes IH]; intros d.
  - by apply elem_of_nil in Hin.
  - cbn [scan_nodes].
    destruct (parse_entry self response year n0) as [l| |l| |gd ed extra text url] eqn:He.
    + apply elem_of_cons in Hin as [->|Hin]; [congruence|].
      specialize (IH Hin d). by destruct (scan_nodes self response year nodes d) as [[? ?] ?].
    + done.
    + apply elem_of_cons in Hin as [->|Hin]; [congruence|].
      specialize (IH Hin d). by destruct (scan_nodes self response year nodes d) as [[? ?] ?].
    + apply elem_of_cons in Hin as [->|Hin]; [congruence|]. by apply IH.
    + apply elem_of_cons in Hin as [->|Hin]; [congruence|].
      destruct (_validate_uniqueness d gd ed extra text url) as [d1 l1].
      specialize (IH Hin d1). by destruct (scan_nodes self response year nodes d1) as [[? ?] ?].
Qed.

(** X5. One impossible date spoils the page: when the text of a selected
    node matches the pattern with digits that are no calendar date, the
    callback ends with the [ValueError] of [date(...)] and yields no record
    at all, whatever the other nodes are. *)
Theorem bad_date_aborts_page (self : Spider) (response : Response) (year : Z)
    (n : Node) (match_ : gmap nat (list N)) :
  n ∈ omap (gazette_data_xpath year) (anchors response) →
  search POST_2013_SPLIT_GAZETTE_TEXT_PATTERN (strip (node_text n)) = Some match_ →
  new_date (int_of_digits (group match_ 3)) (int_of_digits (group match_ 4))
    (int_of_digits (group match_ 5)) = None →
  raised (parse_year_post_2013_split self response year) = Some ValueError
  ∧ yielded (parse_year_post_2013_split self response year) = [].
Proof.
  intros Hin Hm Hd.
  assert (parse_entry self response year n = BadDate) as Hp
    by (unfold parse_entry; by rewrite Hm, Hd).
  pose proof (scan_nodes_bad_date self response year _ n [] Hin Hp) as He.
  unfold parse_year_post_2013_split.
  destruct (scan_nodes self response year _ []) as [[d logs] e].
  cbn [snd] in He. by rewrite He.
Qed.

Lemma bad_date_aborts_page_witness :
  raised (parse_year_post_2013_split Sample.spider Sample.page_with_bad_date 2013)
  = Some ValueError
  ∧ yielded (parse_year_post_2013_split Sample.spider Sample.page_with_bad_date 2013) = [].
Proof.
  apply (bad_date_aborts_page Sample.spider Sample.page_with_bad_date 2013
           {| node_text := Sample.edicao ++ u " 1600 - 2013-02-30";
              node_href := u "pdf/2013-02-30.pdf" |}
           {[ 1%nat := u "1600"; 2%nat := []; 3%nat := u "2013"; 4%nat := u "02";
              5%nat := u "30" ]}).
  - vm_compute. right. left.
  - vm_compute. reflexivity.
  - vm_compute. reflexivity.
Defined.

(* ===================================================================== *)
(** ** The normalized URLs *)
(* ===================================================================== *)

Lemma replaced_prefix_without_h (s p : list N) :
  104%N ∉ p →
  startswith (replace_from (u "http://") (u "https://") 0 s) p = true →
  startswith s p = true.
Proof.
  revert p. induction s as [|c s IH]; intros p Hp; [done|].
  destruct p as [|d p]; [done|].
  apply not_elem_of_cons in Hp as [Hd Hp].
  cbn [replace_from]. destruct (startswith (c :: s) (u "http://")).
  - change (u "https://") with (104%N :: u "ttps://"). cbn [app startswith].
    destruct (N.eqb_spec d 104) as [->|_]; [done|]. cbn [andb]. done.
  - cbn [startswith]. intros [-> H]%andb_true_iff. apply andb_true_iff. split; [done|].
    by apply IH.
Qed.

Lemma replace_from_no_http (s : list N) (skip : nat) :
  contains (replace_from (u "http://") (u "https://") skip s) (u "http://") = false.
Proof.
  revert skip. induction s as [|c s IH]; intros skip; [done|].
  cbn [replace_from]. destruct skip as [|skip]; [|apply IH].
  destruct (startswith (c :: s) (u "http://")) eqn:Hs.
  - specialize (IH (Nat.pred (length (u "http://")))). revert IH.
    generalize (replace_from (u "http://") (u "https://")
                  (Nat.pred (length (u "http://"))) s).
    intros t Ht. cbn. exact Ht.
  - cbn [contains]. rewrite (IH 0%nat), orb_false_r.
    pose proof (replaced_prefix_without_h s (u "ttp://")) as Hpre.
    set (t := replace_from (u "http://") (u "https://") 0 s) in *.
    change (u "http://") with (104%N :: u "ttp://") in Hs |- *.
    cbn [startswith] in Hs |- *.
    destruct (104 =? c)%N; [|done]. cbn [andb] in Hs |- *.
    destruct (startswith t (u "ttp://")) eqn:Hr; [|done].
    rewrite Hpre in Hs; [done| |done].
    apply (bool_decide_eq_false_1 _). vm_compute. reflexivity.
Qed.

(** X6. No URL of a record of a page contains [http://]: the parser has
    turned every occurrence into [https://]. *)
Theorem page_urls_https (self : Spider) (response : Response) (year : Z)
    (g : Gazette) (url : pystr) :
  g ∈ yielded (parse_year_post_2013_split self response year) →
  url ∈ file_urls g →
  contains url (u "http://") = false.
Proof.
  intros Hg Hu. destruct (page_record_provenance _ _ _ _ Hg) as (ed & extra & _ & _ & Hall).
  destruct (Hall url Hu) as (n & text & _ & Hp).
  apply parse_entry_Registered in Hp as (m & _ & _ & _ & _ & _ & -> & _).
  apply replace_from_no_http.
Qed.

Lemma page_urls_https_witness :
  file_urls <$> yielded (parse_year_post_2013_split Sample.spider Sample.page_2013 2013)
  = [[u "https://diariooficialjp.com.br/pdf/2013-06-03.pdf"]]
  ∧ contains (u "https://diariooficialjp.com.br/pdf/2013-06-03.pdf") (u "http://") = false.
Proof.
  assert (yielded (parse_year_post_2013_split Sample.spider Sample.page_2013 2013)
          = [gazette_of (Date 2013 6 3, u "1586", false)
               [u "https://diariooficialjp.com.br/pdf/2013-06-03.pdf"]]) as Hy
    by (vm_compute; reflexivity).
  split; [by rewrite Hy|].
  apply (page_urls_https Sample.spider Sample.page_2013 2013
           (gazette_of (Date 2013 6 3, u "1586", false)
              [u "https://diariooficialjp.com.br/pdf/2013-06-03.pdf"])).
  - rewrite Hy. left.
  - left.
Defined.

(* ===================================================================== *)
(** ** What the patterns match *)
(* ===================================================================== *)

Section Matching.

Context {R : Type}.

Implicit Types (r : regex) (s : list N) (caps : gmap nat (list N)).

Lemma match_rep_sound (p : N → bool) lo hi s (k : list N → option R) x :
  match_rep p lo hi s k = Some x →
  ∃ w s', s = w ++ s' ∧ Forall (fun c => p c = true) w ∧ (lo ≤ length w)%nat
          ∧ from_option (fun h => (length w ≤ h)%nat) True hi
          ∧ k s' = Some x.
Proof.
  revert lo hi. induction s as [|c s IH]; intros lo hi.
  - cbn [match_rep]. destruct lo; [|done]. intros Hk.
    exists [], []. split_and!; [done|constructor|done| |done].
    destruct hi; simpl; [lia|done].
  - cbn [match_rep].
    assert (match lo with O => k (c :: s) | S _ => None end = Some x →
            ∃ w s', c :: s = w ++ s' ∧ Forall (fun c => p c = true) w ∧ (lo ≤ length w)%nat
                    ∧ from_option (fun h => (length w ≤ h)%nat) True hi
                    ∧ k s' = Some x) as Hstop.
    { destruct lo; [|done]. intros Hk.
      exists [], (c :: s). split_and!; [done|constructor|done| |done].
      destruct hi; simpl; [lia|done]. }
    destruct (p c) eqn:Hp; cbn [andb]; [|done].
    case_bool_decide as Hhi; cbn [negb]; [done|].
    destruct (match_rep p (Nat.pred lo) (Nat.pred <$> hi) s k) as [y|] eqn:Hrec; [|done].
    intros [= ->]. apply IH in Hrec as (w & s' & -> & Hw & Hlo & Hh & Hk).
    exists (c :: w), s'. split_and!; [done|by constructor|simpl; lia| |done].
    destruct hi as [h|]; simpl in *; [|done].
    destruct h; [done | lia].
Qed.

Lemma match_rep_complete (p : N → bool) lo hi (k : list N → option R) w s' :
  Forall (fun c => p c = true) w → (lo ≤ length w)%nat →
  from_option (fun h => (length w ≤ h)%nat) True hi →
  is_Some (k s') →
  is_Some (match_rep p lo hi (w ++ s') k).
Proof.
  revert lo hi. induction w as [|c w IH]; intros lo hi Hw Hlo Hh Hk.
  - assert (lo = 0%nat) as -> by (simpl in Hlo; lia). cbn [app].
    destruct s' as [|c s']; cbn [match_rep]; [done|].
    destruct (p c && negb (bool_decide (hi = Some 0%nat))); [|done].
    by destruct (match_rep p (Nat.pred 0) (Nat.pred <$> hi) s' k).
  - apply Forall_cons in Hw as [Hc Hw]. cbn [app match_rep]. rewrite Hc. cbn [andb].
    rewrite bool_decide_eq_false_2.
    2:{ intros ->. simpl in Hh. lia. }
    cbn [negb].
    destruct (IH (Nat.pred lo) (Nat.pred <$> hi)) as [y Hy]; [done|simpl in *; lia| |done|].
    { destruct hi as [h|]; simpl in *; [lia|done]. }
    rewrite Hy. done.
Qed.

Lemma match_at_sound r s caps (k : list N → gmap nat (list N) → option R) x :
  match_at r s caps k = Some x →
  ∃ s' caps', derives r s caps s' caps' ∧ k s' caps' = Some x.
Proof.
  revert s caps k. induction r as [|p|p lo hi|r1 IH1 r2 IH2|r1 IH1 r2 IH2|i r1 IH1];
    intros s caps k; cbn [match_at derives].
  - intros Hk. by exists s, caps.
  - destruct s as [|c s]; [done|]. destruct (p c) eqn:Hp; [|done]. intros Hk.
    exists s, caps. split; [|done]. split; [|done]. by exists c.
  - intros (w & s' & -> & Hw & Hlo & Hh & Hk)%match_rep_sound.
    exists s', caps. split; [|done]. split; [|done]. by exists w.
  - intros (s1 & caps1 & H1 & (s' & caps' & H2 & Hk)%IH2)%IH1.
    exists s', caps'. split; [|done]. by exists s1, caps1.
  - destruct (match_at r1 s caps k) as [y|] eqn:H1.
    + intros [= ->]. apply IH1 in H1 as (s' & caps' & ? & ?).
      exists s', caps'. split; [by left | done].
    + intros (s' & caps' & ? & ?)%IH2. exists s', caps'. split; [by right | done].
  - intros (s' & caps1 & H1 & Hk)%IH1. eexists s', _. split; [|exact Hk]. by exists caps1.
Qed.

Lemma match_at_complete r s caps (k : list N → gmap nat (list N) → option R) s' caps' :
  derives r s caps s' caps' → is_Some (k s' caps') → is_Some (match_at r s caps k).
Proof.
  revert s caps k s' caps'.
  induction r as [|p|p lo hi|r1 IH1 r2 IH2|r1 IH1 r2 IH2|i r1 IH1];
    intros s caps k s' caps'; cbn [match_at derives].
  - by intros [-> ->].
  - intros [(c & -> & Hp) ->]. by rewrite Hp.
  - intros [(w & -> & Hw & Hlo & Hh) ->] Hk. by apply match_rep_complete.
  - intros (s1 & caps1 & H1 & H2) Hk. eapply IH1; [exact H1|]. by eapply IH2.
  - intros [H1|H2] Hk.
    + destruct (IH1 _ _ k _ _ H1 Hk) as [y ->]. done.
    + destruct (match_at r1 s caps k); [done|]. by eapply IH2.
  - intros (caps1 & H1 & ->) Hk. by eapply IH1.
Qed.

End Matching.

(** [search] finds a match exactly when the pattern matches at some
    position of the subject, and the captures it returns are those of a
    match. *)
Lemma search_sound (r : regex) (s : list N) (caps : gmap nat (list N)) :
  search r s = Some caps →
  ∃ before t after, s = before ++ t ∧ derives r t ∅ after caps.
Proof.
  induction s as [|c s IH]; cbn [search].
  - destruct (match_at r [] ∅ (fun _ caps => Some caps)) as [y|] eqn:Hm; [|done].
    intros [= ->]. apply match_at_sound in Hm as (s' & caps' & Hd & [= ->]).
    by exists [], [], s'.
  - destruct (match_at r (c :: s) ∅ (fun _ caps => Some caps)) as [y|] eqn:Hm.
    + intros [= ->]. apply match_at_sound in Hm as (s' & caps' & Hd & [= ->]).
      by exists [], (c :: s), s'.
    + intros (before & t & after & -> & Hd)%IH. by exists (c :: before), t, after.
Qed.

Lemma search_complete (r : regex) (before t after : list N) (caps : gmap nat (list N)) :
  derives r t ∅ after caps → is_Some (search r (before ++ t)).
Proof.
  intros Hd.
  assert (is_Some (match_at r t ∅ (fun _ caps => Some caps))) as Ht
    by (by eapply match_at_complete).
  induction before as [|c before IH]; cbn [app].
  - destruct t; cbn [search]; destruct Ht as [y ->]; done.
  - cbn [search]. by destruct (match_at r (c :: before ++ t) ∅ (fun _ caps => Some caps)).
Qed.

Lemma derives_str_lit (w s : list N) (caps : gmap nat (list N)) s' caps' :
  derives (str_lit w) s caps s' caps' ↔ s = w ++ s' ∧ caps' = caps.
Proof.
  unfold str_lit, seq_of. revert s caps.
  induction w as [|c w IH]; intros s caps; cbn [fmap list_fmap foldr derives].
  - split; [by intros [-> ->] | by intros [-> ->]].
  - split.
    + intros (s1 & caps1 & [(c' & -> & Hc) ->] & (-> & ->)%IH).
      unfold compose, lit in Hc. apply N.eqb_eq in Hc as <-. done.
    + intros [-> ->]. exists (w ++ s'), caps. split; [|by apply IH].
      split; [|done]. exists c. split; [done|]. unfold compose, lit. apply N.eqb_refl.
Qed.

Lemma derives_str_i (word s : list N) (caps : gmap nat (list N)) s' caps' :
  derives (str_i word) s caps s' caps' ↔
  ∃ w, s = w ++ s' ∧ same_letters word w ∧ caps' = caps.
Proof.
  unfold str_i, seq_of, same_letters. revert s caps.
  induction word as [|c word IH]; intros s caps; cbn [fmap list_fmap foldr derives].
  - split.
    + intros [-> ->]. exists []. split_and!; [done|constructor|done].
    + intros (w & -> & Hw & ->). by apply Forall2_nil_inv_l in Hw as ->.
  - split.
    + intros (s1 & caps1 & [(c' & -> & Hc) ->] & (w & -> & Hw & ->)%IH).
      exists (c' :: w). split_and!; [done|by constructor|done].
    + intros (w & -> & Hw & ->).
      apply Forall2_cons_inv_l in Hw as (c' & w' & Hc & Hw & ->).
      exists (w' ++ s'), caps. split; [|apply IH; by exists w'].
      split; [|done]. by exists c'.
Qed.

Lemma derives_group_rep (i : nat) (p : N → bool) lo hi (s : list N)
    (caps : gmap nat (list N)) s' caps' :
  derives (Group i (Rep p lo hi)) s caps s' caps' ↔
  ∃ w, s = w ++ s' ∧ Forall (fun c => p c = true) w ∧ (lo ≤ length w)%nat
       ∧ from_option (fun h => (length w ≤ h)%nat) True hi
       ∧ caps' = <[i := w]> caps.
Proof.
  cbn [derives]. split.
  - intros (caps1 & [(w & -> & Hw & Hlo & Hh) ->] & ->). exists w.
    split_and!; try done. rewrite length_app.
    replace (length w + length s' - length s')%nat with (length w) by lia.
    by rewrite take_app_length.
  - intros (w & -> & Hw & Hlo & Hh & ->). exists caps. split.
    + split; [|done]. by exists w.
    + rewrite length_app.
      replace (length w + length s' - length s')%nat with (length w) by lia.
      by rewrite take_app_length.
Qed.

Lemma derives_filename (t after : list N) (caps : gmap nat (list N)) :
  derives pipelines.SP_RIBEIRAO_PRETO_PDF_FILENAME t ∅ after caps ↔
  ∃ f, t = filename_component f ++ after ∧ f ≠ [] ∧ (34%N ∉ f) ∧ caps = {[ 1%nat := f ]}.
Proof.
  unfold pipelines.SP_RIBEIRAO_PRETO_PDF_FILENAME, seq_of, filename_component.
  cbn [foldr]. split.
  - intros (s1 & c1 & H1 & s2 & c2 & H2 & s3 & c3 & H3 & s4 & c4 & H4 & H5).
    apply derives_str_lit in H1 as [-> ->].
    destruct H2 as [(q1 & -> & Hq1) ->]. apply N.eqb_eq in Hq1 as <-.
    apply derives_group_rep in H3 as (f & -> & Hf & Hlen & _ & ->).
    destruct H4 as [(q2 & -> & Hq2) ->]. apply N.eqb_eq in Hq2 as <-.
    destruct H5 as [-> ->].
    exists f. split_and!.
    + by rewrite <- !app_assoc.
    + intros ->. simpl in Hlen. lia.
    + intros Hin. rewrite Forall_forall in Hf. specialize (Hf _ Hin). done.
    + done.
  - intros (f & -> & Hne & Hq & ->).
    exists ([34%N] ++ f ++ [34%N] ++ after), ∅. split.
    { apply derives_str_lit. by rewrite <- !app_assoc. }
    exists (f ++ [34%N] ++ after), ∅. split.
    { split; [|done]. by exists 34%N. }
    exists ([34%N] ++ after), {[ 1%nat := f ]}. split.
    { apply derives_group_rep. exists f. split_and!; try done.
      - apply Forall_forall. intros c Hc. apply negb_true_iff, N.eqb_neq. by intros ->.
      - destruct f; [done | simpl; lia]. }
    exists after, {[ 1%nat := f ]}. split; [|done].
    split; [|done]. by exists 34%N.
Qed.

(** X7. The content-sniffing path function returns a path exactly when
    the item has a territory and the response has a Content-Disposition
    header in which [filename="f"] occurs for some non-empty [f] without a
    double quote, and the name it hashes is such an [f]. It raises
    [AttributeError] exactly when the header is there without such a
    component, and [KeyError] otherwise. *)
Theorem file_path_for_sp_ribeirao_preto_result (request : Request)
    (response : pipelines.QueridoDiarioFilesPipeline.Response) (item : Gazette) :
  let header :=
    pipelines.QueridoDiarioFilesPipeline.headers response !! u "Content-Disposition" in
  let well_formed_header :=
    ∃ content_disposition before f after,
      header = Some content_disposition
      ∧ content_disposition = before ++ filename_component f ++ after
      ∧ f ≠ [] ∧ 34%N ∉ f in
  let result :=
    pipelines.QueridoDiarioFilesPipeline.file_path_for_sp_ribeirao_preto
      request response item in
  ((∃ path, result = inr path) ↔ (well_formed_header ∧ is_Some (territory_id item))) ∧
  (∀ path, result = inr path →
     ∃ content_disposition before f after territory,
       header = Some content_disposition
       ∧ content_disposition = before ++ filename_component f ++ after
       ∧ f ≠ [] ∧ (34%N ∉ f)
       ∧ territory_id item = Some territory
       ∧ path = pathlib.str
                  (pathlib.Path
                     [territory; isoformat (item_date item); hashlib.sha1_hexdigest f])) ∧
  (result = inl AttributeError ↔ (is_Some header ∧ ¬ well_formed_header)) ∧
  (∀ e, result = inl e → e = KeyError ∨ e = AttributeError).
Proof.
  intros header well_formed_header result. subst header well_formed_header result.
  unfold pipelines.QueridoDiarioFilesPipeline.file_path_for_sp_ribeirao_preto.
  destruct (pipelines.QueridoDiarioFilesPipeline.headers response !! u "Content-Disposition")
    as [cd|] eqn:Hh.
  2:{ split_and!.
      - split; [by intros [? ?] | by intros [(? & ? & ? & ? & ? & _) _]].
      - done.
      - split; [done | by intros [[? ?] _]].
      - intros e [= <-]. by left. }
  destruct (search pipelines.SP_RIBEIRAO_PRETO_PDF_FILENAME cd) as [m|] eqn:Hs.
  2:{ assert (¬ ∃ content_disposition before f after : list N,
                  Some cd = Some content_disposition
                  ∧ content_disposition = before ++ filename_component f ++ after
                  ∧ f ≠ [] ∧ 34%N ∉ f) as Hnot.
      { intros (cd' & before & f & after & [= <-] & -> & Hne & Hq).
        assert (is_Some (search pipelines.SP_RIBEIRAO_PRETO_PDF_FILENAME
                           (before ++ filename_component f ++ after))) as [? Hsome].
        { eapply search_complete. apply derives_filename. by exists f. }
        congruence. }
      split_and!.
      - split; [by intros [? ?] | by intros [? _]].
      - done.
      - split; [done | done].
      - intros e [= <-]. by right. }
  apply search_sound in Hs as (before & t & after & -> & Hd).
  apply derives_filename in Hd as (f & -> & Hne & Hq & ->).
  unfold group. rewrite lookup_singleton_eq. cbn [default].
  assert (∃ content_disposition before0 f0 after0 : list N,
            Some (before ++ filename_component f ++ after) = Some content_disposition
            ∧ content_disposition = before0 ++ filename_component f0 ++ after0
            ∧ f0 ≠ [] ∧ 34%N ∉ f0) as Hwf
    by (by eexists _, before, f, after).
  destruct (territory_id item) as [territory|].
  - split_and!.
    + split; [done | by eexists].
    + intros path [= <-]. by eexists _, before, f, after, territory.
    + split; [done | by intros [_ ?]].
    + done.
  - split_and!.
    + split; [by intros [? ?] | by intros [_ [? ?]]].
    + done.
    + split; [done | by intros [_ ?]].
    + intros e [= <-]. by left.
Qed.

Lemma is_digit_tolower (c : N) : is_digit c = true → unicode_tolower c = c.
Proof.
  unfold is_digit, unicode_tolower. intros [H1 H2]%andb_true_iff.
  apply N.leb_le in H1, H2.
  repeat match goal with
         | |- context [(?a <=? ?b)%N] => destruct (N.leb_spec a b); try lia
         | |- context [(?a =? ?b)%N] => destruct (N.eqb_spec a b); try lia
         end; simpl; done.
Qed.

Lemma not_digit_spec (c : N) : not_digit c = true → is_digit c = false.
Proof.
  unfold not_digit. intros H%negb_true_iff.
  destruct (is_digit c) eqn:Hd; [|done]. by rewrite (is_digit_tolower c Hd), Hd in H.
Qed.

Lemma derives_seq_cons (r : regex) (rs : list regex) (s : list N)
    (caps : gmap nat (list N)) s' caps' :
  derives (seq_of (r :: rs)) s caps s' caps' ↔
  ∃ s1 caps1, derives r s caps s1 caps1 ∧ derives (seq_of rs) s1 caps1 s' caps'.
Proof. done. Qed.

(** What the groups of a match of the text pattern are: group 1 is a
    non-empty run of digits, group 2 has no digit, groups 3 to 5 are four,
    two and two digits. *)
Lemma text_pattern_captures (s : list N) (m : gmap nat (list N)) :
  search POST_2013_SPLIT_GAZETTE_TEXT_PATTERN s = Some m →
  (group m 1 ≠ [] ∧ Forall (fun c => is_digit c = true) (group m 1))
  ∧ Forall (fun c => is_digit c = false) (group m 2)
  ∧ (length (group m 3) = 4%nat ∧ Forall (fun c => is_digit c = true) (group m 3))
  ∧ (length (group m 4) = 2%nat ∧ Forall (fun c => is_digit c = true) (group m 4))
  ∧ (length (group m 5) = 2%nat ∧ Forall (fun c => is_digit c = true) (group m 5)).
Proof.
  intros (before & t & after & _ & Hd)%search_sound.
  unfold POST_2013_SPLIT_GAZETTE_TEXT_PATTERN in Hd.
  apply derives_seq_cons in Hd as (s1 & c1 & (_ & _ & _ & ->)%derives_str_i & Hd).
  apply derives_seq_cons in Hd as (s2 & c2 & [_ ->] & Hd).
  apply derives_seq_cons in Hd
    as (s3 & c3 & (w1 & _ & Hw1 & Hl1 & _ & ->)%derives_group_rep & Hd).
  apply derives_seq_cons in Hd as (s4 & c4 & [_ ->] & Hd).
  apply derives_seq_cons in Hd as (s5 & c5 & [_ ->] & Hd).
  apply derives_seq_cons in Hd as (s6 & c6 & [_ ->] & Hd).
  apply derives_seq_cons in Hd
    as (s7 & c7 & (w2 & _ & Hw2 & _ & _ & ->)%derives_group_rep & Hd).
  apply derives_seq_cons in Hd as (s8 & c8 & [_ ->] & Hd).
  apply derives_seq_cons in Hd as (s9 & c9 & [_ ->] & Hd).
  apply derives_seq_cons in Hd as (s10 & c10 & [_ ->] & Hd).
  apply derives_seq_cons in Hd
    as (s11 & c11 & (w3 & _ & Hw3 & Hl3 & Hh3 & ->)%derives_group_rep & Hd).
  apply derives_seq_cons in Hd as (s12 & c12 & [_ ->] & Hd).
  apply derives_seq_cons in Hd
    as (s13 & c13 & (w4 & _ & Hw4 & Hl4 & Hh4 & ->)%derives_group_rep & Hd).
  apply derives_seq_cons in Hd as (s14 & c14 & [_ ->] & Hd).
  apply derives_seq_cons in Hd
    as (s15 & c15 & (w5 & _ & Hw5 & Hl5 & Hh5 & ->)%derives_group_rep & [_ ->]).
  unfold group. simpl in Hh3, Hh4, Hh5.
  assert (∀ i (w : list N) (c : gmap nat (list N)), default [] (<[i := w]> c !! i) = w)
    as Hsame by (intros; by rewrite lookup_insert_eq).
  assert (∀ i j (w : list N) (c : gmap nat (list N)),
            i ≠ j → default [] (<[i := w]> c !! j) = default [] (c !! j))
    as Hother by (intros; by rewrite lookup_insert_ne).
  repeat (rewrite ?Hsame; rewrite ?Hother by done).
  split_and!; try done; try lia.
  - intros ->. simpl in Hl1. lia.
  - eapply Forall_impl; [exact Hw2|]. apply not_digit_spec.
Qed.

(** X8. The edition number of every record a page yields is a non-empty
    run of the digits 0 to 9: it is group 1 of the text pattern. *)
Theorem page_records_edition_number (self : Spider) (response : Response) (year : Z)
    (g : Gazette) :
  g ∈ yielded (parse_year_post_2013_split self response year) →
  ∃ ed, edition_number g = Some ed ∧ ed ≠ []
        ∧ Forall (fun c => is_digit c = true) ed.
Proof.
  intros Hg.
  destruct (page_record_provenance _ _ _ _ Hg) as (ed & extra & Hgz & (n & text & url & _ & Hp) & _).
  apply parse_entry_Registered in Hp as (m & Hm & _ & _ & -> & _).
  apply text_pattern_captures in Hm as ([Hne Hd] & _).
  exists (group m 1). rewrite Hgz. done.
Qed.

Lemma page_records_edition_number_witness :
  ∃ ed, edition_number (gazette_of (Date 2013 6 3, u "1586", false)
                          [u "https://diariooficialjp.com.br/pdf/2013-06-03.pdf"])
        = Some ed ∧ ed ≠ [] ∧ Forall (fun c => is_digit c = true) ed.
Proof.
  apply (page_records_edition_number Sample.spider Sample.page_2013 2013).
  assert (yielded (parse_year_post_2013_split Sample.spider Sample.page_2013 2013)
          = [gazette_of (Date 2013 6 3, u "1586", false)
               [u "https://diariooficialjp.com.br/pdf/2013-06-03.pdf"]]) as ->
    by (vm_compute; reflexivity).
  left.
Defined.

Lemma derives_opt_i (c : N) (s : list N) (caps : gmap nat (list N)) s' caps' :
  derives (opt_i c) s caps s' caps' ↔
  (s = s' ∨ ∃ ch, s = ch :: s' ∧ lit_i c ch = true) ∧ caps' = caps.
Proof.
  unfold opt_i. cbn [derives from_option]. split.
  - intros [(w & -> & Hw & _ & Hh) ->]. split; [|done].
    destruct w as [|ch [|? ?]]; [by left| |simpl in Hh; lia].
    right. exists ch. split; [done|]. by apply Forall_cons in Hw as [? _].
  - intros [[->|(ch & -> & Hc)] ->]; (split; [|done]).
    + exists []. split_and!; [done|constructor|simpl; lia|simpl; lia].
    + exists [ch]. split_and!; [done|by repeat constructor|simpl; lia|simpl; lia].
Qed.

Lemma same_letters_app (word1 word2 w1 w2 : list N) :
  same_letters word1 w1 → same_letters word2 w2 → same_letters (word1 ++ word2) (w1 ++ w2).
Proof. apply Forall2_app. Qed.

Lemma same_letters_app_inv (word1 word2 w : list N) :
  same_letters (word1 ++ word2) w →
  ∃ w1 w2, w = w1 ++ w2 ∧ same_letters word1 w1 ∧ same_letters word2 w2.
Proof.
  intros (w1 & w2 & H1 & H2 & ->)%Forall2_app_inv_l. by exists w1, w2.
Qed.

(** The first alternative, [sum?ple?mento]. *)
Lemma derives_suplemento (t after : list N) (caps caps' : gmap nat (list N)) :
  derives (seq_of [ str_i (u "su"); opt_i 109; str_i (u "pl"); opt_i 101;
                    str_i (u "mento") ]) t caps after caps' ↔
  ∃ w, t = w ++ after ∧ caps' = caps
       ∧ (same_letters (u "suplemento") w ∨ same_letters (u "sumplemento") w
          ∨ same_letters (u "suplmento") w ∨ same_letters (u "sumplmento") w).
Proof.
  split.
  - intros (s1 & c1 & (w1 & -> & H1 & ->)%derives_str_i & Hd)%derives_seq_cons.
    apply derives_seq_cons in Hd as (s2 & c2 & [Hm ->]%derives_opt_i & Hd).
    apply derives_seq_cons in Hd as (s3 & c3 & (w2 & -> & H2 & ->)%derives_str_i & Hd).
    apply derives_seq_cons in Hd as (s4 & c4 & [He ->]%derives_opt_i & Hd).
    apply derives_seq_cons in Hd
      as (s5 & c5 & (w3 & -> & H3 & ->)%derives_str_i & [-> ->]).
    destruct Hm as [->|(m & -> & Hm)], He as [->|(e & -> & He)].
    + exists (w1 ++ w2 ++ w3). split_and!; [by rewrite <- !app_assoc|done|].
      do 2 right. left.
      change (u "suplmento") with (u "su" ++ u "pl" ++ u "mento").
      by repeat apply same_letters_app.
    + exists (w1 ++ w2 ++ [e] ++ w3). split_and!; [by rewrite <- !app_assoc|done|].
      left. change (u "suplemento") with (u "su" ++ u "pl" ++ [101%N] ++ u "mento").
      repeat apply same_letters_app; try done. by repeat constructor.
    + exists (w1 ++ [m] ++ w2 ++ w3). split_and!; [by rewrite <- !app_assoc|done|].
      do 3 right. change (u "sumplmento") with (u "su" ++ [109%N] ++ u "pl" ++ u "mento").
      repeat apply same_letters_app; try done. by repeat constructor.
    + exists (w1 ++ [m] ++ w2 ++ [e] ++ w3).
      split_and!; [by rewrite <- !app_assoc|done|].
      right. left.
      change (u "sumplemento")
        with (u "su" ++ [109%N] ++ u "pl" ++ [101%N] ++ u "mento").
      repeat apply same_letters_app; try done; by repeat constructor.
  - intros (w & -> & -> & Hw).
    assert (∃ w1 wm w2 we w3,
              w = w1 ++ wm ++ w2 ++ we ++ w3
              ∧ same_letters (u "su") w1 ∧ same_letters (u "pl") w2
              ∧ same_letters (u "mento") w3
              ∧ (wm = [] ∨ ∃ ch, wm = [ch] ∧ lit_i 109 ch = true)
              ∧ (we = [] ∨ ∃ ch, we = [ch] ∧ lit_i 101 ch = true))
      as (w1 & wm & w2 & we & w3 & -> & H1 & H2 & H3 & Hm & He).
    { destruct Hw as [Hw|[Hw|[Hw|Hw]]].
      - change (u "suplemento") with (u "su" ++ u "pl" ++ [101%N] ++ u "mento") in Hw.
        apply same_letters_app_inv in Hw as (w1 & r1 & -> & H1 & Hw).
        apply same_letters_app_inv in Hw as (w2 & r2 & -> & H2 & Hw).
        apply same_letters_app_inv in Hw as (we & w3 & -> & He & H3).
        apply Forall2_cons_inv_l in He as (e & ? & He & ->%Forall2_nil_inv_l & ->).
        exists w1, [], w2, [e], w3. split_and!; try done; [by left | right; by exists e].
      - change (u "sumplemento")
          with (u "su" ++ [109%N] ++ u "pl" ++ [101%N] ++ u "mento") in Hw.
        apply same_letters_app_inv in Hw as (w1 & r1 & -> & H1 & Hw).
        apply same_letters_app_inv in Hw as (wm & r2 & -> & Hm & Hw).
        apply same_letters_app_inv in Hw as (w2 & r3 & -> & H2 & Hw).
        apply same_letters_app_inv in Hw as (we & w3 & -> & He & H3).
        apply Forall2_cons_inv_l in Hm as (m & ? & Hm & ->%Forall2_nil_inv_l & ->).
        apply Forall2_cons_inv_l in He as (e & ? & He & ->%Forall2_nil_inv_l & ->).
        exists w1, [m], w2, [e], w3.
        split_and!; try done; [right; by exists m | right; by exists e].
      - change (u "suplmento") with (u "su" ++ u "pl" ++ u "mento") in Hw.
        apply same_letters_app_inv in Hw as (w1 & r1 & -> & H1 & Hw).
        apply same_letters_app_inv in Hw as (w2 & w3 & -> & H2 & H3).
        exists w1, [], w2, [], w3. split_and!; try done; by left.
      - change (u "sumplmento") with (u "su" ++ [109%N] ++ u "pl" ++ u "mento") in Hw.
        apply same_letters_app_inv in Hw as (w1 & r1 & -> & H1 & Hw).
        apply same_letters_app_inv in Hw as (wm & r2 & -> & Hm & Hw).
        apply same_letters_app_inv in Hw as (w2 & w3 & -> & H2 & H3).
        apply Forall2_cons_inv_l in Hm as (m & ? & Hm & ->%Forall2_nil_inv_l & ->).
        exists w1, [m], w2, [], w3.
        split_and!; try done; [right; by exists m | by left]. }
    apply derives_seq_cons. exists ((wm ++ w2 ++ we ++ w3) ++ after), caps.
    split; [apply derives_str_i; exists w1; by rewrite <- !app_assoc|].
    apply derives_seq_cons. exists ((w2 ++ we ++ w3) ++ after), caps. split.
    { apply derives_opt_i. split; [|done].
      destruct Hm as [->|(ch & -> & Hc)]; [by left | right; by exists ch]. }
    apply derives_seq_cons. exists ((we ++ w3) ++ after), caps.
    split; [apply derives_str_i; exists w2; by rewrite <- !app_assoc|].
    apply derives_seq_cons. exists (w3 ++ after), caps. split.
    { apply derives_opt_i. split; [|done].
      destruct He as [->|(ch & -> & Hc)]; [by left | right; by exists ch]. }
    apply derives_seq_cons. exists after, caps.
    split; [apply derives_str_i; by exists w3 | done].
Qed.

(** X9. A string tells an extra edition exactly when it contains, but for
    the case of the letters, one of suplemento, sumplemento, suplmento,
    sumplmento and extraordinária. *)
Theorem extra_edition_pattern_matches (s : pystr) :
  bool_of_match (search IS_EXTRA_EDITION_PATTERN s) = true ↔
  ∃ before w after word,
    s = before ++ w ++ after ∧ word ∈ extra_edition_spellings ∧ same_letters word w.
Proof.
  split.
  - destruct (search IS_EXTRA_EDITION_PATTERN s) as [m|] eqn:Hs; [intros _|done].
    apply search_sound in Hs as (before & t & after & -> & Hd).
    unfold IS_EXTRA_EDITION_PATTERN in Hd. cbn [derives] in Hd.
    destruct Hd as (caps1 & [Hd|Hd] & _).
    + apply derives_suplemento in Hd as (w & -> & _ & Hw).
      unfold extra_edition_spellings.
      destruct Hw as [Hw|[Hw|[Hw|Hw]]].
      * exists before, w, after, (u "suplemento"). split_and!; [done|left|done].
      * exists before, w, after, (u "sumplemento").
        split_and!; [done|right; left|done].
      * exists before, w, after, (u "suplmento").
        split_and!; [done|do 2 right; left|done].
      * exists before, w, after, (u "sumplmento").
        split_and!; [done|do 3 right; left|done].
    + apply derives_str_i in Hd as (w & -> & Hw & _).
      exists before, w, after, (u "extraordin" ++ [225%N] ++ u "ria").
      split_and!; [done|do 4 right; left|done].
  - intros (before & w & after & word & -> & Hin & Hw).
    assert (is_Some (search IS_EXTRA_EDITION_PATTERN (before ++ w ++ after))) as [m ->];
      [|done].
    assert (∃ caps, derives IS_EXTRA_EDITION_PATTERN (w ++ after) ∅ after caps)
      as [caps Hd]; [|by eapply search_complete].
    unfold IS_EXTRA_EDITION_PATTERN. cbn [derives]. eexists. exists ∅. split; [|done].
    unfold extra_edition_spellings in Hin.
    apply elem_of_cons in Hin as [->|Hin].
    { left. apply derives_suplemento. exists w. split_and!; [done|done|by left]. }
    apply elem_of_cons in Hin as [->|Hin].
    { left. apply derives_suplemento. exists w. split_and!; [done|done|right; by left]. }
    apply elem_of_cons in Hin as [->|Hin].
    { left. apply derives_suplemento. exists w.
      split_and!; [done|done|do 2 right; by left]. }
    apply elem_of_cons in Hin as [->|Hin].
    { left. apply derives_suplemento. exists w.
      split_and!; [done|done|by do 3 right]. }
    apply list_elem_of_singleton in Hin as ->.
    right. apply derives_str_i. by exists w.
Qed.

(* ===================================================================== *)
(** ** What finalization emits and logs *)
(* ===================================================================== *)

(** X10. Every URL of an emitted record is the URL of a call made for the
    record's GroupKey, and not of a call that was left out: a record dated
    2014-08-28 only has URLs that end with [.pdf]. *)
Theorem yielded_urls_registered (calls : list Registration) (g : Gazette) (url : pystr) :
  g ∈ yielded (_yield_gazettes (register_all [] calls)) →
  url ∈ file_urls g →
  (∃ c, c ∈ calls ∧ reg_key c = group_key g ∧ reg_url c = url ∧ left_out c = false)
  ∧ (item_date g = Date 2014 8 28 → endswith url (u ".pdf") = true).
Proof.
  intros Hg Hu.
  pose proof (register_all_well_formed calls [] well_formed_nil) as Hwf.
  destruct (yield_gazettes_spec _ Hwf) as [_ Hy]. rewrite Hy in Hg. clear Hy.
  apply list_elem_of_omap in Hg as ([k m] & Hin & Hr).
  pose proof (group_key_record_of _ _ _ Hr) as Hk.
  destruct (record_of_urls _ _ _ _ Hr Hu) as (t & s & Hs & Hus).
  assert (url ∈ urls_at (register_all [] calls) k t) as Hat.
  { unfold urls_at. rewrite (elem_dict_get _ _ _ (proj1 Hwf) Hin). cbn. by rewrite Hs. }
  apply registered_urls in Hat as (c & Hc & Hl & Hck & _ & Hcu).
  split; [exists c; by rewrite Hk|].
  intros Hd. unfold left_out in Hl.
  assert (reg_date c = Date 2014 8 28) as Hcd.
  { rewrite <- Hd. unfold group_key in Hk. rewrite <- Hck in Hk. unfold reg_key in Hk.
    by injection Hk as -> _ _. }
  rewrite bool_decide_eq_true_2 in Hl by done. simpl in Hl.
  apply negb_false_iff in Hl. by rewrite <- Hcu.
Qed.

Lemma first_occurrences_snoc (l : list (date * list N * bool)) (k : date * list N * bool) :
  first_occurrences (l ++ [k])
  = if bool_decide (k ∈ first_occurrences l) then first_occurrences l
    else first_occurrences l ++ [k].
Proof.
  unfold first_occurrences. rewrite reverse_snoc. cbn [remove_dups].
  destruct (decide_rel elem_of k (reverse l)) as [Hin|Hnin].
  - rewrite bool_decide_eq_true_2; [done|].
    by apply elem_of_reverse, elem_of_remove_dups.
  - rewrite bool_decide_eq_false_2, ?reverse_cons; [done|].
    intros Hin. apply Hnin. rewrite elem_of_reverse in Hin.
    by rewrite elem_of_remove_dups in Hin.
Qed.

(** The keys of the page's dict are the GroupKeys of the calls not left
    out, in the order of their first occurrence. *)
Lemma register_all_keys (cs : list Registration) :
  (register_all [] cs).*1 = registered_keys cs.
Proof.
  induction cs as [|c cs IH] using rev_ind; [done|].
  rewrite register_all_snoc, register_fst. unfold registered_keys in *.
  rewrite List.filter_app, fmap_app. cbn [List.filter].
  destruct (left_out c); cbn [negb].
  - by rewrite app_nil_r.
  - cbn [fmap list_fmap]. by rewrite first_occurrences_snoc, dict_set_keys, IH.
Qed.

Lemma yielded_keys (d : list ((date * list N * bool) * gmap (list N) (gset (list N)))) :
  NoDup d.*1 →
  group_key <$> omap (fun '(k, m) => record_of k m) d
  = List.filter (fun k => negb (in_conflict (default ∅ (dict_get d k)))) d.*1.
Proof.
  induction d as [|[k m] d IH]; [done|].
  rewrite fmap_cons. cbn [fst]. intros [Hk Hnd]%NoDup_cons.
  cbn [omap list_omap List.filter dict_get]. rewrite decide_True by done. cbn [default].
  fold (omap (fun '(k, m) => record_of k m) d).
  assert (List.filter
            (fun k0 => negb (in_conflict
               (default ∅ (if decide (k = k0) then Some m else dict_get d k0)))) d.*1
          = List.filter (fun k0 => negb (in_conflict (default ∅ (dict_get d k0)))) d.*1)
    as ->.
  { apply List.filter_ext_in. intros k0 Hin%list_elem_of_In.
    rewrite decide_False; [done|]. by intros ->. }
  rewrite <- (IH Hnd).
  unfold id. destruct (record_of k m) as [g|] eqn:Hr.
  - rewrite fmap_cons, (group_key_record_of _ _ _ Hr). unfold record_of in Hr.
    destruct (in_conflict m); [done|]. done.
  - unfold record_of in Hr. destruct (in_conflict m); [done|]. done.
Qed.

(** X11. The records of a page come in the order in which their GroupKeys
    were first registered, one for each GroupKey that has no PartKey with
    more than one URL. *)
Theorem yield_order (calls : list Registration) :
  let d := register_all [] calls in
  group_key <$> yielded (_yield_gazettes d)
  = List.filter (fun k => negb (in_conflict (default ∅ (dict_get d k))))
      (registered_keys calls)
  ∧ NoDup (group_key <$> yielded (_yield_gazettes d)).
Proof.
  intros d.
  pose proof (register_all_well_formed calls [] well_formed_nil) as Hwf.
  destruct (yield_gazettes_spec _ Hwf) as [_ Hy]. fold d in Hy, Hwf.
  assert (group_key <$> yielded (_yield_gazettes d)
          = List.filter (fun k => negb (in_conflict (default ∅ (dict_get d k))))
              (registered_keys calls)) as Heq.
  { rewrite Hy, yielded_keys by apply Hwf. by rewrite <- register_all_keys. }
  split; [done|]. rewrite Heq, <- register_all_keys.
  apply NoDup_ListNoDup, List.NoDup_filter, NoDup_ListNoDup, Hwf.
Qed.

Lemma yielded_urls_registered_witness :
  yielded (_yield_gazettes (register_all [] Sample.known_bad_entry))
  = [gazette_of Sample.key_1892 [Sample.url_1892]]
  ∧ (∃ c, c ∈ Sample.known_bad_entry
          ∧ reg_key c = group_key (gazette_of Sample.key_1892 [Sample.url_1892])
          ∧ reg_url c = Sample.url_1892 ∧ left_out c = false)
  ∧ (item_date (gazette_of Sample.key_1892 [Sample.url_1892]) = Date 2014 8 28
     → endswith Sample.url_1892 (u ".pdf") = true).
Proof.
  assert (yielded (_yield_gazettes (register_all [] Sample.known_bad_entry))
          = [gazette_of Sample.key_1892 [Sample.url_1892]]) as Hy
    by (vm_compute; reflexivity).
  split; [exact Hy|].
  apply (yielded_urls_registered Sample.known_bad_entry
           (gazette_of Sample.key_1892 [Sample.url_1892]) Sample.url_1892).
  - rewrite Hy. left.
  - left.
Defined.

Lemma length_filter_Permutation {A} (f : A → bool) (l l' : list A) :
  l ≡ₚ l' → length (List.filter f l) = length (List.filter f l').
Proof.
  induction 1 as [|x l l' _ IH|x y l|l l' l'' _ IH1 _ IH2]; simpl.
  - done.
  - destruct (f x); simpl; by rewrite IH.
  - by destruct (f x), (f y).
  - by rewrite IH1.
Qed.

Lemma dom_keys_Permutation (m : gmap (list N) (gset (list N))) :
  sorted (elements (dom m)) ≡ₚ (map_to_list m).*1.
Proof.
  unfold sorted. rewrite merge_sort_Permutation.
  apply NoDup_Permutation; [apply NoDup_elements | apply NoDup_fst_map_to_list |].
  intros t. rewrite elem_of_elements, elem_of_dom, list_elem_of_fmap. split.
  - intros [s Hs]. exists (t, s). split; [done | by apply elem_of_map_to_list].
  - intros ([t' s] & -> & Hin%elem_of_map_to_list). by exists s.
Qed.

(** The PartKeys of a group that are in conflict are as many as its
    entries with more than one URL. *)
Lemma conflict_count (m : gmap (list N) (gset (list N))) :
  length (List.filter (conflict_at m) (sorted (elements (dom m))))
  = length (List.filter (fun '(_, url_set) => bool_decide (1 < size url_set)%nat)
              (map_to_list m)).
Proof.
  rewrite (length_filter_Permutation _ _ _ (dom_keys_Permutation m)).
  assert (∀ l : list (list N * gset (list N)),
            (∀ t s, (t, s) ∈ l → m !! t = Some s) →
            length (List.filter (conflict_at m) l.*1)
            = length (List.filter
                        (fun '(_, url_set) => bool_decide (1 < size url_set)%nat) l))
    as Hl.
  { induction l as [|[t s] l IH]; intros Hin; [done|].
    rewrite fmap_cons. cbn [fst List.filter]. unfold conflict_at at 1.
    rewrite (Hin t s) by left. cbn [default].
    specialize (IH (fun t' s' H' => Hin t' s' (list_elem_of_further _ _ _ H'))).
    unfold id. destruct (bool_decide (1 < size s)%nat); simpl; by rewrite IH. }
  apply Hl. intros t s. apply elem_of_map_to_list.
Qed.

Lemma collect_urls_logs (gd : date) (ed : list N) (m : gmap (list N) (gset (list N)))
    (keys : list (list N)) (flag : bool) (urls : list (list N)) :
  (∀ t, t ∈ keys → ∃ s, m !! t = Some s ∧ s ≠ ∅) →
  Forall (fun l => log_level l = ERROR) (collect_urls gd ed m keys flag urls).1
  ∧ length (collect_urls gd ed m keys flag urls).1
    = length (List.filter (conflict_at m) keys).
Proof.
  revert flag urls. induction keys as [|t keys IH]; intros flag urls Hk; simpl.
  - split; [constructor | done].
  - destruct (Hk t) as (s & Hs & Hne); [left|].
    unfold conflict_at at 1. rewrite Hs. simpl.
    assert (∀ t', t' ∈ keys → ∃ s, m !! t' = Some s ∧ s ≠ ∅) as Hk'
      by (intros; apply Hk; by right).
    case_bool_decide as Hc; simpl.
    + destruct (IH false urls Hk') as [IH1 IH2].
      destruct (collect_urls gd ed m keys false urls) as [logs r]. simpl in *.
      split; [by constructor | by rewrite IH2].
    + destruct (elements s) as [|url rest] eqn:He.
      { exfalso. apply Hne. apply leibniz_equiv. by apply elements_empty_inv. }
      apply IH, Hk'.
Qed.

Lemma yield_gazettes_logs (d : list ((date * list N * bool) * gmap (list N) (gset (list N)))) :
  well_formed d →
  Forall (fun l => log_level l = ERROR) (logged (_yield_gazettes d))
  ∧ length (logged (_yield_gazettes d)) = conflicting_parts d.
Proof.
  unfold conflicting_parts.
  induction d as [|[[[gd ed] ex] m] d IH]; intros [Hnd Hne]; [split; [constructor|done]|].
  destruct IH as [IH1 IH2].
  { split; [by apply NoDup_cons in Hnd as [_ ?]|].
    intros k' m' Hin. eapply Hne. by right. }
  assert (∀ t, t ∈ sorted (elements (dom m)) → ∃ s, m !! t = Some s ∧ s ≠ ∅) as Hk.
  { intros t Hin. apply sorted_elem_of, elem_of_elements, elem_of_dom in Hin as [s Hs].
    exists s. split; [done|]. eapply (Hne _ m); [left|done]. }
  cbn [_yield_gazettes]. rewrite fmap_cons. cbn [sum_list sum_list_with].
  pose proof (collect_urls_spec gd ed m (sorted (elements (dom m))) true [] Hk) as Hc.
  destruct (collect_urls_logs gd ed m (sorted (elements (dom m))) true [] Hk) as [Hl1 Hl2].
  destruct (collect_urls gd ed m (sorted (elements (dom m))) true []) as [logs r].
  simpl in Hc, Hl1, Hl2. rewrite Hc. rewrite conflict_count in Hl2.
  destruct (forallb _ (sorted (elements (dom m)))); cbn [log_then yield_then logged];
    (split; [by apply Forall_app | by rewrite length_app, Hl2, IH2]).
Qed.

(** X12. Finalization logs one ERROR for each PartKey of the page's dict
    that holds more than one URL, and nothing else. *)
Theorem conflicts_logged (calls : list Registration) :
  let run := _yield_gazettes (register_all [] calls) in
  Forall (fun l => log_level l = ERROR) (logged run)
  ∧ length (logged run) = conflicting_parts (register_all [] calls).
Proof.
  intros run. apply yield_gazettes_logs, register_all_well_formed, well_formed_nil.
Qed.

(* ===================================================================== *)
(** ** The default values *)
(* ===================================================================== *)

(** X13. The defaults fail, with [AttributeError], exactly when the item
    has no [territory_id] and the spider has no [TERRITORY_ID]. Otherwise
    the item returned has both fields, every value the item had is kept,
    and a second pass, for any spider and at any time, changes nothing. *)
Theorem default_values_result (item : Gazette) (TERRITORY_ID : option pystr) (utcnow : Z) :
  let result := pipelines.DefaultValuesPipeline.process_item item TERRITORY_ID utcnow in
  (result = inl AttributeError ↔ territory_id item = None ∧ TERRITORY_ID = None)
  ∧ (∀ e, result = inl e → e = AttributeError)
  ∧ (∀ item', result = inr item' →
       territory_id item'
       = match territory_id item with Some t => Some t | None => TERRITORY_ID end
       ∧ is_Some (territory_id item')
       ∧ scraped_at item' = Some (default utcnow (scraped_at item))
       ∧ (item_date item' = item_date item
          ∧ edition_number item' = edition_number item
          ∧ is_extra_edition item' = is_extra_edition item
          ∧ power item' = power item
          ∧ source_text item' = source_text item
          ∧ file_urls item' = file_urls item
          ∧ file_requests item' = file_requests item
          ∧ files item' = files item)
       ∧ ∀ TERRITORY_ID' utcnow',
           pipelines.DefaultValuesPipeline.process_item item' TERRITORY_ID' utcnow'
           = inr item').
Proof.
  intros result. subst result. unfold pipelines.DefaultValuesPipeline.process_item.
  destruct item as [d en ex pw st sc [t|] fu fr fs]; cbn [territory_id scraped_at].
  - split_and!; [split; [by destruct sc | by intros [? _]] | by destruct sc |].
    destruct sc as [s|]; intros item' [= <-]; cbn; split_and!; by eauto.
  - destruct TERRITORY_ID as [t|]; cbn [territory_id scraped_at].
    + split_and!; [split; [by destruct sc | by intros [_ ?]] | by destruct sc |].
      destruct sc as [s|]; intros item' [= <-]; cbn; split_and!; by eauto.
    + split_and!; [done | by intros e [= <-] | done].
Qed.

(* ===================================================================== *)
(** ** The storage path: what is raised, what is logged *)
(* ===================================================================== *)

Lemma search_filename_nil :
  search pipelines.SP_RIBEIRAO_PRETO_PDF_FILENAME [] = None.
Proof. vm_compute. reflexivity. Qed.

(** X14. [file_path] returns a path exactly when the item has a
    [territory_id], and raises [KeyError] otherwise: whatever the headers
    of the response are, neither the [KeyError] of a missing header nor the
    [AttributeError] of a header without a file name gets out of it. *)
Theorem file_path_raises (media_ext : pystr → pystr) (request : Request)
    (response : option pipelines.QueridoDiarioFilesPipeline.Response) (item : Gazette) :
  let result :=
    (pipelines.QueridoDiarioFilesPipeline.file_path media_ext request response item).2 in
  (is_Some (territory_id item) ↔ ∃ path, result = inr path)
  ∧ (territory_id item = None ↔ result = inl KeyError)
  ∧ (∀ e, result = inl e → e = KeyError).
Proof.
  intros result. subst result.
  unfold pipelines.QueridoDiarioFilesPipeline.file_path,
    pipelines.QueridoDiarioFilesPipeline.url_based_file_path.
  destruct (territory_id item) as [territory|] eqn:Ht.
  2:{ destruct response; cbn [snd]; (split_and!; [|done|by intros e [= <-]]);
        (split; [by intros [? ?] | by intros [? ?]]). }
  assert (∀ r : exn + pystr,
            (∃ path, r = inr path) →
            (is_Some (Some territory) ↔ ∃ path, r = inr path)
            ∧ (Some territory = None ↔ r = inl KeyError)
            ∧ (∀ e, r = inl e → e = KeyError)) as Hpath.
  { intros r [path ->]. split_and!; [split; by eauto | split; done | done]. }
  apply Hpath.
  destruct response as [r|]; [|by eexists].
  destruct (bool_decide (territory = u "3543402")); [|by eexists].
  destruct (pipelines.QueridoDiarioFilesPipeline.headers r !! u "Content-Disposition")
    as [[|c cd]|] eqn:Hh; [by eexists| |by eexists].
  destruct (search pipelines.SP_RIBEIRAO_PRETO_PDF_FILENAME (c :: cd)) as [m|] eqn:Hs;
    cbn [bool_of_match]; [|by eexists].
  unfold pipelines.QueridoDiarioFilesPipeline.file_path_for_sp_ribeirao_preto.
  rewrite Hh, Hs, Ht. by eexists.
Qed.

(** X15. The response only matters for territory 3543402, and only when
    its Content-Disposition header embeds a file name: in every other case
    the path is the one computed without a response. One INFO record is
    logged when a response for territory 3543402 embeds no file name, and
    nothing is logged otherwise. *)
Theorem file_path_fallback (media_ext : pystr → pystr) (request : Request)
    (response : option pipelines.QueridoDiarioFilesPipeline.Response) (item : Gazette) :
  let designated := bool_decide (territory_id item = Some (u "3543402")) in
  let outcome :=
    pipelines.QueridoDiarioFilesPipeline.file_path media_ext request response item in
  (designated = false ∨ sniffed_filename response = None →
   outcome.2
   = (pipelines.QueridoDiarioFilesPipeline.file_path media_ext request None item).2)
  ∧ (if designated && bool_decide (is_Some response)
        && bool_decide (sniffed_filename response = None)
     then ∃ message, outcome.1 = [Log INFO message]
     else outcome.1 = []).
Proof.
  intros designated outcome. subst designated outcome.
  unfold pipelines.QueridoDiarioFilesPipeline.file_path,
    pipelines.QueridoDiarioFilesPipeline.url_based_file_path.
  destruct (territory_id item) as [territory|] eqn:Ht.
  2:{ rewrite bool_decide_eq_false_2 by done. by destruct response. }
  destruct response as [r|]; cbn [sniffed_filename mbind option_bind].
  2:{ split; [done|]. rewrite (bool_decide_eq_false_2 (is_Some None)), andb_false_r; [done|].
      by intros [? ?]. }
  rewrite (bool_decide_eq_true_2 (is_Some (Some r))) by done. rewrite andb_true_r.
  destruct (decide (territory = u "3543402")) as [->|Hne].
  2:{ rewrite (bool_decide_eq_false_2 (territory = _)) by done.
      rewrite (bool_decide_eq_false_2 (Some territory = _)) by congruence. done. }
  rewrite !bool_decide_eq_true_2 by done. cbn [andb].
  destruct (pipelines.QueridoDiarioFilesPipeline.headers r !! u "Content-Disposition")
    as [[|c cd]|] eqn:Hh; cbn [mbind option_bind].
  - rewrite search_filename_nil. cbn [mbind option_bind].
    rewrite bool_decide_eq_true_2 by done. split; [done | by eexists].
  - destruct (search pipelines.SP_RIBEIRAO_PRETO_PDF_FILENAME (c :: cd)) as [m|] eqn:Hs;
      cbn [bool_of_match mbind option_bind].
    + rewrite bool_decide_eq_false_2 by done. split; [|done].
      intros [?|?]; done.
    + rewrite bool_decide_eq_true_2 by done. split; [done | by eexists].
  - rewrite bool_decide_eq_true_2 by done. split; [done | by eexists].
Qed.

Lemma file_path_fallback_witness :
  sniffed_filename (Some {| pipelines.QueridoDiarioFilesPipeline.headers := ∅ |}) = None
  ∧ (pipelines.QueridoDiarioFilesPipeline.file_path Sample.xhtml Sample.request_1
       (Some {| pipelines.QueridoDiarioFilesPipeline.headers := ∅ |})
       (Sample.item_of (u "3543402") [])).2
    = (pipelines.QueridoDiarioFilesPipeline.file_path Sample.xhtml Sample.request_1 None
         (Sample.item_of (u "3543402") [])).2.
Proof.
  split; [reflexivity|].
  apply (file_path_fallback Sample.xhtml Sample.request_1
           (Some {| pipelines.QueridoDiarioFilesPipeline.headers := ∅ |})
           (Sample.item_of (u "3543402") [])).
  right. reflexivity.
Defined.

(* ===================================================================== *)
(** ** The database sink only appends *)
(* ===================================================================== *)

Lemma insert_each_appends
    (insert_error : list pipelines.SQLDatabasePipeline.Row
                    → pipelines.SQLDatabasePipeline.Row
                    → option pipelines.SQLDatabasePipeline.SQLAlchemyError)
    (rows db : list pipelines.SQLDatabasePipeline.Row) :
  ∃ added,
    (insert_each insert_error rows db).1 = db ++ added
    ∧ sublist added rows
    ∧ Forall (fun l => log_level l = WARNING) (insert_each insert_error rows db).2
    ∧ (length added + length (insert_each insert_error rows db).2 = length rows)%nat.
Proof.
  revert db. induction rows as [|r rows IH]; intros db; cbn [insert_each].
  - exists []. rewrite app_nil_r. split_and!; [done|done|constructor|done].
  - destruct (insert_error db r) as [exc|].
    + destruct (IH db) as (added & H1 & H2 & H3 & H4).
      destruct (insert_each insert_error rows db) as [db' logs]. cbn [fst snd] in *.
      exists added. split_and!; [done|by constructor|by constructor|simpl; lia].
    + destruct (IH (db ++ [r])) as (added & H1 & H2 & H3 & H4).
      exists (r :: added). rewrite H1, <- app_assoc.
      split_and!; [done|by constructor|done|simpl; lia].
Qed.

(** X16. The sink only appends to the database: the rows it had are kept,
    in place, and the rows added come after them in the order of the
    item's file entries. With a database URL, the rows added and the
    warnings logged are together as many as the file entries that are not
    "uptodate"; without one nothing is added and nothing is logged. *)
Theorem sink_appends
    (insert_error : list pipelines.SQLDatabasePipeline.Row
                    → pipelines.SQLDatabasePipeline.Row
                    → option pipelines.SQLDatabasePipeline.SQLAlchemyError)
    (self : pipelines.SQLDatabasePipeline.Pipeline)
    (item : Gazette) (db : list pipelines.SQLDatabasePipeline.Row) :
  let outcome := pipelines.SQLDatabasePipeline.process_item insert_error self item db in
  ∃ added,
    outcome.1.2 = db ++ added
    ∧ sublist added
        (pipelines.SQLDatabasePipeline.gazette_row item <$> not_yet_stored (files item))
    ∧ Forall (fun l => log_level l = WARNING) outcome.2
    ∧ (length added + length outcome.2
       = match pipelines.SQLDatabasePipeline.database_url self with
         | Some _ => length (not_yet_stored (files item))
         | None => 0
         end)%nat.
Proof.
  intros outcome. subst outcome. destruct self as [[url|]].
  - rewrite process_item_spec.
    destruct (insert_each_appends insert_error
                (pipelines.SQLDatabasePipeline.gazette_row item
                   <$> not_yet_stored (files item)) db) as (added & H1 & H2 & H3 & H4).
    destruct (insert_each insert_error _ db) as [db' logs]. cbn [fst snd] in *.
    exists added. rewrite length_fmap in H4. done.
  - exists []. cbn. rewrite app_nil_r. split_and!; [done|apply sublist_nil_l|constructor|done].
Qed.

(* ===================================================================== *)
(** ** From a page to the storage path *)
(* ===================================================================== *)

(** X17. A record of a page, given the defaults of a spider whose
    [TERRITORY_ID] is one path component other than 3543402, is stored
    under the territory and the ISO date of the record, in a file named by
    the SHA-1 hex digest of the request URL and the extension Scrapy chose;
    the response plays no part and nothing is logged. *)
Theorem page_record_storage_path (media_ext : pystr → pystr)
    (self : Spider) (response : Response) (year : Z) (g : Gazette)
    (TERRITORY_ID : pystr) (utcnow : Z) (request : Request)
    (file_response : option pipelines.QueridoDiarioFilesPipeline.Response) :
  g ∈ yielded (parse_year_post_2013_split self response year) →
  single_component TERRITORY_ID = true →
  TERRITORY_ID ≠ u "3543402" →
  47%N ∉ media_ext (url request) →
  ∃ item,
    pipelines.DefaultValuesPipeline.process_item g (Some TERRITORY_ID) utcnow = inr item
    ∧ territory_id item = Some TERRITORY_ID
    ∧ scraped_at item = Some utcnow
    ∧ pipelines.QueridoDiarioFilesPipeline.file_path media_ext request file_response item
      = ([], inr (TERRITORY_ID ++ u "/" ++ isoformat (item_date g) ++ u "/"
                  ++ hashlib.sha1_hexdigest (encode (url request))
                  ++ media_ext (url request))).
Proof.
  intros Hg Ht Hne Hext.
  destruct (page_record_provenance _ _ _ _ Hg) as (ed & extra & Hgz & _ & _).
  assert (territory_id g = None ∧ scraped_at g = None) as [Hgt Hgs]
    by (by rewrite Hgz).
  unfold pipelines.DefaultValuesPipeline.process_item. rewrite Hgt.
  cbn [territory_id scraped_at]. rewrite Hgs.
  eexists. split; [reflexivity|]. cbn [territory_id scraped_at item_date].
  split_and!; [done|done|].
  unfold pipelines.QueridoDiarioFilesPipeline.file_path,
    pipelines.QueridoDiarioFilesPipeline.url_based_file_path.
  cbn [territory_id item_date]. rewrite (bool_decide_eq_false_2 _ Hne).
  rewrite default_name by done.
  rewrite Path_str_three;
    [by destruct file_response|done|apply isoformat_component|by apply base_component].
Qed.

Lemma page_record_storage_path_witness :
  ∃ item,
    pipelines.DefaultValuesPipeline.process_item
      (gazette_of (Date 2013 6 3, u "1586", false)
         [u "https://diariooficialjp.com.br/pdf/2013-06-03.pdf"])
      (Some (u "1100122")) 1700000000 = inr item
    ∧ territory_id item = Some (u "1100122")
    ∧ scraped_at item = Some 1700000000
    ∧ pipelines.QueridoDiarioFilesPipeline.file_path (fun _ => u ".pdf")
        {| method := u "GET";
           url := u "https://diariooficialjp.com.br/pdf/2013-06-03.pdf" |} None item
      = ([], inr (u "1100122" ++ u "/"
                  ++ isoformat
                       (item_date
                          (gazette_of (Date 2013 6 3, u "1586", false)
                             [u "https://diariooficialjp.com.br/pdf/2013-06-03.pdf"]))
                  ++ u "/"
                  ++ hashlib.sha1_hexdigest
                       (encode (u "https://diariooficialjp.com.br/pdf/2013-06-03.pdf"))
                  ++ u ".pdf")).
Proof.
  apply (page_record_storage_path (fun _ => u ".pdf") Sample.spider Sample.page_2013 2013
           (gazette_of (Date 2013 6 3, u "1586", false)
              [u "https://diariooficialjp.com.br/pdf/2013-06-03.pdf"])
           (u "1100122") 1700000000
           {| method := u "GET";
              url := u "https://diariooficialjp.com.br/pdf/2013-06-03.pdf" |} None).
  - assert (yielded (parse_year_post_2013_split Sample.spider Sample.page_2013 2013)
            = [gazette_of (Date 2013 6 3, u "1586", false)
                 [u "https://diariooficialjp.com.br/pdf/2013-06-03.pdf"]]) as ->
      by (vm_compute; reflexivity).
    left.
  - vm_compute. reflexivity.
  - intros H. vm_compute in H. discriminate H.
  - apply (bool_decide_eq_false_1 _). vm_compute. reflexivity.
Defined.

(* ===================================================================== *)
(** ** The PartKeys of the parser *)
(* ===================================================================== *)

Lemma Forall_lstrip (P : N → Prop) (s : pystr) : Forall P s → Forall P (lstrip s).
Proof.
  induction 1 as [|c s Hc Hs IH]; simpl; [constructor|].
  destruct (is_space c); [done | by constructor].
Qed.

Lemma Forall_strip (P : N → Prop) (s : pystr) : Forall P s → Forall P (strip s).
Proof.
  intros H. unfold strip.
  by apply Forall_reverse, Forall_lstrip, Forall_reverse, Forall_lstrip.
Qed.

(** X18. The free text the parser registers an entry under, the PartKey
    of the aggregator, has none of the digits 0 to 9: group 2 of the text
    pattern has none. *)
Theorem registered_text_without_digit (self : Spider) (response : Response) (year : Z)
    (gazette_node : Node) (gazette_date : date) (edition_number : pystr)
    (is_extra_edition : bool) (is_extra_edition_text url : pystr) :
  parse_entry self response year gazette_node
  = Registered gazette_date edition_number is_extra_edition is_extra_edition_text url →
  Forall (fun c => is_digit c = false) is_extra_edition_text.
Proof.
  intros (m & Hm & _ & _ & _ & -> & _)%parse_entry_Registered.
  apply text_pattern_captures in Hm as (_ & H2 & _). by apply Forall_strip.
Qed.

Lemma registered_text_without_digit_witness :
  Forall (fun c => is_digit c = false) (u "SUMPLEMENTO").
Proof.
  apply (registered_text_without_digit Sample.spider (Sample.response_of []) 2018
           Sample.node_2018 (Date 2018 5 17) (u "2000") true (u "SUMPLEMENTO")
           (u "https://diariooficialjp.com.br/pdf/2018-05-17.pdf")).
  vm_compute. reflexivity.
Defined.
